(** * filmic rgb (src/iop/filmicrgb.c): a shallow embedding of the numerical core

    Floating-point scalars are modelled by real numbers: every [float] and
    [double] of the C code is an [R], and the libm functions are their real
    counterparts.  Pixel buffers are flat [list R] indexed as in the C code
    ([k + c] with a stride of [ch] scalars per pixel), updated in place with
    [upd].  Allocation, freeing and the user-visible log go through an
    explicit environment [env]. *)

From Stdlib Require Import Reals Lra Lia List Arith ZArith.
From Stdlib Require String.
From Stdlib Require Import ClassicalEpsilon.
Import ListNotations.

Open Scope R_scope.

(** ** libm and helper macros *)

Definition fmaxf (a b : R) : R := Rmax a b.
Definition fminf (a b : R) : R := Rmin a b.
Definition fabsf (a : R) : R := Rabs a.
Definition sqrtf (a : R) : R := sqrt a.
Definition sqf (a : R) : R := a * a.
Definition expf (a : R) : R := exp a.
Definition log2f (a : R) : R := ln a / ln 2.
Definition exp2f (a : R) : R := Rpower 2 a.

(** [powf]: [powf 0 y] is [0] for [y > 0] and [1] otherwise; a negative
    base is only ever raised to the even power [2.0f] in this module, where
    [powf x y = powf |x| y]. *)
Definition powf (x y : R) : R :=
  if Req_EM_T x 0 then (if Rlt_dec 0 y then 0 else 1) else Rpower (Rabs x) y.

(** [CLAMP(x, low, high)] of glib:
    [((x) > (high)) ? (high) : (((x) < (low)) ? (low) : (x))]. *)
Definition CLAMP (a lo hi : R) : R :=
  if Rlt_dec hi a then hi else if Rlt_dec a lo then lo else a.

Definition NORM_MIN : R := 1.52587890625e-05.

Definition clamp_simd (x : R) : R := fminf (fmaxf x 0) 1.

(** ** Log tone mapping *)

Definition log_tonemapping_v1 (x grey black dynamic_range : R) : R :=
  let temp := (log2f (x / grey) - black) / dynamic_range in
  fmaxf (fminf temp 1) 1.52587890625e-05.

Definition log_tonemapping_v2 (x grey black dynamic_range : R) : R :=
  clamp_simd ((log2f (x / grey) - black) / dynamic_range).

(** ** Enumerations and the parameter record *)

Inductive dt_iop_filmicrgb_methods_type_t :=
| DT_FILMIC_METHOD_NONE
| DT_FILMIC_METHOD_MAX_RGB
| DT_FILMIC_METHOD_LUMINANCE
| DT_FILMIC_METHOD_POWER_NORM
| DT_FILMIC_METHOD_EUCLIDEAN_NORM.

Inductive dt_iop_filmicrgb_curve_type_t := DT_FILMIC_CURVE_POLY_4 | DT_FILMIC_CURVE_POLY_3.

Inductive dt_iop_filmicrgb_colorscience_type_t :=
  DT_FILMIC_COLORSCIENCE_V1 | DT_FILMIC_COLORSCIENCE_V2.

Inductive dt_iop_filmicrgb_reconstruction_type_t :=
  DT_FILMIC_RECONSTRUCT_RGB | DT_FILMIC_RECONSTRUCT_RATIOS.

Record dt_iop_filmicrgb_params_t := mk_params {
  grey_point_source : R;
  black_point_source : R;
  white_point_source : R;
  reconstruct_threshold : R;
  reconstruct_feather : R;
  reconstruct_bloom_vs_details : R;
  reconstruct_grey_vs_color : R;
  reconstruct_structure_vs_texture : R;
  security_factor : R;
  grey_point_target : R;
  black_point_target : R;
  white_point_target : R;
  output_power : R;
  latitude : R;
  contrast : R;
  saturation : R;
  balance : R;
  noise_level : R;
  preserve_color : dt_iop_filmicrgb_methods_type_t;
  version : dt_iop_filmicrgb_colorscience_type_t;
  auto_hardness : bool;
  custom_grey : bool;
  high_quality_reconstruction : nat;
  noise_distribution : nat;
  shadows : dt_iop_filmicrgb_curve_type_t;
  highlights : dt_iop_filmicrgb_curve_type_t
}.

(** The [$DEFAULT] values of the parameter record
    ([noise_distribution] 2 is [DT_NOISE_POISSONIAN]). *)
Definition default_params : dt_iop_filmicrgb_params_t :=
  mk_params 18.45 (-8) 4 3 3 100 100 0 0 18.45 0 100 4 33 1.5 10 0 0.1
            DT_FILMIC_METHOD_POWER_NORM DT_FILMIC_COLORSCIENCE_V2 true false 1 2
            DT_FILMIC_CURVE_POLY_4 DT_FILMIC_CURVE_POLY_4.

(** ** Buffers *)

Definition get (b : list R) (i : nat) : R := nth i b 0.

(** In-place store [b[i] = v]; out of range it leaves [b] as it is. *)
Fixpoint upd (b : list R) (i : nat) (v : R) : list R :=
  match b, i with
  | [], _ => []
  | _ :: t, O => v :: t
  | h :: t, S j => h :: upd t j v
  end.

(** ** The linear solver of iop/gaussian_elimination.h *)

(** Row [i] of the row-major [n x n] matrix [A] applied to [x]. *)
Definition row_dot (n : nat) (A x : list R) (i : nat) : R :=
  fold_right Rplus 0 (map (fun j => get A (i * n + j) * get x j) (seq 0 n)).

Definition solves (n : nat) (A b x : list R) : Prop :=
  length x = n /\ forall i, (i < n)%nat -> row_dot n A x i = get b i.

(** Modelled from the spec: [gauss_solve(A, b, n)] of
    iop/gaussian_elimination.h, which is not part of this source tree.  The
    spec says the 4x4 or 5x5 system is "solved by direct elimination": the
    result is a solution of [A x = b] whenever the system has one.  When it
    has none (a zero pivot), elimination stops and [b] is left as it was. *)
Definition gauss_solve (A b : list R) (n : nat) : list R :=
  match excluded_middle_informative (exists x, solves n A b x) with
  | left H => proj1_sig (constructive_indefinite_description _ H)
  | right _ => b
  end.

(** ** The filmic spline *)

Record dt_iop_filmic_rgb_spline_t := mk_spline {
  M1 : list R; M2 : list R; M3 : list R; M4 : list R; M5 : list R;
  latitude_min : R; latitude_max : R;
  sp_y : list R; sp_x : list R
}.

Definition filmic_spline (x : R) (M1 M2 M3 M4 M5 : list R) (latitude_min latitude_max : R) : R :=
  if Rlt_dec x latitude_min
  then get M1 0 + x * (get M2 0 + x * (get M3 0 + x * (get M4 0 + x * get M5 0)))
  else if Rlt_dec latitude_max x
  then get M1 1 + x * (get M2 1 + x * (get M3 1 + x * (get M4 1 + x * get M5 1)))
  else get M1 2 + x * (get M2 2 + x * (get M3 2 + x * (get M4 2 + x * get M5 2))).

(** The toe part of [dt_iop_filmic_rgb_compute_spline]: returns
    [(M5[0], M4[0], M3[0], M2[0], M1[0])]. *)
Definition spline_toe (shadows : dt_iop_filmicrgb_curve_type_t) (Tl y0 y1 M2_2 : R) : R * R * R * R * R :=
  let Tl2 := Tl * Tl in
  let Tl3 := Tl2 * Tl in
  let Tl4 := Tl3 * Tl in
  match shadows with
  | DT_FILMIC_CURVE_POLY_4 =>
      let A0 := [0; 0; 0; 0; 1;
                 0; 0; 0; 1; 0;
                 Tl4; Tl3; Tl2; Tl; 1;
                 4 * Tl3; 3 * Tl2; 2 * Tl; 1; 0;
                 12 * Tl2; 6 * Tl; 2; 0; 0] in
      let b0 := gauss_solve A0 [y0; 0; y1; M2_2; 0] 5 in
      (get b0 0, get b0 1, get b0 2, get b0 3, get b0 4)
  | DT_FILMIC_CURVE_POLY_3 =>
      let A0 := [0; 0; 0; 1;
                 Tl3; Tl2; Tl; 1;
                 3 * Tl2; 2 * Tl; 1; 0;
                 6 * Tl; 2; 0; 0] in
      let b0 := gauss_solve A0 [y0; y1; M2_2; 0] 4 in
      (0, get b0 0, get b0 1, get b0 2, get b0 3)
  end.

(** The shoulder part: returns [(M5[1], M4[1], M3[1], M2[1], M1[1])]. *)
Definition spline_shoulder (highlights : dt_iop_filmicrgb_curve_type_t) (Sl y4 y3 M2_2 : R) : R * R * R * R * R :=
  let Sl2 := Sl * Sl in
  let Sl3 := Sl2 * Sl in
  let Sl4 := Sl3 * Sl in
  match highlights with
  | DT_FILMIC_CURVE_POLY_3 =>
      let A1 := [1; 1; 1; 1;
                 Sl3; Sl2; Sl; 1;
                 3 * Sl2; 2 * Sl; 1; 0;
                 6 * Sl; 2; 0; 0] in
      let b1 := gauss_solve A1 [y4; y3; M2_2; 0] 4 in
      (0, get b1 0, get b1 1, get b1 2, get b1 3)
  | DT_FILMIC_CURVE_POLY_4 =>
      let A1 := [1; 1; 1; 1; 1;
                 4; 3; 2; 1; 0;
                 Sl4; Sl3; Sl2; Sl; 1;
                 4 * Sl3; 3 * Sl2; 2 * Sl; 1; 0;
                 12 * Sl2; 6 * Sl; 2; 0; 0] in
      let b1 := gauss_solve A1 [y4; 0; y3; M2_2; 0] 5 in
      (get b1 0, get b1 1, get b1 2, get b1 3, get b1 4)
  end.

Definition dt_iop_filmic_rgb_compute_spline (p : dt_iop_filmicrgb_params_t) : dt_iop_filmic_rgb_spline_t :=
  let grey_display :=
    if custom_grey p
    then powf (CLAMP (grey_point_target p) (black_point_target p) (white_point_target p) / 100) (1 / output_power p)
    else powf 0.1845 (1 / output_power p) in
  let white_source := white_point_source p in
  let black_source := black_point_source p in
  let dynamic_range := white_source - black_source in
  let black_log := 0 in
  let grey_log := fabsf (black_point_source p) / dynamic_range in
  let white_log := 1 in
  let black_display := CLAMP (black_point_target p) 0 (grey_point_target p) / 100 in
  let white_display := CLAMP (white_point_target p) (grey_point_target p) 100 / 100 in
  let latitude := CLAMP (latitude p) 0 100 / 100 * dynamic_range in
  let balance := CLAMP (balance p) (-50) 50 / 100 in
  let contrast := CLAMP (contrast p) 0.1 2 in
  let toe_log := grey_log - latitude / dynamic_range * fabsf (black_source / dynamic_range) in
  let shoulder_log := grey_log + latitude / dynamic_range * fabsf (white_source / dynamic_range) in
  let linear_intercept := grey_display - contrast * grey_log in
  let toe_display := toe_log * contrast + linear_intercept in
  let shoulder_display := shoulder_log * contrast + linear_intercept in
  let norm := sqrtf (contrast * contrast + 1) in
  let coeff := - ((2 * latitude) / dynamic_range) * balance in
  let toe_display := toe_display + coeff * contrast / norm in
  let shoulder_display := shoulder_display + coeff * contrast / norm in
  let toe_log := toe_log + coeff / norm in
  let shoulder_log := shoulder_log + coeff / norm in
  let x := [black_log; toe_log; grey_log; shoulder_log; white_log] in
  let y := [black_display; toe_display; grey_display; shoulder_display; white_display] in
  let Tl := get x 1 in
  let Sl := get x 3 in
  let M2_2 := contrast in
  let M1_2 := get y 1 - M2_2 * get x 1 in
  let '(M5_0, M4_0, M3_0, M2_0, M1_0) := spline_toe (shadows p) Tl (get y 0) (get y 1) M2_2 in
  let '(M5_1, M4_1, M3_1, M2_1, M1_1) := spline_shoulder (highlights p) Sl (get y 4) (get y 3) M2_2 in
  mk_spline [M1_0; M1_1; M1_2] [M2_0; M2_1; M2_2] [M3_0; M3_1; 0] [M4_0; M4_1; 0] [M5_0; M5_1; 0]
            (get x 1) (get x 3) y x.

(** Segment [i] of the spline (0 toe, 1 shoulder, 2 latitude) as
    evaluated by [filmic_spline], and its first derivative. *)
Definition spline_segment (sp : dt_iop_filmic_rgb_spline_t) (i : nat) (x : R) : R :=
  get (M1 sp) i + x * (get (M2 sp) i + x * (get (M3 sp) i + x * (get (M4 sp) i + x * get (M5 sp) i))).

Definition spline_segment_deriv (sp : dt_iop_filmic_rgb_spline_t) (i : nat) (x : R) : R :=
  get (M2 sp) i + x * (2 * get (M3 sp) i + x * (3 * get (M4 sp) i + x * (4 * get (M5 sp) i))).

(** Value and slope of a coefficient tuple [(M5, M4, M3, M2, M1)]. *)
Definition poly_value (m : R * R * R * R * R) (x : R) : R :=
  let '(m5, m4, m3, m2, m1) := m in m1 + x * (m2 + x * (m3 + x * (m4 + x * m5))).

Definition poly_deriv (m : R * R * R * R * R) (x : R) : R :=
  let '(m5, m4, m3, m2, m1) := m in m2 + x * (2 * m3 + x * (3 * m4 + x * (4 * m5))).

Definition spline_continuous (sp : dt_iop_filmic_rgb_spline_t) : Prop :=
  spline_segment sp 0 (latitude_min sp) = spline_segment sp 2 (latitude_min sp) /\
  spline_segment_deriv sp 0 (latitude_min sp) = spline_segment_deriv sp 2 (latitude_min sp) /\
  spline_segment sp 1 (latitude_max sp) = spline_segment sp 2 (latitude_max sp) /\
  spline_segment_deriv sp 1 (latitude_max sp) = spline_segment_deriv sp 2 (latitude_max sp).

(** The default parameters with the latitude at its maximum of 100 %. *)
Definition full_latitude_params : dt_iop_filmicrgb_params_t :=
  mk_params 18.45 (-8) 4 3 3 100 100 0 0 18.45 0 100 4 100 1.5 10 0 0.1
            DT_FILMIC_METHOD_POWER_NORM DT_FILMIC_COLORSCIENCE_V2 true false 1 2
            DT_FILMIC_CURVE_POLY_4 DT_FILMIC_CURVE_POLY_4.

(** ** Committed processing data *)

Module Data.
Record dt_iop_filmicrgb_data_t := mk_data {
  max_grad : R;
  white_source : R;
  grey_source : R;
  black_source : R;
  reconstruct_threshold : R;
  reconstruct_feather : R;
  reconstruct_bloom_vs_details : R;
  reconstruct_grey_vs_color : R;
  reconstruct_structure_vs_texture : R;
  dynamic_range : R;
  saturation : R;
  output_power : R;
  contrast : R;
  sigma_toe : R;
  sigma_shoulder : R;
  noise_level : R;
  preserve_color : dt_iop_filmicrgb_methods_type_t;
  version : dt_iop_filmicrgb_colorscience_type_t;
  high_quality_reconstruction : nat;
  spline : dt_iop_filmic_rgb_spline_t;
  noise_distribution : nat
}.
End Data.

(** Source and display greys of [commit_params]: [(grey_source, grey_display)]. *)
Definition commit_greys (p : dt_iop_filmicrgb_params_t) : R * R :=
  if custom_grey p
  then (grey_point_source p / 100, powf (grey_point_target p / 100) (1 / output_power p))
  else (0.1845, powf 0.1845 (1 / output_power p)).

(** The contrast committed by [commit_params]. *)
Definition commit_contrast (p : dt_iop_filmicrgb_params_t) : R :=
  let grey_display := snd (commit_greys p) in
  let dynamic_range := white_point_source p - black_point_source p in
  let grey_log := fabsf (black_point_source p) / dynamic_range in
  let contrast := contrast p in
  if Rlt_dec contrast (grey_display / grey_log)
  then 1.0001 * grey_display / grey_log
  else contrast.

(** [commit_params(self, p, pipe, piece)]: the fields it does not write
    ([max_grad], [white_source]) keep the values of [d]. *)
Definition commit_params (p : dt_iop_filmicrgb_params_t) (d : Data.dt_iop_filmicrgb_data_t)
  : Data.dt_iop_filmicrgb_data_t :=
  let '(grey_source, grey_display) := commit_greys p in
  let white_source := white_point_source p in
  let black_source := black_point_source p in
  let dynamic_range := white_source - black_source in
  let spline := dt_iop_filmic_rgb_compute_spline p in
  {| Data.max_grad := Data.max_grad d;
     Data.white_source := Data.white_source d;
     Data.grey_source := grey_source;
     Data.black_source := black_source;
     Data.reconstruct_threshold := powf 2 (white_source + reconstruct_threshold p) * grey_source;
     Data.reconstruct_feather := exp2f (12 / reconstruct_feather p);
     Data.reconstruct_bloom_vs_details := (reconstruct_bloom_vs_details p / 100 + 1) / 2;
     Data.reconstruct_grey_vs_color := (reconstruct_grey_vs_color p / 100 + 1) / 2;
     Data.reconstruct_structure_vs_texture := (reconstruct_structure_vs_texture p / 100 + 1) / 2;
     Data.dynamic_range := dynamic_range;
     Data.saturation := 2 * saturation p / 100 + 1;
     Data.output_power := output_power p;
     Data.contrast := commit_contrast p;
     Data.sigma_toe := powf (latitude_min spline / 3) 2;
     Data.sigma_shoulder := powf ((1 - latitude_max spline) / 3) 2;
     Data.noise_level := noise_level p;
     Data.preserve_color := preserve_color p;
     Data.version := version p;
     Data.high_quality_reconstruction := high_quality_reconstruction p;
     Data.spline := spline;
     Data.noise_distribution := noise_distribution p |}.

(** A zero-filled [piece->data] before its first commit. *)
Definition zero_data : Data.dt_iop_filmicrgb_data_t :=
  Data.mk_data 0 0 0 0 0 0 0 0 0 0 0 0 0 0 0 0
    DT_FILMIC_METHOD_NONE DT_FILMIC_COLORSCIENCE_V1 0 (dt_iop_filmic_rgb_compute_spline default_params) 0.

(** The default parameters with a contrast of 0.5. *)
Definition low_contrast_params : dt_iop_filmicrgb_params_t :=
  mk_params 18.45 (-8) 4 3 3 100 100 0 0 18.45 0 100 4 33 0.5 10 0 0.1
            DT_FILMIC_METHOD_POWER_NORM DT_FILMIC_COLORSCIENCE_V2 true false 1 2
            DT_FILMIC_CURVE_POLY_4 DT_FILMIC_CURVE_POLY_4.

(** ** Clipped-pixels mask *)

(** [mask_clipped_pixels(in, mask, normalize, feathering, width, height, ch)]:
    the updated mask and the returned [gint] ([clipped > 9]). *)
Definition mask_clipped_pixels (input mask : list R) (normalize feathering : R)
  (width height ch : nat) : bool * list R :=
  let '(mask, clipped) :=
    fold_left
      (fun '(mask, clipped) p =>
         let k := (p * ch)%nat in
         let pix_max := sqrtf (sqf (get input k) + sqf (get input (k + 1)) + sqf (get input (k + 2))) in
         let argument := - pix_max * normalize + feathering in
         let weight := 1 / (1 + exp2f argument) in
         (upd mask (k / ch) weight, (clipped + if Rlt_dec argument 4 then 1 else 0)%nat))
      (seq 0 (height * width)) (mask, 0%nat) in
  (Nat.ltb 9 clipped, mask).

(** The per-pixel quantities of the spec's ClipMask section, pixel [p] of a
    4-channel buffer. *)
Definition spec_pix_max (input : list R) (p : nat) : R :=
  sqrt (get input (4 * p) ^ 2 + get input (4 * p + 1) ^ 2 + get input (4 * p + 2) ^ 2).

Definition spec_argument (input : list R) (feather threshold : R) (p : nat) : R :=
  feather - spec_pix_max input p * (feather / threshold).

Definition spec_weight (input : list R) (feather threshold : R) (p : nat) : R :=
  1 / (1 + Rpower 2 (spec_argument input feather threshold p)).

Definition spec_clipped_count (input : list R) (feather threshold : R) (n : nat) : nat :=
  length (filter (fun p => if Rlt_dec (spec_argument input feather threshold p) 4 then true else false)
                 (seq 0 n)).

(** ** Pixel loops *)

(** [for(i = 0; i < n; i++) body(i)] over a state [a]. *)
Definition for_loop {A : Type} (n : nat) (body : nat -> A -> A) (a : A) : A :=
  fold_left (fun acc i => body i acc) (seq 0 n) a.

(** Writing the three color channels [k], [k + 1], [k + 2] in turn. *)
Definition upd3 (b : list R) (k : nat) (v0 v1 v2 : R) : list R :=
  upd (upd (upd b k v0) (k + 1) v1) (k + 2) v2.

Definition filmic_desaturate_v1 (x sigma_toe sigma_shoulder saturation : R) : R :=
  let radius_toe := x in
  let radius_shoulder := 1 - x in
  let key_toe := expf (-0.5 * radius_toe * radius_toe / sigma_toe) in
  let key_shoulder := expf (-0.5 * radius_shoulder * radius_shoulder / sigma_shoulder) in
  1 - clamp_simd ((key_toe + key_shoulder) / saturation).

Definition filmic_desaturate_v2 (x sigma_toe sigma_shoulder saturation : R) : R :=
  let radius_toe := x in
  let radius_shoulder := 1 - x in
  let sat2 := 0.5 / sqrtf saturation in
  let key_toe := expf (- radius_toe * radius_toe / sigma_toe * sat2) in
  let key_shoulder := expf (- radius_shoulder * radius_shoulder / sigma_shoulder * sat2) in
  saturation - (key_toe + key_shoulder) * saturation.

Definition linear_saturation (x luminance saturation : R) : R :=
  luminance + saturation * (x - luminance).

Definition fmaxabsf (a b : R) : R := if Rlt_dec (fabsf b) (fabsf a) then a else b.
Definition fminabsf (a b : R) : R := if Rlt_dec (fabsf a) (fabsf b) then a else b.

Definition pixel_rgb_norm_power (r g b : R) : R :=
  let '(numerator, denominator) :=
    fold_left (fun '(numerator, denominator) value0 =>
                 let value := fabsf value0 in
                 let RGB_square := value * value in
                 let RGB_cubic := RGB_square * value in
                 (numerator + RGB_cubic, denominator + RGB_square))
              [r; g; b] (0, 0) in
  numerator / fmaxf denominator 1e-12.

(** The messages passed to [dt_control_log]. *)
Module Msg.
Import String.
Definition reconstruct_highlights_failed : string :=
  "filmic highlights reconstruction failed to allocate memory, check your RAM settings".
Definition rgb_only : string := "filmic works only on RGB input".
End Msg.

Section Pipeline.

(** The luminance of an RGB triplet in the pipe's working profile
    ([dt_ioppr_get_rgb_matrix_luminance] with the work profile, or
    [dt_camera_rgb_luminance] without one): a function of the darktable
    core, outside this module. *)
Variable rgb_luminance : R -> R -> R -> R.

Definition get_pixel_norm (r g b : R) (variant : dt_iop_filmicrgb_methods_type_t) : R :=
  match variant with
  | DT_FILMIC_METHOD_MAX_RGB => fmaxf (fmaxf r g) b
  | DT_FILMIC_METHOD_LUMINANCE => rgb_luminance r g b
  | DT_FILMIC_METHOD_POWER_NORM => pixel_rgb_norm_power r g b
  | DT_FILMIC_METHOD_EUCLIDEAN_NORM => sqrtf (sqf r + sqf g + sqf b)
  | DT_FILMIC_METHOD_NONE => rgb_luminance r g b
  end.

Definition filmic_split_v1 (input out : list R) (data : Data.dt_iop_filmicrgb_data_t)
  (spline : dt_iop_filmic_rgb_spline_t) (width height ch : nat) : list R :=
  for_loop (height * width) (fun p out =>
    let k := (p * ch)%nat in
    let tm c := log_tonemapping_v1 (fmaxf (get input (k + c)) NORM_MIN)
                  (Data.grey_source data) (Data.black_source data) (Data.dynamic_range data) in
    let t0 := tm 0%nat in let t1 := tm 1%nat in let t2 := tm 2%nat in
    let lum := rgb_luminance t0 t1 t2 in
    let desaturation := filmic_desaturate_v1 lum (Data.sigma_toe data) (Data.sigma_shoulder data) (Data.saturation data) in
    let f t := powf (clamp_simd (filmic_spline (linear_saturation t lum desaturation)
                       (M1 spline) (M2 spline) (M3 spline) (M4 spline) (M5 spline)
                       (latitude_min spline) (latitude_max spline))) (Data.output_power data) in
    upd3 out k (f t0) (f t1) (f t2)) out.

Definition filmic_split_v2 (input out : list R) (data : Data.dt_iop_filmicrgb_data_t)
  (spline : dt_iop_filmic_rgb_spline_t) (width height ch : nat) : list R :=
  for_loop (height * width) (fun p out =>
    let k := (p * ch)%nat in
    let tm c := log_tonemapping_v2 (fmaxf (get input (k + c)) NORM_MIN)
                  (Data.grey_source data) (Data.black_source data) (Data.dynamic_range data) in
    let t0 := tm 0%nat in let t1 := tm 1%nat in let t2 := tm 2%nat in
    let lum := rgb_luminance t0 t1 t2 in
    let desaturation := filmic_desaturate_v2 lum (Data.sigma_toe data) (Data.sigma_shoulder data) (Data.saturation data) in
    let f t := powf (clamp_simd (filmic_spline (linear_saturation t lum desaturation)
                       (M1 spline) (M2 spline) (M3 spline) (M4 spline) (M5 spline)
                       (latitude_min spline) (latitude_max spline))) (Data.output_power data) in
    upd3 out k (f t0) (f t1) (f t2)) out.

Definition filmic_chroma_v1 (input out : list R) (data : Data.dt_iop_filmicrgb_data_t)
  (spline : dt_iop_filmic_rgb_spline_t) (variant : dt_iop_filmicrgb_methods_type_t)
  (width height ch : nat) : list R :=
  for_loop (height * width) (fun p out =>
    let k := (p * ch)%nat in
    let norm := fmaxf (get_pixel_norm (get input k) (get input (k + 1)) (get input (k + 2)) variant) NORM_MIN in
    let r0 := get input k / norm in
    let r1 := get input (k + 1) / norm in
    let r2 := get input (k + 2) / norm in
    let min_ratios := fminf (fminf r0 r1) r2 in
    let '(r0, r1, r2) := if Rlt_dec min_ratios 0
                         then (r0 - min_ratios, r1 - min_ratios, r2 - min_ratios)
                         else (r0, r1, r2) in
    let norm := log_tonemapping_v1 norm (Data.grey_source data) (Data.black_source data) (Data.dynamic_range data) in
    let desaturation := filmic_desaturate_v1 norm (Data.sigma_toe data) (Data.sigma_shoulder data) (Data.saturation data) in
    let r0 := r0 * norm in let r1 := r1 * norm in let r2 := r2 * norm in
    let lum := rgb_luminance r0 r1 r2 in
    let r0 := linear_saturation r0 lum desaturation / norm in
    let r1 := linear_saturation r1 lum desaturation / norm in
    let r2 := linear_saturation r2 lum desaturation / norm in
    let norm := powf (clamp_simd (filmic_spline norm (M1 spline) (M2 spline) (M3 spline) (M4 spline) (M5 spline)
                                   (latitude_min spline) (latitude_max spline))) (Data.output_power data) in
    upd3 out k (r0 * norm) (r1 * norm) (r2 * norm)) out.

Definition filmic_chroma_v2 (input out : list R) (data : Data.dt_iop_filmicrgb_data_t)
  (spline : dt_iop_filmic_rgb_spline_t) (variant : dt_iop_filmicrgb_methods_type_t)
  (width height ch : nat) : list R :=
  for_loop (height * width) (fun p out =>
    let k := (p * ch)%nat in
    let norm := fmaxf (get_pixel_norm (get input k) (get input (k + 1)) (get input (k + 2)) variant) NORM_MIN in
    let r0 := get input k / norm in
    let r1 := get input (k + 1) / norm in
    let r2 := get input (k + 2) / norm in
    let min_ratios := fminf (fminf r0 r1) r2 in
    let '(r0, r1, r2) := if Rlt_dec min_ratios 0
                         then (r0 - min_ratios, r1 - min_ratios, r2 - min_ratios)
                         else (r0, r1, r2) in
    let norm := log_tonemapping_v2 norm (Data.grey_source data) (Data.black_source data) (Data.dynamic_range data) in
    let desaturation := filmic_desaturate_v2 norm (Data.sigma_toe data) (Data.sigma_shoulder data) (Data.saturation data) in
    let norm := powf (clamp_simd (filmic_spline norm (M1 spline) (M2 spline) (M3 spline) (M4 spline) (M5 spline)
                                   (latitude_min spline) (latitude_max spline))) (Data.output_power data) in
    let sat r := fmaxf (r + (1 - r) * (1 - desaturation)) 0 in
    let r0 := sat r0 in let r1 := sat r1 in let r2 := sat r2 in
    let out := upd3 out k (r0 * norm) (r1 * norm) (r2 * norm) in
    let max_pix := fmaxf (fmaxf (get out k) (get out (k + 1))) (get out (k + 2)) in
    if Rlt_dec 1 max_pix
    then let pen r := fmaxf (r + (1 - max_pix)) 0 in
         let r0 := pen r0 in let r1 := pen r1 in let r2 := pen r2 in
         upd3 out k (clamp_simd (r0 * norm)) (clamp_simd (r1 * norm)) (clamp_simd (r2 * norm))
    else out) out.

Definition display_mask (mask out : list R) (width height ch : nat) : list R :=
  for_loop (height * width * ch) (fun k out => upd out k (get mask (k / ch))) out.

(** [compute_ratios(in, norms, ratios, ...)]: the updated [(norms, ratios)]. *)
Definition compute_ratios (input norms ratios : list R) (variant : dt_iop_filmicrgb_methods_type_t)
  (width height ch : nat) : list R * list R :=
  for_loop (height * width) (fun p '(norms, ratios) =>
    let k := (p * ch)%nat in
    let norm := fmaxf (get_pixel_norm (get input k) (get input (k + 1)) (get input (k + 2)) variant) NORM_MIN in
    (upd norms (k / ch) norm,
     upd3 ratios k (get input k / norm) (get input (k + 1) / norm) (get input (k + 2) / norm)))
    (norms, ratios).

Definition restore_ratios (ratios norms : list R) (width height ch : nat) : list R :=
  for_loop (height * width) (fun p ratios =>
    let k := (p * ch)%nat in
    upd3 ratios k (get ratios k * get norms (k / ch)) (get ratios (k + 1) * get norms (k / ch))
                  (get ratios (k + 2) * get norms (k / ch)))
    ratios.

(** ** Allocation and the control log *)

(** The outcome of each successive [dt_alloc_sse_ps] is read from
    [alloc_results] ([false]: the allocation returns [NULL]; once the list is
    exhausted every allocation succeeds), [live_buffers] counts the buffers
    allocated and not yet freed, [control_log] collects the messages passed
    to [dt_control_log]. *)
Record env := mk_env {
  alloc_results : list bool;
  live_buffers : nat;
  control_log : list String.string
}.

(** A fresh buffer of [n] floats; its contents are unspecified in C and
    modelled as zeros. *)
Definition dt_alloc_sse_ps (n : nat) (e : env) : option (list R) * env :=
  match alloc_results e with
  | [] => (Some (repeat 0 n), mk_env [] (S (live_buffers e)) (control_log e))
  | true :: rest => (Some (repeat 0 n), mk_env rest (S (live_buffers e)) (control_log e))
  | false :: rest => (None, mk_env rest (live_buffers e) (control_log e))
  end.

(** [dt_free_align(b)] on a possibly [NULL] buffer. *)
Definition dt_free_align (b : option (list R)) (e : env) : env :=
  match b with
  | Some _ => mk_env (alloc_results e) (pred (live_buffers e)) (control_log e)
  | None => e
  end.

Definition dt_control_log (msg : String.string) (e : env) : env :=
  mk_env (alloc_results e) (live_buffers e) (control_log e ++ [msg]).

(** A [NULL] buffer seen as a buffer of no element. *)
Definition buf (b : option (list R)) : list R :=
  match b with Some l => l | None => [] end.

(** ** Highlights reconstruction *)

(** The noise generator of common/noise_generator.h and its xoshiro256
    state, outside this module. *)
Variable rng_state : Type.
Variable xoshiro256_init : rng_state.
Variable dt_noise_generator : nat -> R -> R -> bool -> rng_state -> R * rng_state.

(** [for(k = 0; k < num_elem; k += ch)] visits the pixels [p] with
    [p * ch < num_elem], [ceil(num_elem / ch)] of them ([ch > 0]). *)
Definition inpaint_noise (input mask inpainted : list R) (noise_level threshold : R)
  (noise_distribution : nat) (num_elem ch : nat) : list R :=
  let '(inpainted, _) :=
    for_loop ((num_elem + ch - 1) / ch) (fun p '(inpainted, state) =>
      let k := (p * ch)%nat in
      let weight := get mask (k / ch) in
      for_loop 3 (fun c '(inpainted, state) =>
        let input := get input (k + c) in
        let '(noise, state) := dt_noise_generator noise_distribution input (input * noise_level / threshold)
                                  (Nat.eqb (c mod 2) 0) state in
        (upd inpainted (k + c) (input * (1 - weight) + weight * noise), state))
        (inpainted, state))
      (inpainted, xoshiro256_init) in
  inpainted.

Definition bspline_filter (jj : nat) : R :=
  match jj with 0 => 1 / 16 | 1 => 4 / 16 | 2 => 6 / 16 | 3 => 4 / 16 | _ => 1 / 16 end.

(** The tap [jj] of the filter around [j], bound-checked near the edges. *)
Definition bspline_index (check : bool) (mult jj j : nat) (bound_lo bound_hi : Z) : nat :=
  if check
  then let index := (Z.of_nat mult * (Z.of_nat jj - 2) + Z.of_nat j)%Z in
       Z.to_nat (if (index <? bound_lo)%Z then bound_lo
                 else if (bound_hi <? index)%Z then bound_hi else index)
  else (mult * jj + j - 2 * mult)%nat.

Definition blur_2D_Bspline_vertical (input out : list R) (width height ch mult : nat)
  (bound_left bound_right : Z) : list R :=
  for_loop height (fun i out => for_loop width (fun j out =>
    let index_out := ((i * width + j) * ch)%nat in
    let check := negb (Nat.ltb (2 * mult) j && Nat.ltb j (width - 2 * mult)) in
    let accumulator c :=
      fold_left (fun a jj => a + bspline_filter jj *
                   get input ((i * width + bspline_index check mult jj j bound_left bound_right) * ch + c))
                (seq 0 5) 0 in
    upd3 out index_out (accumulator 0%nat) (accumulator 1%nat) (accumulator 2%nat)) out) out.

Definition blur_2D_Bspline_horizontal (input out : list R) (width height ch mult : nat)
  (bound_top bound_bot : Z) : list R :=
  for_loop height (fun i out => for_loop width (fun j out =>
    let index_out := ((i * width + j) * ch)%nat in
    let check := negb (Nat.ltb (2 * mult) i && Nat.ltb i (height - 2 * mult)) in
    let accumulator c :=
      if Nat.ltb c 3
      then fold_left (fun a ii => a + bspline_filter ii *
                        get input ((bspline_index check mult ii i bound_top bound_bot * width + j) * ch + c))
                     (seq 0 5) 0
      else 0 in
    for_loop ch (fun c out => upd out (index_out + c) (accumulator c)) out) out) out.

(** [wavelets_detail_level_RGB(detail, LF, HF, texture, ...)]: the updated [(HF, texture)]. *)
Definition wavelets_detail_level_RGB (detail LF HF texture : list R) (width height ch : nat) : list R * list R :=
  for_loop (height * width) (fun p '(HF, texture) =>
    let k := (p * ch)%nat in
    let HF := upd3 HF k (get detail k - get LF k) (get detail (k + 1) - get LF (k + 1))
                        (get detail (k + 2) - get LF (k + 2)) in
    (HF, upd texture (k / ch) (fmaxabsf (fmaxabsf (get HF k) (get HF (k + 1))) (get HF (k + 2)))))
    (HF, texture).

Definition wavelets_detail_level_ratios (detail LF HF texture : list R) (width height ch : nat) : list R * list R :=
  for_loop (height * width) (fun p '(HF, texture) =>
    let k := (p * ch)%nat in
    let HF := upd3 HF k (get detail k - get LF k) (get detail (k + 1) - get LF (k + 1))
                        (get detail (k + 2) - get LF (k + 2)) in
    (HF, upd texture (k / ch) (fminabsf (fminabsf (get HF k) (get HF (k + 1))) (get HF (k + 2)))))
    (HF, texture).

(** [fminf(fabsf(HF_c[c] / grey_details), 1.f)]: [grey_details] is the
    largest magnitude of the three high frequencies, so it is [0] only when
    [HF_c[c]] is [0] too; then [0.f / 0.f] is NaN and [fminf] returns its
    other argument, [1]. *)
Definition HF_ratio (HF grey_details : R) : R :=
  if Req_EM_T grey_details 0 then 1 else fminf (fabsf (HF / grey_details)) 1.

(** The body shared by [wavelets_reconstruct_RGB] and
    [wavelets_reconstruct_ratios]: they differ by the grey residual ([fminf]
    or [fmaxf] of the low frequencies) and the sign and weight of the
    texture in the color details ([1] or [-0.5]). *)
Definition wavelets_reconstruct (grey_of : R -> R -> R) (texture_weight : R)
  (HF LF texture mask reconstructed : list R) (width height ch : nat)
  (gamma gamma_comp beta beta_comp delta : R) (s scales : nat) : list R :=
  for_loop (height * width) (fun p reconstructed =>
    let k := (p * ch)%nat in
    let alpha := get mask (k / ch) in
    let HF_c c := get HF (k + c) in
    let LF_c c := get LF (k + c) in
    let grey_texture := gamma * get texture (k / ch) in
    let grey_details := fmaxabsf (fmaxabsf (HF_c 0%nat) (HF_c 1%nat)) (HF_c 2%nat) in
    let grey_HF := beta_comp * (gamma_comp * grey_details + grey_texture) in
    let grey_residual := beta_comp * grey_of (grey_of (LF_c 0%nat) (LF_c 1%nat)) (LF_c 2%nat) in
    for_loop 3 (fun c reconstructed =>
      let color_residual := LF_c c * beta in
      let color_details := (HF_c c * gamma_comp
                            + texture_weight * HF_ratio (HF_c c) grey_details * grey_texture) * beta in
      upd reconstructed (k + c)
        (get reconstructed (k + c)
         + alpha * (delta * (grey_HF + color_details) + (grey_residual + color_residual) / INR scales)))
      reconstructed)
    reconstructed.

Definition wavelets_reconstruct_RGB := wavelets_reconstruct fminf 1.
Definition wavelets_reconstruct_ratios := wavelets_reconstruct fmaxf (-0.5).

Definition init_reconstruct (input mask reconstructed : list R) (width height ch : nat) : list R :=
  for_loop (height * width * ch) (fun k reconstructed =>
    upd reconstructed k (get input k * (1 - get mask (k / ch)))) reconstructed.

(** The fields of the pipe, the piece and the regions of interest that
    [process] reads.  [show_mask] stands for
    [gui_attached && (pipe->type & FULL) == FULL && g->show_mask],
    [run_fast] for [(pipe->type & FAST) == FAST], [mask_display] for
    [pipe->mask_display & DISPLAY_MASK]. *)
Record dt_pipe_t := mk_pipe {
  colors : nat;
  iscale : R;
  buf_in_width : R;
  buf_in_height : R;
  roi_in_scale : R;
  roi_in_height : nat;
  roi_out_width : nat;
  roi_out_height : nat;
  show_mask : bool;
  run_fast : bool;
  mask_display : bool
}.

Definition MAX_NUM_SCALES : Z := 12.

(** [get_scales]: [floorf] and the float-to-integer conversions are
    [Int_part] (all the converted values are non-negative but the logarithm). *)
Definition get_scales (piece : dt_pipe_t) : nat :=
  let scale := roi_in_scale piece / iscale piece in
  let size := IZR (Int_part (Rmax (buf_in_height piece * iscale piece) (buf_in_width piece * iscale piece))) in
  let scales := Int_part (log2f (2 * size * scale / (4 * 5) - 1)) in
  Z.to_nat (if (MAX_NUM_SCALES <? scales)%Z then MAX_NUM_SCALES
            else if (scales <? 1)%Z then 1%Z else scales).

(** The scratch buffers of one wavelet scale and the reconstructed buffer. *)
Record scale_state := mk_scale_state {
  LF_even : list R; LF_odd : list R; HF_RGB : list R; HF_grey : list R; temp : list R;
  st_reconstructed : list R
}.

(** One iteration [s] of the wavelet loop of [reconstruct_highlights]. *)
Definition reconstruct_scale (input mask : list R) (variant : dt_iop_filmicrgb_reconstruction_type_t)
  (width height ch : nat) (gamma gamma_comp beta beta_comp delta : R) (scales : nat)
  (s : nat) (st : scale_state) : scale_state :=
  let bound_left := 0%Z in
  let bound_right := (Z.of_nat width - 1)%Z in
  let bound_top := 0%Z in
  let bound_bot := (Z.of_nat height - 1)%Z in
  (* the LF written at this scale is LF_odd when [s] is even, LF_even when [s] is odd *)
  let s_odd := Nat.odd s in
  let detail := if Nat.eqb s 0 then input else if s_odd then LF_odd st else LF_even st in
  let LF0 := if s_odd then LF_even st else LF_odd st in
  let mult := (2 ^ s)%nat in
  let temp := blur_2D_Bspline_vertical detail (temp st) width height ch mult bound_left bound_right in
  let LF := blur_2D_Bspline_horizontal temp LF0 width height ch mult bound_top bound_bot in
  let '(HF_RGB, HF_grey) :=
    match variant with
    | DT_FILMIC_RECONSTRUCT_RGB => wavelets_detail_level_RGB detail LF (HF_RGB st) (HF_grey st) width height ch
    | DT_FILMIC_RECONSTRUCT_RATIOS => wavelets_detail_level_ratios detail LF (HF_RGB st) (HF_grey st) width height ch
    end in
  let temp := blur_2D_Bspline_vertical HF_RGB temp width height ch mult bound_left bound_right in
  let HF_RGB := blur_2D_Bspline_horizontal temp HF_RGB width height ch mult bound_top bound_bot in
  let reconstructed :=
    match variant with
    | DT_FILMIC_RECONSTRUCT_RGB =>
        wavelets_reconstruct_RGB HF_RGB LF HF_grey mask (st_reconstructed st) width height ch
                                 gamma gamma_comp beta beta_comp delta s scales
    | DT_FILMIC_RECONSTRUCT_RATIOS =>
        wavelets_reconstruct_ratios HF_RGB LF HF_grey mask (st_reconstructed st) width height ch
                                    gamma gamma_comp beta beta_comp delta s scales
    end in
  mk_scale_state (if s_odd then LF else LF_even st) (if s_odd then LF_odd st else LF)
                 HF_RGB HF_grey temp reconstructed.

(** [reconstruct_highlights(in, mask, reconstructed, variant, ch, data, piece, roi_in, roi_out)]:
    [(success, reconstructed, env)]. *)
Definition reconstruct_highlights (input mask reconstructed : list R)
  (variant : dt_iop_filmicrgb_reconstruction_type_t) (ch : nat)
  (data : Data.dt_iop_filmicrgb_data_t) (piece : dt_pipe_t) (e : env) : bool * list R * env :=
  let width := roi_out_width piece in
  let height := roi_out_height piece in
  let scales := get_scales piece in
  let '(LF_even, e) := dt_alloc_sse_ps (width * height * ch) e in
  let '(LF_odd, e) := dt_alloc_sse_ps (width * height * ch) e in
  let '(HF_RGB, e) := dt_alloc_sse_ps (width * height * ch) e in
  let '(HF_grey, e) := dt_alloc_sse_ps (width * height) e in
  let '(temp, e) := dt_alloc_sse_ps (width * height * ch) e in
  let release e :=
    dt_free_align HF_grey (dt_free_align HF_RGB (dt_free_align LF_odd
      (dt_free_align LF_even (dt_free_align temp e)))) in
  match LF_even, LF_odd, HF_RGB, HF_grey, temp with
  | Some lf_even, Some lf_odd, Some hf_rgb, Some hf_grey, Some tmp =>
      let reconstructed := init_reconstruct input mask reconstructed width height ch in
      let gamma := Data.reconstruct_structure_vs_texture data in
      let gamma_comp := 1 - Data.reconstruct_structure_vs_texture data in
      let beta := Data.reconstruct_grey_vs_color data in
      let beta_comp := 1 - Data.reconstruct_grey_vs_color data in
      let delta := Data.reconstruct_bloom_vs_details data in
      let st := for_loop scales
                  (reconstruct_scale input mask variant width height ch gamma gamma_comp beta beta_comp delta scales)
                  (mk_scale_state lf_even lf_odd hf_rgb hf_grey tmp reconstructed) in
      (true, st_reconstructed st, release e)
  | _, _, _, _, _ =>
      (false, reconstructed, release (dt_control_log Msg.reconstruct_highlights_failed e))
  end.

(** [dt_iop_alpha_copy(ivoid, ovoid, width, height)] of the darktable core,
    outside this module. *)
Variable dt_iop_alpha_copy : list R -> list R -> nat -> nat -> list R.

(** The tone-mapping dispatch at the end of [process]: [filmic_split_*]
    is called with [roi_in->height], [filmic_chroma_*] with
    [roi_out->height]. *)
Definition filmic_tonemap (input out : list R) (data : Data.dt_iop_filmicrgb_data_t)
  (piece : dt_pipe_t) (ch : nat) : list R :=
  match Data.preserve_color data with
  | DT_FILMIC_METHOD_NONE =>
      match Data.version data with
      | DT_FILMIC_COLORSCIENCE_V1 =>
          filmic_split_v1 input out data (Data.spline data) (roi_out_width piece) (roi_in_height piece) ch
      | DT_FILMIC_COLORSCIENCE_V2 =>
          filmic_split_v2 input out data (Data.spline data) (roi_out_width piece) (roi_in_height piece) ch
      end
  | variant =>
      match Data.version data with
      | DT_FILMIC_COLORSCIENCE_V1 =>
          filmic_chroma_v1 input out data (Data.spline data) variant (roi_out_width piece) (roi_out_height piece) ch
      | DT_FILMIC_COLORSCIENCE_V2 =>
          filmic_chroma_v2 input out data (Data.spline data) variant (roi_out_width piece) (roi_out_height piece) ch
      end
  end.

(** The second reconstruction pass of [process], on the ratios:
    [(success_2, reconstructed, norms, ratios, env)] after [n] rounds. *)
Definition reconstruct_ratios_passes (n : nat) (mask : list R) (data : Data.dt_iop_filmicrgb_data_t)
  (piece : dt_pipe_t) (ch : nat) (success_2 : bool) (reconstructed norms ratios : list R) (e : env)
  : bool * list R * list R * list R * env :=
  for_loop (A := bool * list R * list R * list R * env) n (fun _ '(success_2, reconstructed, norms, ratios, e) =>
    let width := roi_out_width piece in
    let height := roi_out_height piece in
    let '(norms, ratios) := compute_ratios reconstructed norms ratios DT_FILMIC_METHOD_EUCLIDEAN_NORM width height ch in
    let '(success_2, reconstructed, e) :=
      if success_2
      then reconstruct_highlights ratios mask reconstructed DT_FILMIC_RECONSTRUCT_RATIOS ch data piece e
      else (false, reconstructed, e) in
    let reconstructed := restore_ratios reconstructed norms width height ch in
    (success_2, reconstructed, norms, ratios, e))
    (success_2, reconstructed, norms, ratios, e).

(** [process(self, piece, ivoid, ovoid, roi_in, roi_out)]: the output buffer
    and the environment.  A [NULL] mask or inpainting buffer is seen by the
    loops that write it as a buffer of no element. *)
Definition process (data : Data.dt_iop_filmicrgb_data_t) (piece : dt_pipe_t)
  (ivoid ovoid : list R) (e : env) : list R * env :=
  if negb (Nat.eqb (colors piece) 4) then (ovoid, dt_control_log Msg.rgb_only e) else
  let ch := 4%nat in
  let width := roi_out_width piece in
  let height := roi_out_height piece in
  let input := ivoid in
  let out := ovoid in
  let '(mask, e) := dt_alloc_sse_ps (width * height) e in
  let scale := fmaxf (iscale piece / roi_in_scale piece) 1 in
  let normalize := Data.reconstruct_feather data / Data.reconstruct_threshold data in
  let '(recover_highlights, mask_buf) :=
    mask_clipped_pixels input (buf mask) normalize (Data.reconstruct_feather data) width height 4 in
  let mask := option_map (fun _ => mask_buf) mask in
  if (show_mask piece && match mask with Some _ => true | None => false end)%bool
  then (display_mask mask_buf out width height ch, dt_free_align mask e)
  else
  let '(reconstructed, e) := dt_alloc_sse_ps (width * height * ch) e in
  let '(input, reconstructed, e) :=
    match run_fast piece, recover_highlights, mask, reconstructed with
    | false, true, Some mask_b, Some reconstructed_b =>
        let '(inpainted, e) := dt_alloc_sse_ps (width * height * ch) e in
        let inpainted_b := inpaint_noise input mask_b (buf inpainted) (Data.noise_level data / scale)
                             (Data.reconstruct_threshold data) (Data.noise_distribution data)
                             (width * height * ch) ch in
        let '(success_1, reconstructed_b, e) :=
          reconstruct_highlights inpainted_b mask_b reconstructed_b DT_FILMIC_RECONSTRUCT_RGB ch data piece e in
        let e := dt_free_align inpainted e in
        let '(success_2, reconstructed_b, e) :=
          if (Nat.ltb 0 (Data.high_quality_reconstruction data) && success_1)%bool
          then
            let '(norms, e) := dt_alloc_sse_ps (width * height) e in
            let '(ratios, e) := dt_alloc_sse_ps (width * height * ch) e in
            let '(success_2, reconstructed_b, e) :=
              match norms, ratios with
              | Some norms_b, Some ratios_b =>
                  let '(success_2, reconstructed_b, _, _, e) :=
                    reconstruct_ratios_passes (Data.high_quality_reconstruction data) mask_b data piece ch
                                              true reconstructed_b norms_b ratios_b e in
                  (success_2, reconstructed_b, e)
              | _, _ => (true, reconstructed_b, e)
              end in
            (success_2, reconstructed_b, dt_free_align ratios (dt_free_align norms e))
          else (true, reconstructed_b, e) in
        ((if (success_1 && success_2)%bool then reconstructed_b else input), Some reconstructed_b, e)
    | _, _, _, _ => (input, reconstructed, e)
    end in
  let e := dt_free_align mask e in
  let out := filmic_tonemap input out data piece ch in
  let e := dt_free_align reconstructed e in
  let out := if mask_display piece then dt_iop_alpha_copy ivoid out width height else out in
  (out, e).

End Pipeline.

(** The values written by a split tone mapper are [powf(clamp_simd(spline(x)), output_power)]. *)
Definition split_value (data : Data.dt_iop_filmicrgb_data_t) (spline : dt_iop_filmic_rgb_spline_t) (v : R) : Prop :=
  exists x, v = powf (clamp_simd (filmic_spline x (M1 spline) (M2 spline) (M3 spline) (M4 spline) (M5 spline)
                                    (latitude_min spline) (latitude_max spline))) (Data.output_power data).

(** The output of [process] when the tone mapper reads the buffer [input]. *)
Definition process_output (rgb_luminance : R -> R -> R -> R) (dt_iop_alpha_copy : list R -> list R -> nat -> nat -> list R)
  (data : Data.dt_iop_filmicrgb_data_t) (piece : dt_pipe_t) (ivoid input ovoid : list R) : list R :=
  let out := filmic_tonemap rgb_luminance input ovoid data piece 4 in
  if mask_display piece then dt_iop_alpha_copy ivoid out (roi_out_width piece) (roi_out_height piece) else out.

(** ** Non-RGB input *)

Definition pipe_3_colors : dt_pipe_t := mk_pipe 3 1 1 1 1 1 1 1 false false false.

Definition pipe_rgb : dt_pipe_t := mk_pipe 4 1 1 1 1 1 1 1 false false false.

(** ** Parameters of older versions ([legacy_params]) *)

(** [dt_iop_filmicrgb_params_v1_t]; its [int preserve_color] holds a value
    of the enumeration. *)
Module V1.
Record dt_iop_filmicrgb_params_v1_t := mk_params_v1 {
  grey_point_source : R;
  black_point_source : R;
  white_point_source : R;
  security_factor : R;
  grey_point_target : R;
  black_point_target : R;
  white_point_target : R;
  output_power : R;
  latitude : R;
  contrast : R;
  saturation : R;
  balance : R;
  preserve_color : dt_iop_filmicrgb_methods_type_t
}.
End V1.

(** [dt_iop_filmicrgb_params_v2_t]; its [int] fields [preserve_color] and
    [version] hold values of the enumerations. *)
Module V2.
Record dt_iop_filmicrgb_params_v2_t := mk_params_v2 {
  grey_point_source : R;
  black_point_source : R;
  white_point_source : R;
  reconstruct_threshold : R;
  reconstruct_feather : R;
  reconstruct_bloom_vs_details : R;
  reconstruct_grey_vs_color : R;
  reconstruct_structure_vs_texture : R;
  security_factor : R;
  grey_point_target : R;
  black_point_target : R;
  white_point_target : R;
  output_power : R;
  latitude : R;
  contrast : R;
  saturation : R;
  balance : R;
  preserve_color : dt_iop_filmicrgb_methods_type_t;
  version : dt_iop_filmicrgb_colorscience_type_t;
  auto_hardness : bool;
  custom_grey : bool;
  high_quality_reconstruction : nat;
  shadows : dt_iop_filmicrgb_curve_type_t;
  highlights : dt_iop_filmicrgb_curve_type_t
}.
End V2.

(** [legacy_params(self, old_params, old_version, new_params, new_version)]:
    the returned [int] and [*new_params].  [d] is [self->default_params];
    [o1] and [o2] are the bytes of [old_params] read through the v1 and the
    v2 layout; [n] is [*new_params] before the call.  Every field of [*n] is
    written by both conversions, so [*n = *d] only shows through the fields
    taken from [d]. *)
Definition legacy_params (d : dt_iop_filmicrgb_params_t) (o1 : V1.dt_iop_filmicrgb_params_v1_t)
  (o2 : V2.dt_iop_filmicrgb_params_v2_t) (old_version new_version : Z) (n : dt_iop_filmicrgb_params_t)
  : Z * dt_iop_filmicrgb_params_t :=
  if ((old_version =? 1)%Z && (new_version =? 3)%Z)%bool then
    (0%Z,
     {| grey_point_source := V1.grey_point_source o1;
        black_point_source := V1.black_point_source o1;
        white_point_source := V1.white_point_source o1;
        reconstruct_threshold := 6;
        reconstruct_feather := 3;
        reconstruct_bloom_vs_details := reconstruct_bloom_vs_details d;
        reconstruct_grey_vs_color := reconstruct_grey_vs_color d;
        reconstruct_structure_vs_texture := reconstruct_structure_vs_texture d;
        security_factor := V1.security_factor o1;
        grey_point_target := V1.grey_point_target o1;
        black_point_target := V1.black_point_target o1;
        white_point_target := V1.white_point_target o1;
        output_power := V1.output_power o1;
        latitude := V1.latitude o1;
        contrast := V1.contrast o1;
        saturation := V1.saturation o1;
        balance := V1.balance o1;
        noise_level := 0;
        preserve_color := V1.preserve_color o1;
        version := DT_FILMIC_COLORSCIENCE_V1;
        auto_hardness := true;
        custom_grey := true;
        high_quality_reconstruction := 0;
        noise_distribution := noise_distribution d;
        shadows := DT_FILMIC_CURVE_POLY_4;
        highlights := DT_FILMIC_CURVE_POLY_3 |})
  else if ((old_version =? 2)%Z && (new_version =? 3)%Z)%bool then
    (0%Z,
     {| grey_point_source := V2.grey_point_source o2;
        black_point_source := V2.black_point_source o2;
        white_point_source := V2.white_point_source o2;
        reconstruct_threshold := V2.reconstruct_threshold o2;
        reconstruct_feather := V2.reconstruct_feather o2;
        reconstruct_bloom_vs_details := V2.reconstruct_bloom_vs_details o2;
        reconstruct_grey_vs_color := V2.reconstruct_grey_vs_color o2;
        reconstruct_structure_vs_texture := V2.reconstruct_structure_vs_texture o2;
        security_factor := V2.security_factor o2;
        grey_point_target := V2.grey_point_target o2;
        black_point_target := V2.black_point_target o2;
        white_point_target := V2.white_point_target o2;
        output_power := V2.output_power o2;
        latitude := V2.latitude o2;
        contrast := V2.contrast o2;
        saturation := V2.saturation o2;
        balance := V2.balance o2;
        noise_level := 0;
        preserve_color := V2.preserve_color o2;
        version := V2.version o2;
        auto_hardness := V2.auto_hardness o2;
        custom_grey := V2.custom_grey o2;
        high_quality_reconstruction := V2.high_quality_reconstruction o2;
        noise_distribution := noise_distribution d;
        shadows := V2.shadows o2;
        highlights := V2.highlights o2 |})
  else (1%Z, n).

(** The v1 and v2 fields of a current parameter record. *)
Definition params_v1_fields (p : dt_iop_filmicrgb_params_t) : V1.dt_iop_filmicrgb_params_v1_t :=
  V1.mk_params_v1 (grey_point_source p) (black_point_source p) (white_point_source p) (security_factor p)
    (grey_point_target p) (black_point_target p) (white_point_target p) (output_power p) (latitude p)
    (contrast p) (saturation p) (balance p) (preserve_color p).

Definition params_v2_fields (p : dt_iop_filmicrgb_params_t) : V2.dt_iop_filmicrgb_params_v2_t :=
  V2.mk_params_v2 (grey_point_source p) (black_point_source p) (white_point_source p)
    (reconstruct_threshold p) (reconstruct_feather p) (reconstruct_bloom_vs_details p)
    (reconstruct_grey_vs_color p) (reconstruct_structure_vs_texture p) (security_factor p)
    (grey_point_target p) (black_point_target p) (white_point_target p) (output_power p) (latitude p)
    (contrast p) (saturation p) (balance p) (preserve_color p) (version p) (auto_hardness p)
    (custom_grey p) (high_quality_reconstruction p) (shadows p) (highlights p).

(** ** The color pickers and the default parameters *)


Definition set_black_point_source (p : dt_iop_filmicrgb_params_t) (v : R) : dt_iop_filmicrgb_params_t :=
  mk_params (grey_point_source p) v (white_point_source p) (reconstruct_threshold p) (reconstruct_feather p)
    (reconstruct_bloom_vs_details p) (reconstruct_grey_vs_color p) (reconstruct_structure_vs_texture p)
    (security_factor p) (grey_point_target p) (black_point_target p) (white_point_target p) (output_power p)
    (latitude p) (contrast p) (saturation p) (balance p) (noise_level p) (preserve_color p) (version p)
    (auto_hardness p) (custom_grey p) (high_quality_reconstruction p) (noise_distribution p) (shadows p)
    (highlights p).

Definition set_white_point_source (p : dt_iop_filmicrgb_params_t) (v : R) : dt_iop_filmicrgb_params_t :=
  mk_params (grey_point_source p) (black_point_source p) v (reconstruct_threshold p) (reconstruct_feather p)
    (reconstruct_bloom_vs_details p) (reconstruct_grey_vs_color p) (reconstruct_structure_vs_texture p)
    (security_factor p) (grey_point_target p) (black_point_target p) (white_point_target p) (output_power p)
    (latitude p) (contrast p) (saturation p) (balance p) (noise_level p) (preserve_color p) (version p)
    (auto_hardness p) (custom_grey p) (high_quality_reconstruction p) (noise_distribution p) (shadows p)
    (highlights p).

Definition set_output_power (p : dt_iop_filmicrgb_params_t) (v : R) : dt_iop_filmicrgb_params_t :=
  mk_params (grey_point_source p) (black_point_source p) (white_point_source p) (reconstruct_threshold p)
    (reconstruct_feather p) (reconstruct_bloom_vs_details p) (reconstruct_grey_vs_color p)
    (reconstruct_structure_vs_texture p) (security_factor p) (grey_point_target p) (black_point_target p)
    (white_point_target p) v (latitude p) (contrast p) (saturation p) (balance p) (noise_level p)
    (preserve_color p) (version p) (auto_hardness p) (custom_grey p) (high_quality_reconstruction p)
    (noise_distribution p) (shadows p) (highlights p).

Definition logf (a : R) : R := ln a.

Section Pickers.

(** The luminance of the picker's work profile, as in [Pipeline]. *)
Variable rgb_luminance : R -> R -> R -> R.

(** [get_pixel_norm] on a picked color (its first three channels). *)
Definition picked_norm (pixel : R * R * R) (variant : dt_iop_filmicrgb_methods_type_t) : R :=
  let '(r, g, b) := pixel in get_pixel_norm rgb_luminance r g b variant.


Definition apply_auto_black (reset : bool) (picked_color_min : R * R * R) (p : dt_iop_filmicrgb_params_t)
  : dt_iop_filmicrgb_params_t :=
  if reset then p else
  let black := picked_norm picked_color_min DT_FILMIC_METHOD_MAX_RGB in
  let EVmin := CLAMP (log2f (black / (grey_point_source p / 100))) (-16) (-1) in
  let EVmin := EVmin * (1 + security_factor p / 100) in
  let p := set_black_point_source p (fmaxf EVmin (-16)) in
  set_output_power p (logf (grey_point_target p / 100)
                      / logf (- black_point_source p / (white_point_source p - black_point_source p))).



End Pickers.

(** [reload_defaults(module)]: the contents of [module->default_params] and of
    [module->params] after the call.
    The introspection defaults of [black_point_source], [white_point_source]
    and [output_power] are their [$DEFAULT] values [-8], [4] and [4];
    [has_image] is [module->dev && module->dev->image_storage.id != -1],
    [scene_referred] the conjunction of the matrix-correction support of the
    image and of the scene-referred workflow setting, [exposure_bias] the
    value of [dt_image_get_exposure_bias]. *)
Definition reload_defaults (d : dt_iop_filmicrgb_params_t) (has_image scene_referred : bool) (exposure_bias : R)
  : dt_iop_filmicrgb_params_t * dt_iop_filmicrgb_params_t :=
  let d := set_black_point_source d (-8) in
  let d := set_white_point_source d 4 in
  let d := set_output_power d 4 in
  let d :=
    if (has_image && scene_referred)%bool then
      let exposure := 0.5 - exposure_bias in
      let d := set_black_point_source d (black_point_source d + 0.5 * exposure) in
      let d := set_white_point_source d (white_point_source d + 0.8 * exposure) in
      set_output_power d (logf (grey_point_target d / 100)
                          / logf (- black_point_source d / (white_point_source d - black_point_source d)))
    else d in
  (d, d).

(** ** Lemmas on the helpers *)

Lemma ln2_pos : 0 < ln 2.
Proof. rewrite <- ln_1. apply ln_increasing; lra. Qed.

Lemma log2f_le (x y : R) : 0 < x -> x <= y -> log2f x <= log2f y.
Proof.
  intros Hx Hxy. unfold log2f. apply Rmult_le_compat_r.
  - left. apply Rinv_0_lt_compat, ln2_pos.
  - destruct Hxy as [Hlt|Heq]; [left; apply ln_increasing; lra | subst; lra].
Qed.

Lemma fmaxf_le_mono (a b c : R) : a <= b -> fmaxf a c <= fmaxf b c.
Proof. unfold fmaxf, Rmax. repeat destruct Rle_dec; lra. Qed.

Lemma fminf_le_mono (a b c : R) : a <= b -> fminf a c <= fminf b c.
Proof. unfold fminf, Rmin. repeat destruct Rle_dec; lra. Qed.

Lemma clamp_simd_range (x : R) : 0 <= clamp_simd x <= 1.
Proof. unfold clamp_simd, fminf, fmaxf, Rmin, Rmax. repeat destruct Rle_dec; lra. Qed.

Lemma clamp_simd_mono (x y : R) : x <= y -> clamp_simd x <= clamp_simd y.
Proof. intros H. unfold clamp_simd. apply fminf_le_mono, fmaxf_le_mono, H. Qed.

Lemma log_arg_mono (x y grey black dynamic_range : R) :
  0 < x -> x <= y -> 0 < grey -> 0 < dynamic_range ->
  (log2f (x / grey) - black) / dynamic_range
  <= (log2f (y / grey) - black) / dynamic_range.
Proof.
  intros Hx Hxy Hg Hd. unfold Rdiv at 1 3.
  apply Rmult_le_compat_r; [left; apply Rinv_0_lt_compat; exact Hd|].
  apply Rplus_le_compat_r, log2f_le.
  - apply Rdiv_lt_0_compat; assumption.
  - unfold Rdiv. apply Rmult_le_compat_r; [left; apply Rinv_0_lt_compat|]; assumption.
Qed.

(** ** Claims *)

(** C1: for [x > 0], [grey > 0] and [dynamic_range > 0] both log tone mappers
    are non-decreasing in [x]; [log_tonemapping_v1] lands in [[NORM_MIN, 1]]
    and [log_tonemapping_v2] in [[0, 1]]. *)
Theorem log_tonemapping_mono_range (x y grey black dynamic_range : R) :
  0 < x -> x <= y -> 0 < grey -> 0 < dynamic_range ->
  log_tonemapping_v1 x grey black dynamic_range <= log_tonemapping_v1 y grey black dynamic_range /\
  log_tonemapping_v2 x grey black dynamic_range <= log_tonemapping_v2 y grey black dynamic_range /\
  1.52587890625e-05 <= log_tonemapping_v1 x grey black dynamic_range <= 1 /\
  0 <= log_tonemapping_v2 x grey black dynamic_range <= 1.
Proof.
  intros Hx Hxy Hg Hd.
  pose proof (log_arg_mono x y grey black dynamic_range Hx Hxy Hg Hd) as Hm.
  unfold log_tonemapping_v1, log_tonemapping_v2.
  split; [apply fmaxf_le_mono, fminf_le_mono, Hm|].
  split; [apply clamp_simd_mono, Hm|].
  split; [|apply clamp_simd_range].
  unfold fmaxf, fminf, Rmax, Rmin. repeat destruct Rle_dec; lra.
Qed.

Lemma log_tonemapping_mono_range_witness :
  (0 < 1 /\ 1 <= 2 /\ 0 < 0.1845 /\ 0 < 12) /\
  (log_tonemapping_v1 1 0.1845 (-8) 12 <= log_tonemapping_v1 2 0.1845 (-8) 12 /\
   log_tonemapping_v2 1 0.1845 (-8) 12 <= log_tonemapping_v2 2 0.1845 (-8) 12 /\
   1.52587890625e-05 <= log_tonemapping_v1 1 0.1845 (-8) 12 <= 1 /\
   0 <= log_tonemapping_v2 1 0.1845 (-8) 12 <= 1).
Proof.
  split; [lra|].
  apply (log_tonemapping_mono_range 1 2 0.1845 (-8) 12); lra.
Defined.

(** ** Lemmas on the solver and the spline segments *)

Lemma gauss_solve_solves (A b : list R) (n : nat) :
  (exists x, solves n A b x) -> solves n A b (gauss_solve A b n).
Proof.
  intros H. unfold gauss_solve.
  destruct (excluded_middle_informative _) as [H'|H'].
  - exact (proj2_sig (constructive_indefinite_description _ H')).
  - contradiction.
Qed.

Lemma gauss_solve_unsolvable (A b : list R) (n : nat) :
  ~ (exists x, solves n A b x) -> gauss_solve A b n = b.
Proof.
  intros H. unfold gauss_solve.
  destruct (excluded_middle_informative _) as [H'|H']; [contradiction|reflexivity].
Qed.

Lemma spline_toe_ok (sh : dt_iop_filmicrgb_curve_type_t) (Tl y0 y1 k : R) :
  Tl <> 0 ->
  poly_value (spline_toe sh Tl y0 y1 k) Tl = y1 /\ poly_deriv (spline_toe sh Tl y0 y1 k) Tl = k.
Proof.
  intros HT. destruct sh; simpl.
  - match goal with |- context [gauss_solve ?A ?b 5%nat] =>
      assert (Hs : solves 5 A b (gauss_solve A b 5)) end.
    { apply gauss_solve_solves.
      set (f := (3 * (y1 - y0) - 2 * k * Tl) / (Tl * Tl * Tl * Tl)).
      set (e := (4 * f * (Tl * Tl * Tl) - k) / (3 * (Tl * Tl))).
      exists [f; e - 4 * f * Tl; - 3 * e * Tl + 6 * f * (Tl * Tl);
              k + 3 * e * (Tl * Tl) - 4 * f * (Tl * Tl * Tl);
              y1 - k * Tl - e * (Tl * Tl * Tl) + f * (Tl * Tl * Tl * Tl)].
      split; [reflexivity|]. intros i Hi.
      do 5 (destruct i as [|i]; [unfold row_dot, get, e, f; simpl; field; auto|]).
      exfalso; lia. }
    set (s := gauss_solve _ _ 5) in *. clearbody s.
    destruct Hs as [_ Hr].
    pose proof (Hr 2%nat ltac:(lia)) as H2. pose proof (Hr 3%nat ltac:(lia)) as H3.
    unfold row_dot, get in H2, H3 |- *. simpl in H2, H3 |- *.
    split; [rewrite <- H2 | rewrite <- H3]; ring.
  - match goal with |- context [gauss_solve ?A ?b 4%nat] =>
      assert (Hs : solves 4 A b (gauss_solve A b 4)) end.
    { apply gauss_solve_solves.
      set (e := (y1 - k * Tl - y0) / (Tl * Tl * Tl)).
      exists [e; - 3 * e * Tl; k + 3 * e * (Tl * Tl); y0].
      split; [reflexivity|]. intros i Hi.
      do 4 (destruct i as [|i]; [unfold row_dot, get, e; simpl; field; auto|]).
      exfalso; lia. }
    set (s := gauss_solve _ _ 4) in *. clearbody s.
    destruct Hs as [_ Hr].
    pose proof (Hr 1%nat ltac:(lia)) as H1. pose proof (Hr 2%nat ltac:(lia)) as H2.
    unfold row_dot, get in H1, H2 |- *. simpl in H1, H2 |- *.
    split; [rewrite <- H1 | rewrite <- H2]; ring.
Qed.

Lemma spline_shoulder_ok (hl : dt_iop_filmicrgb_curve_type_t) (Sl y4 y3 k : R) :
  Sl <> 1 ->
  poly_value (spline_shoulder hl Sl y4 y3 k) Sl = y3 /\ poly_deriv (spline_shoulder hl Sl y4 y3 k) Sl = k.
Proof.
  intros HS. assert (HD : 1 - Sl <> 0) by (intros H; apply HS; lra).
  destruct hl; simpl.
  - match goal with |- context [gauss_solve ?A ?b 5%nat] =>
      assert (Hs : solves 5 A b (gauss_solve A b 5)) end.
    { apply gauss_solve_solves.
      set (D := 1 - Sl).
      set (f := (3 * (y3 - y4) + 2 * k * D) / (D * D * D * D)).
      set (e := - (k + 4 * f * (D * D * D)) / (3 * (D * D))).
      exists [f; e - 4 * f * Sl; - 3 * e * Sl + 6 * f * (Sl * Sl);
              k + 3 * e * (Sl * Sl) - 4 * f * (Sl * Sl * Sl);
              y3 - k * Sl - e * (Sl * Sl * Sl) + f * (Sl * Sl * Sl * Sl)].
      split; [reflexivity|]. intros i Hi.
      do 5 (destruct i as [|i]; [unfold row_dot, get, e, f, D; simpl; field; auto|]).
      exfalso; lia. }
    set (s := gauss_solve _ _ 5) in *. clearbody s.
    destruct Hs as [_ Hr].
    pose proof (Hr 2%nat ltac:(lia)) as H2. pose proof (Hr 3%nat ltac:(lia)) as H3.
    unfold row_dot, get in H2, H3 |- *. simpl in H2, H3 |- *.
    split; [rewrite <- H2 | rewrite <- H3]; ring.
  - match goal with |- context [gauss_solve ?A ?b 4%nat] =>
      assert (Hs : solves 4 A b (gauss_solve A b 4)) end.
    { apply gauss_solve_solves.
      set (D := 1 - Sl).
      set (e := (y4 - y3 - k * D) / (D * D * D)).
      exists [e; - 3 * e * Sl; k + 3 * e * (Sl * Sl); y3 - k * Sl - e * (Sl * Sl * Sl)].
      split; [reflexivity|]. intros i Hi.
      do 4 (destruct i as [|i]; [unfold row_dot, get, e, D; simpl; field; auto|]).
      exfalso; lia. }
    set (s := gauss_solve _ _ 4) in *. clearbody s.
    destruct Hs as [_ Hr].
    pose proof (Hr 1%nat ltac:(lia)) as H1. pose proof (Hr 2%nat ltac:(lia)) as H2.
    unfold row_dot, get in H1, H2 |- *. simpl in H1, H2 |- *.
    split; [rewrite <- H1 | rewrite <- H2]; ring.
Qed.

(** Away from the overlapping nodes ([latitude_min <> 0] and
    [latitude_max <> 1]), the spline has equal value and slope on both
    sides of [latitude_min] and [latitude_max], in the four combinations of
    toe and shoulder orders. *)
Theorem compute_spline_continuous (p : dt_iop_filmicrgb_params_t) :
  latitude_min (dt_iop_filmic_rgb_compute_spline p) <> 0 ->
  latitude_max (dt_iop_filmic_rgb_compute_spline p) <> 1 ->
  spline_continuous (dt_iop_filmic_rgb_compute_spline p).
Proof.
  unfold dt_iop_filmic_rgb_compute_spline. cbv zeta.
  match goal with |- context [spline_toe ?a ?b ?c ?d ?e] =>
    pose proof (spline_toe_ok a b c d e) as HT;
    destruct (spline_toe a b c d e) as [[[[m5 m4] m3] m2] m1] end.
  match goal with |- context [spline_shoulder ?a ?b ?c ?d ?e] =>
    pose proof (spline_shoulder_ok a b c d e) as HS;
    destruct (spline_shoulder a b c d e) as [[[[n5 n4] n3] n2] n1] end.
  unfold spline_continuous, spline_segment, spline_segment_deriv, poly_value, poly_deriv, get in *.
  simpl in *. intros H1 H2.
  destruct (HT H1) as [HT1 HT2]. destruct (HS H2) as [HS1 HS2].
  repeat split; [rewrite HT1 | rewrite HT2 | rewrite HS1 | rewrite HS2]; ring.
Qed.

Lemma CLAMP_id (a lo hi : R) : lo < a < hi -> CLAMP a lo hi = a.
Proof. intros H. unfold CLAMP. repeat destruct Rlt_dec; lra. Qed.
Lemma CLAMP_hi (a lo hi : R) : lo < a -> hi <= a -> CLAMP a lo hi = hi.
Proof. intros H1 H2. unfold CLAMP. repeat destruct Rlt_dec; lra. Qed.
Lemma CLAMP_lo (a lo hi : R) : a <= lo -> lo <= hi -> CLAMP a lo hi = lo.
Proof. intros H1 H2. unfold CLAMP. repeat destruct Rlt_dec; lra. Qed.

Lemma compute_spline_continuous_witness :
  (latitude_min (dt_iop_filmic_rgb_compute_spline default_params) <> 0 /\
   latitude_max (dt_iop_filmic_rgb_compute_spline default_params) <> 1) /\
  spline_continuous (dt_iop_filmic_rgb_compute_spline default_params).
Proof.
  assert (H : latitude_min (dt_iop_filmic_rgb_compute_spline default_params) <> 0 /\
              latitude_max (dt_iop_filmic_rgb_compute_spline default_params) <> 1).
  { unfold dt_iop_filmic_rgb_compute_spline. cbv zeta.
    destruct (spline_toe _ _ _ _ _) as [[[[m5 m4] m3] m2] m1].
    destruct (spline_shoulder _ _ _ _ _) as [[[[n5 n4] n3] n2] n1].
    simpl. unfold get; simpl.
    rewrite (CLAMP_id 33 0 100), (CLAMP_id 0 (-50) 50) by lra.
    unfold fabsf. rewrite (Rabs_left (-8)), (Rabs_left (-8 / (4 - -8))), (Rabs_pos_eq (4 / (4 - -8))) by lra.
    split; lra. }
  split; [exact H|]. apply compute_spline_continuous; apply H.
Defined.

(** With the toe node at [x = 0] ([Tl = 0]), the fourth-order toe system
    asks for the slope [0] ("first derivative in 0") and the slope [k]
    ("first derivative at toe node") at the same point: for [k <> 0] no
    polynomial satisfies it, whatever solver is used. *)
Lemma toe_system_unsolvable_at_zero (y0 y1 k : R) :
  k <> 0 ->
  ~ exists x, solves 5 [0; 0; 0; 0; 1;
                        0; 0; 0; 1; 0;
                        0 * 0 * 0 * 0; 0 * 0 * 0; 0 * 0; 0; 1;
                        4 * (0 * 0 * 0); 3 * (0 * 0); 2 * 0; 1; 0;
                        12 * (0 * 0); 6 * 0; 2; 0; 0] [y0; 0; y1; k; 0] x.
Proof.
  intros Hk [x [_ Hr]].
  pose proof (Hr 1%nat ltac:(lia)) as H1. pose proof (Hr 3%nat ltac:(lia)) as H3.
  unfold row_dot, get in H1, H3. simpl in H1, H3. lra.
Qed.

Lemma spline_toe_at_zero (y0 y1 k : R) :
  k <> 0 -> spline_toe DT_FILMIC_CURVE_POLY_4 0 y0 y1 k = (y0, 0, y1, k, 0).
Proof.
  intros Hk. unfold spline_toe. rewrite gauss_solve_unsolvable; [reflexivity|].
  exact (toe_system_unsolvable_at_zero y0 y1 k Hk).
Qed.

Lemma grey_display_default_bounds : 0.6 < powf 0.1845 (1 / 4) < 0.7.
Proof.
  unfold powf. destruct (Req_EM_T 0.1845 0) as [H|_]; [lra|].
  rewrite (Rabs_pos_eq 0.1845) by lra.
  assert (Hp : 0 < Rpower 0.1845 (1 / 4)) by apply exp_pos.
  assert (H4 : Rpower 0.1845 (1 / 4) ^ 4 = 0.1845).
  { rewrite <- Rpower_pow by exact Hp. rewrite Rpower_mult.
    replace (1 / 4 * INR 4) with 1 by (simpl; field). apply Rpower_1; lra. }
  set (g := Rpower 0.1845 (1 / 4)) in *. clearbody g. simpl in H4.
  split.
  - destruct (Rlt_dec 0.6 g) as [Hl|Hl]; [exact Hl|]. exfalso.
    assert (g * g <= 0.36) by nra.
    assert ((g * g) * (g * g) <= 0.1296) by nra. nra.
  - destruct (Rlt_dec g 0.7) as [Hl|Hl]; [exact Hl|]. exfalso.
    assert (0.49 <= g * g) by nra.
    assert (0.2401 <= (g * g) * (g * g)) by nra. nra.
Qed.

(** C2 counterexample: at latitude 100 % with no balance, the nodes still
    satisfy [toe_log < grey_log < shoulder_log], but the toe node falls on
    [x = 0] ([latitude_min = 0]), the overlap the comment of
    [dt_iop_filmic_rgb_compute_spline] says must be removed.  The toe system
    then has no solution ([toe_system_unsolvable_at_zero]), [gauss_solve]
    leaves its right-hand side as it was, and the toe and the linear segment
    differ by more than [1e-4] at [latitude_min]. *)
Lemma compute_spline_discontinuous_at_full_latitude :
  get (sp_x (dt_iop_filmic_rgb_compute_spline full_latitude_params)) 1 <
  get (sp_x (dt_iop_filmic_rgb_compute_spline full_latitude_params)) 2 <
  get (sp_x (dt_iop_filmic_rgb_compute_spline full_latitude_params)) 3 /\
  1e-4 < Rabs (spline_segment (dt_iop_filmic_rgb_compute_spline full_latitude_params) 0
                 (latitude_min (dt_iop_filmic_rgb_compute_spline full_latitude_params)) -
               spline_segment (dt_iop_filmic_rgb_compute_spline full_latitude_params) 2
                 (latitude_min (dt_iop_filmic_rgb_compute_spline full_latitude_params))).
Proof.
  unfold dt_iop_filmic_rgb_compute_spline. cbv zeta.
  change (shadows full_latitude_params) with DT_FILMIC_CURVE_POLY_4.
  match goal with |- context [spline_toe _ ?T _ _ ?k] =>
    assert (HT0 : T = 0);
    [| assert (Hk : k <> 0); [| rewrite HT0, (spline_toe_at_zero _ _ _ Hk)]] end.
  { unfold get; simpl. rewrite (CLAMP_hi 100 0 100), (CLAMP_id 0 (-50) 50) by lra.
    unfold fabsf. rewrite (Rabs_left (-8)), (Rabs_left (-8 / (4 - -8))) by lra. lra. }
  { simpl. rewrite (CLAMP_id 1.5 0.1 2) by lra. lra. }
  destruct (spline_shoulder _ _ _ _ _) as [[[[n5 n4] n3] n2] n1].
  unfold spline_segment, get. simpl.
  rewrite (CLAMP_hi 100 0 100), (CLAMP_id 0 (-50) 50), (CLAMP_id 1.5 0.1 2),
    (CLAMP_lo 0 0 18.45) by lra.
  unfold fabsf. rewrite (Rabs_left (-8)), (Rabs_left (-8 / (4 - -8))), (Rabs_pos_eq (4 / (4 - -8))) by lra.
  pose proof grey_display_default_bounds as Hg.
  set (g := powf 0.1845 (1 / 4)) in *.
  assert (Hq : 0 < sqrtf (1.5 * 1.5 + 1)) by (apply sqrt_lt_R0; lra).
  set (q := sqrtf (1.5 * 1.5 + 1)) in *. clearbody g q.
  split; [split; field_simplify; lra|].
  replace 1.5 with (3 / 2) by lra.
  match goal with |- 1e-4 < Rabs ?e => replace e with (1 - g) by (field; lra) end.
  rewrite Rabs_pos_eq; lra.
Qed.

Lemma compute_spline_slope (p : dt_iop_filmicrgb_params_t) :
  get (M2 (dt_iop_filmic_rgb_compute_spline p)) 2 = CLAMP (contrast p) 0.1 2.
Proof.
  unfold dt_iop_filmic_rgb_compute_spline. cbv zeta.
  destruct (spline_toe _ _ _ _ _) as [[[[m5 m4] m3] m2] m1].
  destruct (spline_shoulder _ _ _ _ _) as [[[[n5 n4] n3] n2] n1].
  reflexivity.
Qed.

Lemma powf_nonneg (x y : R) : 0 <= powf x y.
Proof. unfold powf. destruct Req_EM_T; [destruct Rlt_dec; lra|left; apply exp_pos]. Qed.

(** Whenever [black_point_source < 0 < dynamic_range], the
    contrast committed by [commit_params] satisfies
    [grey_display - contrast * grey_log <= 0]; the spline's linear segment
    however has the slope [CLAMP(p->contrast, 0.1, 2)] of
    [dt_iop_filmic_rgb_compute_spline], not the committed contrast. *)
Theorem commit_params_contrast_intercept (p : dt_iop_filmicrgb_params_t) (d : Data.dt_iop_filmicrgb_data_t) :
  black_point_source p < 0 -> 0 < white_point_source p - black_point_source p ->
  snd (commit_greys p)
    - Data.contrast (commit_params p d) * (fabsf (black_point_source p) / (white_point_source p - black_point_source p)) <= 0 /\
  get (M2 (Data.spline (commit_params p d))) 2 = CLAMP (contrast p) 0.1 2.
Proof.
  intros Hb Hd. split.
  - unfold commit_params. destruct (commit_greys p) as [gs gd] eqn:Eg. simpl.
    unfold commit_contrast. rewrite Eg. simpl.
    assert (Hgl : 0 < fabsf (black_point_source p) / (white_point_source p - black_point_source p)).
    { unfold fabsf. apply Rdiv_lt_0_compat; [apply Rabs_pos_lt; lra|exact Hd]. }
    assert (Hgd : 0 <= gd).
    { unfold commit_greys in Eg. destruct (custom_grey p); injection Eg as _ <-; apply powf_nonneg. }
    set (gl := fabsf (black_point_source p) / (white_point_source p - black_point_source p)) in *.
    clearbody gl.
    destruct (Rlt_dec (contrast p) (gd / gl)) as [Hlt|Hge].
    + replace (1.0001 * gd / gl * gl) with (1.0001 * gd) by (field; lra). lra.
    + apply Rnot_lt_le in Hge.
      assert (H : gd / gl * gl <= contrast p * gl) by (apply Rmult_le_compat_r; lra).
      replace (gd / gl * gl) with gd in H by (field; lra). lra.
  - unfold commit_params. destruct (commit_greys p). apply compute_spline_slope.
Qed.

Lemma commit_params_contrast_intercept_witness :
  (black_point_source default_params < 0 /\ 0 < white_point_source default_params - black_point_source default_params) /\
  (snd (commit_greys default_params)
    - Data.contrast (commit_params default_params (Data.mk_data 0 0 0 0 0 0 0 0 0 0 0 0 0 0 0 0
          DT_FILMIC_METHOD_NONE DT_FILMIC_COLORSCIENCE_V1 0 (dt_iop_filmic_rgb_compute_spline default_params) 0))
      * (fabsf (black_point_source default_params) / (white_point_source default_params - black_point_source default_params)) <= 0 /\
   get (M2 (Data.spline (commit_params default_params (Data.mk_data 0 0 0 0 0 0 0 0 0 0 0 0 0 0 0 0
          DT_FILMIC_METHOD_NONE DT_FILMIC_COLORSCIENCE_V1 0 (dt_iop_filmic_rgb_compute_spline default_params) 0)))) 2
   = CLAMP (contrast default_params) 0.1 2).
Proof.
  assert (H : black_point_source default_params < 0 /\
              0 < white_point_source default_params - black_point_source default_params)
    by (simpl; lra).
  split; [exact H|]. apply commit_params_contrast_intercept; apply H.
Defined.

(** C7 counterexample: with a contrast of 0.5 the committed contrast is
    raised above 0.9, while the spline's linear segment keeps the slope 0.5;
    with that slope, the linear segment's intercept at the grey node,
    [grey_display - slope * grey_log], is positive. *)
Lemma commit_params_spline_slope_not_committed :
  get (M2 (Data.spline (commit_params low_contrast_params zero_data))) 2 = 0.5 /\
  0.9 < Data.contrast (commit_params low_contrast_params zero_data) /\
  0 < snd (commit_greys low_contrast_params)
      - get (M2 (Data.spline (commit_params low_contrast_params zero_data))) 2
        * (fabsf (black_point_source low_contrast_params)
           / (white_point_source low_contrast_params - black_point_source low_contrast_params)).
Proof.
  assert (Hs : get (M2 (Data.spline (commit_params low_contrast_params zero_data))) 2 = 0.5).
  { unfold commit_params. destruct (commit_greys _).
    cbn [Data.spline]. rewrite compute_spline_slope. apply CLAMP_id. simpl; lra. }
  pose proof grey_display_default_bounds as Hg.
  split; [exact Hs|]. split.
  - unfold commit_params. destruct (commit_greys _) eqn:Eg. simpl.
    unfold commit_contrast. simpl.
    unfold fabsf. rewrite (Rabs_left (-8)) by lra.
    set (g := powf 0.1845 (1 / 4)) in *. clearbody g.
    replace (- -8 / (4 - -8)) with (2 / 3) by field.
    destruct Rlt_dec as [Hlt|Hge].
    + replace 1.0001 with (10001 / 10000) by lra.
      replace (10001 / 10000 * g / (2 / 3)) with (30003 / 20000 * g) by field. lra.
    + exfalso. apply Hge. replace (g / (2 / 3)) with (3 / 2 * g) by field. lra.
  - rewrite Hs. simpl. unfold fabsf. rewrite (Rabs_left (-8)) by lra.
    replace (- -8 / (4 - -8)) with (2 / 3) by field. lra.
Qed.

(** ** Buffer lemmas *)

Lemma length_upd (b : list R) (i : nat) (v : R) : length (upd b i v) = length b.
Proof. revert i; induction b as [|h t IH]; intros [|i]; simpl; auto. Qed.

Lemma get_upd_eq (b : list R) (i : nat) (v : R) : (i < length b)%nat -> get (upd b i v) i = v.
Proof.
  revert i; induction b as [|h t IH]; intros [|i] Hi; simpl in *; try lia; auto.
  apply IH; lia.
Qed.

Lemma get_upd_neq (b : list R) (i j : nat) (v : R) : i <> j -> get (upd b i v) j = get b j.
Proof.
  revert i j; induction b as [|h t IH]; intros [|i] [|j] Hij; simpl; auto; try lia.
  unfold get in *; simpl. apply IH. lia.
Qed.

Lemma upd_get_same (b : list R) (i : nat) : upd b i (get b i) = b.
Proof.
  revert i; induction b as [|h t IH]; intros [|i]; simpl; auto.
  unfold get in *; simpl. f_equal. apply IH.
Qed.

Lemma upd_same_value (b : list R) (i : nat) (v : R) : v = get b i -> upd b i v = b.
Proof. intros ->. apply upd_get_same. Qed.

Lemma mask_loop_spec (input : list R) (feather threshold : R) (n : nat) (m : list R) (c : nat) :
  (n <= length m)%nat ->
  let r := fold_left
      (fun '(mask, clipped) p =>
         let k := (p * 4)%nat in
         let pix_max := sqrtf (sqf (get input k) + sqf (get input (k + 1)) + sqf (get input (k + 2))) in
         let argument := - pix_max * (feather / threshold) + feather in
         let weight := 1 / (1 + exp2f argument) in
         (upd mask (k / 4) weight, (clipped + if Rlt_dec argument 4 then 1 else 0)%nat))
      (seq 0 n) (m, c) in
  length (fst r) = length m /\
  (forall p, (p < n)%nat -> get (fst r) p = spec_weight input feather threshold p) /\
  (forall p, (n <= p)%nat -> get (fst r) p = get m p) /\
  snd r = (c + spec_clipped_count input feather threshold n)%nat.
Proof.
  induction n as [|n IH]; intros Hn.
  - cbn. repeat split; intros; try lia; try reflexivity.
  - cbv zeta. rewrite seq_S, fold_left_app.
    cbv zeta in IH.
    destruct (fold_left _ (seq 0 n) (m, c)) as [m' c'] eqn:E.
    destruct (IH ltac:(lia)) as (Hl & Hlt & Hge & Hc). simpl in Hl, Hlt, Hge, Hc.
    assert (Hk : (n * 4 / 4 = n)%nat) by (apply Nat.div_mul; lia).
    assert (Harg : - sqrtf (sqf (get input (n * 4)) + sqf (get input (n * 4 + 1)) + sqf (get input (n * 4 + 2)))
                     * (feather / threshold) + feather = spec_argument input feather threshold n).
    { unfold spec_argument, spec_pix_max, sqrtf, sqf.
      replace (n * 4)%nat with (4 * n)%nat by lia. simpl. rewrite !Rmult_1_r. ring. }
    cbn [fold_left]. rewrite Nat.add_0_l, Hk, Harg. cbn [fst snd].
    repeat split.
    + rewrite length_upd; exact Hl.
    + intros p Hp. destruct (Nat.eq_dec p n) as [->|Hne].
      * rewrite get_upd_eq by lia. reflexivity.
      * rewrite get_upd_neq by lia. apply Hlt; lia.
    + intros p Hp. rewrite get_upd_neq by lia. apply Hge; lia.
    + rewrite Hc. unfold spec_clipped_count. rewrite seq_S, filter_app, length_app. simpl.
      destruct (Rlt_dec (spec_argument input feather threshold n) 4); simpl; lia.
Qed.

(** ** Loop and buffer lemmas *)

Lemma for_loop_S {A : Type} (n : nat) (body : nat -> A -> A) (a : A) :
  for_loop (S n) body a = body n (for_loop n body a).
Proof. unfold for_loop. rewrite seq_S, fold_left_app. reflexivity. Qed.

Lemma for_loop_ind {A : Type} (P : nat -> A -> Prop) (n : nat) (body : nat -> A -> A) (a : A) :
  P 0%nat a ->
  (forall i s, (i < n)%nat -> P i s -> P (S i) (body i s)) ->
  P n (for_loop n body a).
Proof.
  intros H0 Hstep. induction n as [|n IH].
  - exact H0.
  - rewrite for_loop_S. apply Hstep; [lia|]. apply IH. intros; apply Hstep; auto; lia.
Qed.

Lemma length_upd3 (b : list R) (k : nat) (v0 v1 v2 : R) : length (upd3 b k v0 v1 v2) = length b.
Proof. unfold upd3. rewrite !length_upd. reflexivity. Qed.

Lemma get_upd3_miss (b : list R) (k j : nat) (v0 v1 v2 : R) :
  j <> k -> j <> (k + 1)%nat -> j <> (k + 2)%nat -> get (upd3 b k v0 v1 v2) j = get b j.
Proof. intros. unfold upd3. rewrite !get_upd_neq by lia. reflexivity. Qed.

Lemma get_upd3_0 (b : list R) (k : nat) (v0 v1 v2 : R) :
  (k + 2 < length b)%nat -> get (upd3 b k v0 v1 v2) k = v0.
Proof. intros. unfold upd3. rewrite !get_upd_neq by lia. apply get_upd_eq; lia. Qed.

Lemma get_upd3_1 (b : list R) (k : nat) (v0 v1 v2 : R) :
  (k + 2 < length b)%nat -> get (upd3 b k v0 v1 v2) (k + 1) = v1.
Proof. intros. unfold upd3. rewrite get_upd_neq by lia. apply get_upd_eq. rewrite length_upd; lia. Qed.

Lemma get_upd3_2 (b : list R) (k : nat) (v0 v1 v2 : R) :
  (k + 2 < length b)%nat -> get (upd3 b k v0 v1 v2) (k + 2) = v2.
Proof. intros. unfold upd3. apply get_upd_eq. rewrite !length_upd; lia. Qed.

(** The three writes of [upd3] at pixel [i] of a 4-channel buffer, seen from
    channel [c] of pixel [p]. *)
Lemma get_upd3_pixel (b : list R) (i p c : nat) (v0 v1 v2 : R) :
  (i * 4 + 2 < length b)%nat -> (c < 3)%nat ->
  get (upd3 b (i * 4) v0 v1 v2) (p * 4 + c) =
  if Nat.eq_dec p i then nth c [v0; v1; v2] 0 else get b (p * 4 + c).
Proof.
  intros Hl Hc. destruct (Nat.eq_dec p i) as [->|Hne].
  - destruct c as [|[|[|c]]]; try lia; simpl nth.
    + rewrite Nat.add_0_r. apply get_upd3_0; lia.
    + apply get_upd3_1; lia.
    + apply get_upd3_2; lia.
  - apply get_upd3_miss; nia.
Qed.

Lemma NORM_MIN_pos : 0 < NORM_MIN.
Proof. unfold NORM_MIN. lra. Qed.

Lemma div_mul_4 (p : nat) : (p * 4 / 4 = p)%nat.
Proof. apply Nat.div_mul. lia. Qed.

(** ** Ratios *)

(** Establishes the invariant [P] of the (first) [for_loop] of the goal. *)
Ltac loop_invariant P :=
  match goal with
  | |- context [for_loop ?n ?body ?a] =>
      let HL := fresh "Hloop" in
      assert (HL : P n (for_loop n body a));
      [ apply (for_loop_ind P n body a)
      | let r := fresh "r" in generalize dependent (for_loop n body a); intros r HL ]
  end.

Lemma compute_ratios_spec (rgb_luminance : R -> R -> R -> R) (input norms ratios : list R)
  (variant : dt_iop_filmicrgb_methods_type_t) (width height : nat) :
  length norms = (width * height)%nat -> length ratios = (width * height * 4)%nat ->
  let r := compute_ratios rgb_luminance input norms ratios variant width height 4 in
  length (snd r) = length ratios /\
  forall p, (p < width * height)%nat ->
    let N := fmaxf (get_pixel_norm rgb_luminance (get input (p * 4)) (get input (p * 4 + 1))
                                   (get input (p * 4 + 2)) variant) NORM_MIN in
    get (fst r) p = N /\ forall c, (c < 3)%nat -> get (snd r) (p * 4 + c) = get input (p * 4 + c) / N.
Proof.
  intros Hn Hr. unfold compute_ratios. cbv zeta.
  loop_invariant (fun i (r : list R * list R) => length (fst r) = length norms /\ length (snd r) = length ratios /\
           forall p, (p < i)%nat ->
             get (fst r) p = fmaxf (get_pixel_norm rgb_luminance (get input (p * 4)) (get input (p * 4 + 1))
                                      (get input (p * 4 + 2)) variant) NORM_MIN /\
             forall c, (c < 3)%nat -> get (snd r) (p * 4 + c) = get input (p * 4 + c) /
               fmaxf (get_pixel_norm rgb_luminance (get input (p * 4)) (get input (p * 4 + 1))
                                      (get input (p * 4 + 2)) variant) NORM_MIN).
  - simpl. repeat split; auto; intros; lia.
  - intros i [n' r'] Hi (Hln & Hlr & IH). cbn [fst snd] in Hln, Hlr, IH |- *.
    rewrite div_mul_4. rewrite length_upd, length_upd3.
    split; [exact Hln|]. split; [exact Hlr|]. intros p Hp.
    destruct (Nat.eq_dec p i) as [->|Hne].
    + split.
      * apply get_upd_eq. nia.
      * intros c Hc. rewrite get_upd3_pixel by (try nia; lia).
        destruct (Nat.eq_dec i i); [|congruence].
        destruct c as [|[|[|c]]]; try lia; simpl nth; rewrite ?Nat.add_0_r; reflexivity.
    + destruct (IH p ltac:(lia)) as [IHn IHr]. split.
      * rewrite get_upd_neq by lia. exact IHn.
      * intros c Hc. rewrite get_upd3_pixel by (try nia; lia).
        destruct (Nat.eq_dec p i); [congruence|]. apply IHr; exact Hc.
  - destruct Hloop as (_ & Hl & H). split; [exact Hl|].
    intros p Hp. apply H. lia.
Qed.

Lemma restore_ratios_spec (ratios norms : list R) (width height : nat) :
  length ratios = (width * height * 4)%nat ->
  forall p c, (p < width * height)%nat -> (c < 3)%nat ->
  get (restore_ratios ratios norms width height 4) (p * 4 + c) = get ratios (p * 4 + c) * get norms p.
Proof.
  intros Hr. unfold restore_ratios.
  loop_invariant (fun i (r : list R) => length r = length ratios /\
           forall p c, (c < 3)%nat ->
             get r (p * 4 + c) = if Nat.ltb p i then get ratios (p * 4 + c) * get norms p
                                 else get ratios (p * 4 + c)).
  - split; auto.
  - intros i r Hi (Hl & IH). cbv zeta. rewrite div_mul_4. split; [rewrite length_upd3; exact Hl|].
    intros p c Hc.
    assert (Hk : forall c', (c' < 3)%nat -> get r (i * 4 + c') = get ratios (i * 4 + c')).
    { intros c' Hc'. rewrite IH by exact Hc'. destruct (Nat.ltb i i) eqn:E; [apply Nat.ltb_lt in E; lia|reflexivity]. }
    rewrite get_upd3_pixel by (try nia; lia).
    destruct (Nat.eq_dec p i) as [->|Hne].
    + destruct (Nat.ltb i (S i)) eqn:E; [|apply Nat.ltb_ge in E; lia].
      destruct c as [|[|[|c]]]; try lia; simpl nth.
      * pose proof (Hk 0%nat ltac:(lia)) as H0. rewrite Nat.add_0_r in H0 |- *. rewrite H0. reflexivity.
      * rewrite Hk by lia. reflexivity.
      * rewrite Hk by lia. reflexivity.
    + rewrite IH by exact Hc.
      destruct (Nat.ltb p i) eqn:E1, (Nat.ltb p (S i)) eqn:E2; auto;
        apply Nat.ltb_lt in E1 || apply Nat.ltb_ge in E1;
        apply Nat.ltb_lt in E2 || apply Nat.ltb_ge in E2; lia.
  - intros p c Hp Hc. destruct Hloop as (_ & H). rewrite H by exact Hc.
    destruct (Nat.ltb p (height * width)) eqn:E; [reflexivity|apply Nat.ltb_ge in E; lia].
Qed.

(** C5: for every 4-channel buffer (every norm is at least [NORM_MIN]:
    [compute_ratios] takes [fmaxf(norm, NORM_MIN)]), [compute_ratios]
    followed by [restore_ratios] gives back the three color channels of
    the input: [ratios[k + c] * norms[k / ch] = in[k + c]]. *)
Theorem compute_restore_ratios_roundtrip (rgb_luminance : R -> R -> R -> R)
  (variant : dt_iop_filmicrgb_methods_type_t) (input norms ratios : list R) (width height : nat)
  (Hn : length norms = (width * height)%nat) (Hr : length ratios = (width * height * 4)%nat) :
  let '(norms', ratios') := compute_ratios rgb_luminance input norms ratios variant width height 4 in
  forall p c, (p < width * height)%nat -> (c < 3)%nat ->
    get ratios' (p * 4 + c) * get norms' p = get input (p * 4 + c) /\
    get (restore_ratios ratios' norms' width height 4) (p * 4 + c) = get input (p * 4 + c).
Proof.
  destruct (compute_ratios_spec rgb_luminance input norms ratios variant width height Hn Hr) as [Hl H].
  destruct (compute_ratios rgb_luminance input norms ratios variant width height 4) as [norms' ratios'].
  cbn [fst snd] in Hl, H. intros p c Hp Hc.
  assert (Hmul : get ratios' (p * 4 + c) * get norms' p = get input (p * 4 + c)).
  { destruct (H p Hp) as [HN HR]. rewrite HN, HR by exact Hc.
    set (N := fmaxf _ NORM_MIN).
    assert (0 < N) by (unfold N, fmaxf; pose proof NORM_MIN_pos; pose proof (Rmax_r (get_pixel_norm rgb_luminance (get input (p * 4)) (get input (p * 4 + 1)) (get input (p * 4 + 2)) variant) NORM_MIN); lra).
    field. lra. }
  split; [exact Hmul|].
  rewrite restore_ratios_spec by (auto; lia). exact Hmul.
Qed.

Lemma compute_restore_ratios_roundtrip_witness :
  length [0] = (1 * 1)%nat /\ length [0; 0; 0; 0] = (1 * 1 * 4)%nat /\
  let '(norms', ratios') := compute_ratios (fun r g b => r) [0.5; 0.25; 2; 1] [0] [0; 0; 0; 0]
                              DT_FILMIC_METHOD_EUCLIDEAN_NORM 1 1 4 in
  forall p c, (p < 1 * 1)%nat -> (c < 3)%nat ->
    get ratios' (p * 4 + c) * get norms' p = get [0.5; 0.25; 2; 1] (p * 4 + c) /\
    get (restore_ratios ratios' norms' 1 1 4) (p * 4 + c) = get [0.5; 0.25; 2; 1] (p * 4 + c).
Proof.
  split; [reflexivity|]. split; [reflexivity|].
  exact (compute_restore_ratios_roundtrip (fun r g b => r) DT_FILMIC_METHOD_EUCLIDEAN_NORM
           [0.5; 0.25; 2; 1] [0] [0; 0; 0; 0] 1 1 eq_refl eq_refl).
Defined.

(** ** Range of the split tone mappers *)

Lemma powf_unit (x y : R) : 0 <= x <= 1 -> 0 < y -> 0 <= powf x y <= 1.
Proof.
  intros Hx Hy. unfold powf. destruct (Req_EM_T x 0) as [->|Hne].
  - destruct (Rlt_dec 0 y); lra.
  - unfold Rpower. rewrite Rabs_right by lra. split.
    + left. apply exp_pos.
    + rewrite <- exp_0.
      assert (ln x <= 0).
      { rewrite <- ln_1. destruct (Rle_lt_or_eq_dec x 1) as [Hl|He]; [lra| |].
        - left; apply ln_increasing; lra.
        - rewrite He; lra. }
      destruct (Rle_lt_or_eq_dec (y * ln x) 0) as [Hlt|Heq]; [nra| |].
      * left. apply exp_increasing. exact Hlt.
      * rewrite Heq. lra.
Qed.

Ltac split_loop_invariant data spline out :=
  loop_invariant (fun i (s : list R) => length s = length out /\
    forall p c, (p < i)%nat -> (c < 3)%nat -> split_value data spline (get s (p * 4 + c)));
  [ split; [reflexivity | intros; lia]
  | intros i s Hi (Hls & IH); cbv zeta; split; [rewrite length_upd3; exact Hls|];
    intros p c Hp Hc; rewrite get_upd3_pixel by (try nia; lia);
    destruct (Nat.eq_dec p i) as [->|Hne];
    [ destruct c as [|[|[|c]]]; try lia; simpl nth; eexists; reflexivity
    | apply IH; lia ]
  | ].

Lemma filmic_split_v1_values (rgb_luminance : R -> R -> R -> R) (input out : list R)
  (data : Data.dt_iop_filmicrgb_data_t) (spline : dt_iop_filmic_rgb_spline_t) (width height : nat) :
  length out = (width * height * 4)%nat ->
  forall p c, (p < width * height)%nat -> (c < 3)%nat ->
  split_value data spline (get (filmic_split_v1 rgb_luminance input out data spline width height 4) (p * 4 + c)).
Proof.
  intros Hl. unfold filmic_split_v1. split_loop_invariant data spline out.
  intros p c Hp Hc. apply Hloop; lia.
Qed.

Lemma filmic_split_v2_values (rgb_luminance : R -> R -> R -> R) (input out : list R)
  (data : Data.dt_iop_filmicrgb_data_t) (spline : dt_iop_filmic_rgb_spline_t) (width height : nat) :
  length out = (width * height * 4)%nat ->
  forall p c, (p < width * height)%nat -> (c < 3)%nat ->
  split_value data spline (get (filmic_split_v2 rgb_luminance input out data spline width height 4) (p * 4 + c)).
Proof.
  intros Hl. unfold filmic_split_v2. split_loop_invariant data spline out.
  intros p c Hp Hc. apply Hloop; lia.
Qed.

Lemma split_value_range (data : Data.dt_iop_filmicrgb_data_t) (spline : dt_iop_filmic_rgb_spline_t) (v : R) :
  0 < Data.output_power data -> split_value data spline v -> 0 <= v <= 1.
Proof. intros Hp [x ->]. apply powf_unit; [apply clamp_simd_range | exact Hp]. Qed.

(** C10: for every input buffer (any channel values, negative or large)
    and every [output_power > 0], [filmic_split_v1] and [filmic_split_v2]
    write each output color channel as
    [powf(clamp_simd(filmic_spline(x, ...)), output_power)] for some [x],
    and every output color channel lies in [[0, 1]]. *)
Theorem filmic_split_output_range (rgb_luminance : R -> R -> R -> R) (input out : list R)
  (data : Data.dt_iop_filmicrgb_data_t) (spline : dt_iop_filmic_rgb_spline_t) (width height : nat)
  (Hl : length out = (width * height * 4)%nat) (Hpow : 0 < Data.output_power data) :
  forall p c, (p < width * height)%nat -> (c < 3)%nat ->
    let v1 := get (filmic_split_v1 rgb_luminance input out data spline width height 4) (p * 4 + c) in
    let v2 := get (filmic_split_v2 rgb_luminance input out data spline width height 4) (p * 4 + c) in
    split_value data spline v1 /\ 0 <= v1 <= 1 /\ split_value data spline v2 /\ 0 <= v2 <= 1.
Proof.
  intros p c Hp Hc v1 v2.
  pose proof (filmic_split_v1_values rgb_luminance input out data spline width height Hl p c Hp Hc) as H1.
  pose proof (filmic_split_v2_values rgb_luminance input out data spline width height Hl p c Hp Hc) as H2.
  repeat split; try assumption; eapply split_value_range; eassumption.
Qed.

Lemma filmic_split_output_range_witness :
  length [0; 0; 0; 0] = (1 * 1 * 4)%nat /\ 0 < Data.output_power (commit_params default_params zero_data) /\
  let data := commit_params default_params zero_data in
  forall p c, (p < 1 * 1)%nat -> (c < 3)%nat ->
    let v1 := get (filmic_split_v1 (fun r g b => r) [-3; 1000; 0.2; 1] [0; 0; 0; 0] data (Data.spline data) 1 1 4) (p * 4 + c) in
    let v2 := get (filmic_split_v2 (fun r g b => r) [-3; 1000; 0.2; 1] [0; 0; 0; 0] data (Data.spline data) 1 1 4) (p * 4 + c) in
    split_value data (Data.spline data) v1 /\ 0 <= v1 <= 1 /\ split_value data (Data.spline data) v2 /\ 0 <= v2 <= 1.
Proof.
  assert (Hpow : 0 < Data.output_power (commit_params default_params zero_data)).
  { unfold commit_params. destruct (commit_greys default_params). simpl. lra. }
  split; [reflexivity|]. split; [exact Hpow|].
  exact (filmic_split_output_range (fun r g b => r) [-3; 1000; 0.2; 1] [0; 0; 0; 0]
           (commit_params default_params zero_data) (Data.spline (commit_params default_params zero_data))
           1 1 eq_refl Hpow).
Defined.

(** ** The clipped-pixels mask *)

Lemma mask_loop_count (input : list R) (normalize feather : R) (n : nat) (m : list R) (c : nat) :
  snd (fold_left
      (fun '(mask, clipped) p =>
         let k := (p * 4)%nat in
         let pix_max := sqrtf (sqf (get input k) + sqf (get input (k + 1)) + sqf (get input (k + 2))) in
         let argument := - pix_max * normalize + feather in
         let weight := 1 / (1 + exp2f argument) in
         (upd mask (k / 4) weight, (clipped + if Rlt_dec argument 4 then 1 else 0)%nat))
      (seq 0 n) (m, c)) =
  (c + length (filter (fun p => if Rlt_dec (- sqrtf (sqf (get input (p * 4)) + sqf (get input (p * 4 + 1))
                                                   + sqf (get input (p * 4 + 2))) * normalize + feather) 4
                                then true else false) (seq 0 n)))%nat.
Proof.
  revert m c. induction n as [|n IH]; intros m c.
  - simpl. lia.
  - rewrite seq_S, fold_left_app, filter_app, length_app.
    destruct (fold_left _ (seq 0 n) (m, c)) as [m' c'] eqn:E.
    pose proof (IH m c) as IHn. rewrite E in IHn. cbn [snd] in IHn.
    cbn [fold_left filter]. rewrite Nat.add_0_l.
    destruct (Rlt_dec _ 4); cbn [snd length]; lia.
Qed.

Lemma spec_argument_code (input : list R) (feather threshold : R) (p : nat) :
  - sqrtf (sqf (get input (p * 4)) + sqf (get input (p * 4 + 1)) + sqf (get input (p * 4 + 2)))
    * (feather / threshold) + feather = spec_argument input feather threshold p.
Proof.
  unfold spec_argument, spec_pix_max, sqrtf, sqf.
  replace (p * 4)%nat with (4 * p)%nat by lia. simpl. rewrite !Rmult_1_r. ring.
Qed.

(** The returned flag counts the pixels whatever the mask buffer holds. *)
Lemma mask_clipped_pixels_flag (input mask : list R) (feather threshold : R) (width height : nat) :
  fst (mask_clipped_pixels input mask (feather / threshold) feather width height 4) =
  Nat.ltb 9 (spec_clipped_count input feather threshold (height * width)).
Proof.
  unfold mask_clipped_pixels.
  pose proof (mask_loop_count input (feather / threshold) feather (height * width) mask 0) as H.
  destruct (fold_left _ (seq 0 (height * width)) (mask, 0%nat)) as [m' c'].
  cbn [snd] in H. cbn [fst]. rewrite H. f_equal.
  unfold spec_clipped_count. rewrite Nat.add_0_l. f_equal. apply filter_ext. intros p.
  rewrite spec_argument_code. reflexivity.
Qed.

Lemma mask_clipped_pixels_weights (input mask : list R) (feather threshold : R) (width height : nat) :
  length mask = (width * height)%nat ->
  forall p, (p < width * height)%nat ->
  get (snd (mask_clipped_pixels input mask (feather / threshold) feather width height 4)) p =
  spec_weight input feather threshold p.
Proof.
  intros Hl p Hp. unfold mask_clipped_pixels.
  destruct (mask_loop_spec input feather threshold (height * width) mask 0 ltac:(lia)) as (_ & H & _).
  destruct (fold_left _ (seq 0 (height * width)) (mask, 0%nat)) as [m' c'].
  cbn [fst snd] in H |- *. apply H. lia.
Qed.

Lemma process_no_recovery (rgb_luminance : R -> R -> R -> R) (rng_state : Type) (xoshiro256_init : rng_state)
  (dt_noise_generator : nat -> R -> R -> bool -> rng_state -> R * rng_state)
  (dt_iop_alpha_copy : list R -> list R -> nat -> nat -> list R)
  (data : Data.dt_iop_filmicrgb_data_t) (piece : dt_pipe_t) (ivoid ovoid : list R) (e : env) :
  colors piece = 4%nat -> show_mask piece = false ->
  (spec_clipped_count ivoid (Data.reconstruct_feather data) (Data.reconstruct_threshold data)
                      (roi_out_height piece * roi_out_width piece) <= 9)%nat ->
  fst (process rgb_luminance rng_state xoshiro256_init dt_noise_generator dt_iop_alpha_copy data piece ivoid ovoid e)
  = process_output rgb_luminance dt_iop_alpha_copy data piece ivoid ivoid ovoid.
Proof.
  intros Hc Hs Hcount. unfold process. rewrite Hc. cbn [Nat.eqb negb].
  destruct (dt_alloc_sse_ps _ e) as [mask e1].
  pose proof (mask_clipped_pixels_flag ivoid (buf mask) (Data.reconstruct_feather data)
                (Data.reconstruct_threshold data) (roi_out_width piece) (roi_out_height piece)) as Hf.
  destruct (mask_clipped_pixels _ _ _ _ _ _ _) as [recover mask_buf].
  cbn [fst] in Hf. assert (Hr : recover = false) by (rewrite Hf; apply Nat.ltb_ge; exact Hcount).
  rewrite Hr, Hs. cbn [andb].
  destruct (dt_alloc_sse_ps _ e1) as [reconstructed e2].
  unfold process_output. destruct (run_fast piece); reflexivity.
Qed.

(** C3: on a 4-channel buffer, [mask_clipped_pixels] gives pixel [p] the
    weight [1 / (1 + 2^argument)], with
    [argument = feather - pix_max * (feather / threshold)] and
    [pix_max = sqrt(R^2 + G^2 + B^2)], and returns true exactly when more
    than 9 pixels have [argument < 4].  When it returns false, [process]
    (on RGB input, outside the mask-display mode) attempts no reconstruction
    and tone-maps the unmodified input buffer. *)
Theorem mask_clipped_pixels_spec (input mask : list R) (feather threshold : R) (width height : nat)
  (Hlen : length mask = (width * height)%nat) :
  let r := mask_clipped_pixels input mask (feather / threshold) feather width height 4 in
  (forall p, (p < width * height)%nat -> get (snd r) p = spec_weight input feather threshold p) /\
  (fst r = true <-> (9 < spec_clipped_count input feather threshold (width * height))%nat) /\
  (forall (rgb_luminance : R -> R -> R -> R) (rng_state : Type) (xoshiro256_init : rng_state)
     (dt_noise_generator : nat -> R -> R -> bool -> rng_state -> R * rng_state)
     (dt_iop_alpha_copy : list R -> list R -> nat -> nat -> list R)
     (data : Data.dt_iop_filmicrgb_data_t) (piece : dt_pipe_t) (ovoid : list R) (e : env),
     colors piece = 4%nat -> show_mask piece = false ->
     roi_out_width piece = width -> roi_out_height piece = height ->
     Data.reconstruct_feather data = feather -> Data.reconstruct_threshold data = threshold ->
     fst r = false ->
     fst (process rgb_luminance rng_state xoshiro256_init dt_noise_generator dt_iop_alpha_copy
                  data piece input ovoid e)
     = process_output rgb_luminance dt_iop_alpha_copy data piece input input ovoid).
Proof.
  intros r. pose proof (mask_clipped_pixels_flag input mask feather threshold width height) as Hf.
  fold r in Hf. rewrite Nat.mul_comm in Hf.
  split; [|split].
  - apply mask_clipped_pixels_weights. exact Hlen.
  - rewrite Hf. apply Nat.ltb_lt.
  - intros lum st init gen acopy data piece ovoid e Hc Hs Hw Hh Hfe Hth Hr.
    apply process_no_recovery; auto.
    rewrite Hfe, Hth, Hw, Hh, Nat.mul_comm. apply Nat.ltb_ge. rewrite <- Hf. exact Hr.
Qed.

Lemma mask_clipped_pixels_spec_witness :
  length [0] = (1 * 1)%nat /\
  let r := mask_clipped_pixels [0.5; 2; 0.25; 1] [0] (16 / 23.616) 16 1 1 4 in
  (forall p, (p < 1 * 1)%nat -> get (snd r) p = spec_weight [0.5; 2; 0.25; 1] 16 23.616 p) /\
  (fst r = true <-> lt 9 (spec_clipped_count [0.5; 2; 0.25; 1] 16 23.616 (1 * 1)%nat)) /\
  (forall (rgb_luminance : R -> R -> R -> R) (rng_state : Type) (xoshiro256_init : rng_state)
     (dt_noise_generator : nat -> R -> R -> bool -> rng_state -> R * rng_state)
     (dt_iop_alpha_copy : list R -> list R -> nat -> nat -> list R)
     (data : Data.dt_iop_filmicrgb_data_t) (piece : dt_pipe_t) (ovoid : list R) (e : env),
     colors piece = 4%nat -> show_mask piece = false ->
     roi_out_width piece = 1%nat -> roi_out_height piece = 1%nat ->
     Data.reconstruct_feather data = 16 -> Data.reconstruct_threshold data = 23.616 ->
     fst r = false ->
     fst (process rgb_luminance rng_state xoshiro256_init dt_noise_generator dt_iop_alpha_copy
                  data piece [0.5; 2; 0.25; 1] ovoid e)
     = process_output rgb_luminance dt_iop_alpha_copy data piece [0.5; 2; 0.25; 1] [0.5; 2; 0.25; 1] ovoid).
Proof.
  split; [reflexivity|].
  exact (mask_clipped_pixels_spec [0.5; 2; 0.25; 1] [0] 16 23.616 1 1 eq_refl).
Defined.

(** ** The default reconstruction threshold and feather *)

Lemma default_reconstruct_threshold (d : Data.dt_iop_filmicrgb_data_t) :
  Data.reconstruct_threshold (commit_params default_params d) = 23.616.
Proof.
  unfold commit_params. cbn. unfold powf.
  destruct (Req_EM_T 2 0) as [H|_]; [lra|].
  rewrite Rabs_right by lra. replace (4 + 3) with (INR 7) by (simpl; lra).
  rewrite Rpower_pow by lra. simpl. lra.
Qed.

Lemma default_reconstruct_feather (d : Data.dt_iop_filmicrgb_data_t) :
  Data.reconstruct_feather (commit_params default_params d) = 16.
Proof.
  unfold commit_params. cbn. unfold exp2f.
  replace (12 / 3) with (INR 4) by (simpl; lra).
  rewrite Rpower_pow by lra. simpl. lra.
Qed.

Lemma spec_weight_pos (input : list R) (feather threshold : R) (p : nat) :
  0 < spec_weight input feather threshold p.
Proof.
  unfold spec_weight. pose proof (exp_pos (spec_argument input feather threshold p * ln 2)).
  unfold Rpower. apply Rdiv_lt_0_compat; lra.
Qed.

(** A pixel whose three color channels lie in [[-1, 1]] is far below the
    default threshold: its argument is above 14. *)
Lemma default_argument_bound (input : list R) (p : nat) :
  (forall c, (c < 3)%nat -> -1 <= get input (4 * p + c) <= 1) ->
  14 < spec_argument input 16 23.616 p.
Proof.
  intros Hc. unfold spec_argument, spec_pix_max.
  pose proof (Hc 0%nat ltac:(lia)) as H0. pose proof (Hc 1%nat ltac:(lia)) as H1.
  pose proof (Hc 2%nat ltac:(lia)) as H2. rewrite Nat.add_0_r in H0.
  set (a := get input (4 * p)) in *. set (b := get input (4 * p + 1)) in *.
  set (c := get input (4 * p + 2)) in *.
  assert (Hs : a ^ 2 + b ^ 2 + c ^ 2 <= 1.8 * 1.8) by nra.
  assert (Hq : sqrt (a ^ 2 + b ^ 2 + c ^ 2) <= 1.8).
  { rewrite <- (sqrt_square 1.8) by lra. apply sqrt_le_1_alt. lra. }
  assert (0 <= sqrt (a ^ 2 + b ^ 2 + c ^ 2)) by apply sqrt_pos.
  assert (Hr : 16 / 23.616 < 0.7) by (apply Rmult_lt_reg_r with 23.616; [lra|]; field_simplify; lra).
  assert (0 < 16 / 23.616) by (apply Rdiv_lt_0_compat; lra).
  nra.
Qed.

Lemma default_weight_bound (input : list R) (p : nat) :
  (forall c, (c < 3)%nat -> -1 <= get input (4 * p + c) <= 1) ->
  0 < spec_weight input 16 23.616 p < / 16384.
Proof.
  intros Hc. split; [apply spec_weight_pos|].
  pose proof (default_argument_bound input p Hc) as Ha.
  unfold spec_weight.
  assert (H14 : Rpower 2 14 = 16384).
  { replace 14 with (INR 14) by (simpl; lra). rewrite Rpower_pow by lra. simpl. lra. }
  assert (Hlt : Rpower 2 14 < Rpower 2 (spec_argument input 16 23.616 p)) by (apply Rpower_lt; lra).
  rewrite H14 in Hlt.
  apply Rmult_lt_reg_r with (1 + Rpower 2 (spec_argument input 16 23.616 p)); [lra|].
  field_simplify; lra.
Qed.

Lemma spec_clipped_count_zero (input : list R) (feather threshold : R) (n : nat) :
  (forall p, (p < n)%nat -> 4 <= spec_argument input feather threshold p) ->
  spec_clipped_count input feather threshold n = 0%nat.
Proof.
  intros H. unfold spec_clipped_count.
  induction n as [|n IH]; [reflexivity|].
  rewrite seq_S, filter_app, length_app, IH by (intros; apply H; lia).
  simpl. destruct (Rlt_dec (spec_argument input feather threshold n) 4) as [Hl|_]; [|reflexivity].
  specialize (H n ltac:(lia)). lra.
Qed.

(** C9 (as the code behaves): with the default reconstruction threshold and
    feather ([23.616] and [16] once committed), on every image whose color
    channels lie in [[-1, 1]] (a uniformly mid-grey image among them)
    [mask_clipped_pixels] returns false, and gives every pixel a weight that
    is positive and below [2^-14], not zero. *)
Theorem mask_clipped_pixels_default_low_weights (d : Data.dt_iop_filmicrgb_data_t) (input mask : list R)
  (width height : nat) (Hlen : length mask = (width * height)%nat)
  (Himg : forall p c, (p < width * height)%nat -> (c < 3)%nat -> -1 <= get input (4 * p + c) <= 1) :
  let data := commit_params default_params d in
  let r := mask_clipped_pixels input mask (Data.reconstruct_feather data / Data.reconstruct_threshold data)
                               (Data.reconstruct_feather data) width height 4 in
  fst r = false /\ forall p, (p < width * height)%nat -> 0 < get (snd r) p < / 16384.
Proof.
  cbv zeta. rewrite default_reconstruct_feather, default_reconstruct_threshold.
  split.
  - rewrite mask_clipped_pixels_flag, spec_clipped_count_zero; [reflexivity|].
    intros p Hp. assert (14 < spec_argument input 16 23.616 p); [|lra].
    apply default_argument_bound. intros c Hc. apply Himg; lia.
  - intros p Hp. rewrite mask_clipped_pixels_weights by assumption.
    apply default_weight_bound. intros c Hc. apply Himg; lia.
Qed.

Lemma mask_clipped_pixels_default_low_weights_witness :
  length [0] = (1 * 1)%nat /\
  (forall p c, (p < 1 * 1)%nat -> (c < 3)%nat -> -1 <= get [0.1845; 0.1845; 0.1845; 1] (4 * p + c) <= 1) /\
  let data := commit_params default_params zero_data in
  let r := mask_clipped_pixels [0.1845; 0.1845; 0.1845; 1] [0]
             (Data.reconstruct_feather data / Data.reconstruct_threshold data) (Data.reconstruct_feather data) 1 1 4 in
  fst r = false /\ forall p, (p < 1 * 1)%nat -> 0 < get (snd r) p < / 16384.
Proof.
  assert (Himg : forall p c, (p < 1 * 1)%nat -> (c < 3)%nat -> -1 <= get [0.1845; 0.1845; 0.1845; 1] (4 * p + c) <= 1).
  { intros p c Hp Hc. assert (p = 0%nat) by lia. subst p.
    destruct c as [|[|[|c]]]; try lia; unfold get; simpl; lra. }
  split; [reflexivity|]. split; [exact Himg|].
  exact (mask_clipped_pixels_default_low_weights zero_data [0.1845; 0.1845; 0.1845; 1] [0] 1 1 eq_refl Himg).
Defined.

(** C9 refuted: on a uniformly mid-grey image, with the default threshold
    and feather, the weight of the pixel is not zero. *)
Lemma mask_clipped_pixels_midgrey_weight_nonzero :
  let data := commit_params default_params zero_data in
  let r := mask_clipped_pixels [0.1845; 0.1845; 0.1845; 0.1845] [0]
             (Data.reconstruct_feather data / Data.reconstruct_threshold data) (Data.reconstruct_feather data) 1 1 4 in
  get (snd r) 0 <> 0.
Proof.
  cbv zeta. rewrite mask_clipped_pixels_weights by (simpl; lia).
  pose proof (spec_weight_pos [0.1845; 0.1845; 0.1845; 0.1845]
                (Data.reconstruct_feather (commit_params default_params zero_data))
                (Data.reconstruct_threshold (commit_params default_params zero_data)) 0). lra.
Qed.

(** C8 (as the code behaves): when the input does not have 4 channels,
    [process] logs "filmic works only on RGB input" and returns at once: it
    allocates nothing, tone-maps nothing, and writes nothing to the output
    buffer, which keeps whatever it held before the call. *)
Theorem process_non_rgb_returns (rgb_luminance : R -> R -> R -> R) (rng_state : Type) (xoshiro256_init : rng_state)
  (dt_noise_generator : nat -> R -> R -> bool -> rng_state -> R * rng_state)
  (dt_iop_alpha_copy : list R -> list R -> nat -> nat -> list R)
  (data : Data.dt_iop_filmicrgb_data_t) (piece : dt_pipe_t) (ivoid ovoid : list R) (e : env)
  (Hc : colors piece <> 4%nat) :
  process rgb_luminance rng_state xoshiro256_init dt_noise_generator dt_iop_alpha_copy data piece ivoid ovoid e
  = (ovoid, dt_control_log Msg.rgb_only e).
Proof.
  unfold process. apply Nat.eqb_neq in Hc. rewrite Hc. reflexivity.
Qed.

Lemma process_non_rgb_returns_witness :
  colors pipe_3_colors <> 4%nat /\
  process (fun _ _ _ => 0) unit tt (fun _ x _ _ s => (x, s)) (fun _ o _ _ => o)
          zero_data pipe_3_colors [1; 1; 1; 1] [0; 0; 0; 0] (mk_env [] 0 [])
  = ([0; 0; 0; 0], dt_control_log Msg.rgb_only (mk_env [] 0 [])).
Proof.
  assert (Hc : colors pipe_3_colors <> 4%nat) by (simpl; lia).
  split; [exact Hc|].
  exact (process_non_rgb_returns (fun _ _ _ => 0) unit tt (fun _ x _ _ s => (x, s)) (fun _ o _ _ => o)
           zero_data pipe_3_colors [1; 1; 1; 1] [0; 0; 0; 0] (mk_env [] 0 []) Hc).
Defined.

(** C8 refuted: on a 3-channel input the output buffer does not carry the
    input content; it is left as it was. *)
Lemma process_non_rgb_output_not_input :
  fst (process (fun _ _ _ => 0) unit tt (fun _ x _ _ s => (x, s)) (fun _ o _ _ => o)
               zero_data pipe_3_colors [1; 1; 1; 1] [0; 0; 0; 0] (mk_env [] 0 []))
  <> [1; 1; 1; 1].
Proof.
  unfold process. simpl. intros H. injection H. lra.
Qed.

(** ** Allocation failures in the reconstruction *)

Lemma reconstruct_highlights_alloc_failure (input mask reconstructed : list R)
  (variant : dt_iop_filmicrgb_reconstruction_type_t) (ch : nat)
  (data : Data.dt_iop_filmicrgb_data_t) (piece : dt_pipe_t) (e : env) :
  (exists i, (i < 5)%nat /\ nth i (alloc_results e) true = false) ->
  reconstruct_highlights input mask reconstructed variant ch data piece e =
  (false, reconstructed,
   mk_env (skipn 5 (alloc_results e)) (live_buffers e)
          (control_log e ++ [Msg.reconstruct_highlights_failed])).
Proof.
  destruct e as [l live log]. intros (i & Hi & Hn). cbn [alloc_results] in Hn.
  destruct i as [|[|[|[|[|i]]]]]; try lia;
  destruct l as [|b0 [|b1 [|b2 [|b3 [|b4 l]]]]]; simpl in Hn; try discriminate; subst;
  repeat (match goal with b : bool |- _ => destruct b end); reflexivity.
Qed.

Lemma process_pass1_failure (rgb_luminance : R -> R -> R -> R) (rng_state : Type) (xoshiro256_init : rng_state)
  (dt_noise_generator : nat -> R -> R -> bool -> rng_state -> R * rng_state)
  (dt_iop_alpha_copy : list R -> list R -> nat -> nat -> list R)
  (data : Data.dt_iop_filmicrgb_data_t) (piece : dt_pipe_t) (ivoid ovoid : list R)
  (l : list bool) (live : nat) (log : list String.string) :
  colors piece = 4%nat -> show_mask piece = false ->
  (exists i, (i < 5)%nat /\ nth i l true = false) ->
  fst (process rgb_luminance rng_state xoshiro256_init dt_noise_generator dt_iop_alpha_copy data piece
               ivoid ovoid (mk_env (true :: true :: true :: l) live log))
  = process_output rgb_luminance dt_iop_alpha_copy data piece ivoid ivoid ovoid.
Proof.
  intros Hc Hs Hfail. unfold process. rewrite Hc. cbn [Nat.eqb negb].
  cbn [dt_alloc_sse_ps alloc_results live_buffers control_log].
  destruct (mask_clipped_pixels _ _ _ _ _ _ _) as [recover mask_buf].
  rewrite Hs. cbn [andb].
  cbn [dt_alloc_sse_ps alloc_results live_buffers control_log option_map].
  destruct (run_fast piece), recover; try reflexivity.
  cbn [dt_alloc_sse_ps alloc_results live_buffers control_log buf].
  rewrite reconstruct_highlights_alloc_failure by exact Hfail.
  rewrite Bool.andb_false_r. reflexivity.
Qed.

Lemma reconstruct_highlights_alloc_success (input mask reconstructed : list R)
  (variant : dt_iop_filmicrgb_reconstruction_type_t) (ch : nat)
  (data : Data.dt_iop_filmicrgb_data_t) (piece : dt_pipe_t) (l : list bool) (live : nat) (log : list String.string) :
  exists r, reconstruct_highlights input mask reconstructed variant ch data piece
              (mk_env (true :: true :: true :: true :: true :: l) live log) = (true, r, mk_env l live log).
Proof. eexists. reflexivity. Qed.

Lemma reconstruct_ratios_passes_first_failure (rgb_luminance : R -> R -> R -> R) (n : nat) (mask : list R) (data : Data.dt_iop_filmicrgb_data_t)
  (piece : dt_pipe_t) (ch : nat) (reconstructed norms ratios : list R) (e : env) :
  (exists i, (i < 5)%nat /\ nth i (alloc_results e) true = false) ->
  let '(success_2, _, _, _, _) :=
    reconstruct_ratios_passes rgb_luminance (S n) mask data piece ch true reconstructed norms ratios e in
  success_2 = false.
Proof.
  intros Hfail. unfold reconstruct_ratios_passes, for_loop.
  change (seq 0 (S n)) with (0%nat :: seq 1 n). cbn [fold_left].
  destruct (compute_ratios _ _ _ _ _ _ _ _) as [norms' ratios'].
  rewrite reconstruct_highlights_alloc_failure by exact Hfail.
  set (st := (false, _, _, _, _)).
  assert (Hst : let '(success_2, _, _, _, _) := st in success_2 = false) by reflexivity.
  clearbody st. revert st Hst. induction (seq 1 n) as [|j js IH]; intros st Hst.
  - exact Hst.
  - cbn [fold_left]. apply IH. destruct st as [[[[s r] nr] ra] e']. cbv beta iota zeta in Hst |- *.
    subst s. destruct (compute_ratios _ _ _ _ _ _ _ _). reflexivity.
Qed.

Lemma process_pass2_failure (rgb_luminance : R -> R -> R -> R) (rng_state : Type) (xoshiro256_init : rng_state)
  (dt_noise_generator : nat -> R -> R -> bool -> rng_state -> R * rng_state)
  (dt_iop_alpha_copy : list R -> list R -> nat -> nat -> list R)
  (data : Data.dt_iop_filmicrgb_data_t) (piece : dt_pipe_t) (ivoid ovoid : list R)
  (l : list bool) (live : nat) (log : list String.string) :
  colors piece = 4%nat -> show_mask piece = false -> (0 < Data.high_quality_reconstruction data)%nat ->
  (exists i, (i < 5)%nat /\ nth i l true = false) ->
  fst (process rgb_luminance rng_state xoshiro256_init dt_noise_generator dt_iop_alpha_copy data piece
               ivoid ovoid (mk_env (repeat true 10 ++ l) live log))
  = process_output rgb_luminance dt_iop_alpha_copy data piece ivoid ivoid ovoid.
Proof.
  intros Hc Hs Hhq Hfail. unfold process. rewrite Hc. cbn [Nat.eqb negb repeat app].
  cbn [dt_alloc_sse_ps alloc_results live_buffers control_log].
  destruct (mask_clipped_pixels _ _ _ _ _ _ _) as [recover mask_buf].
  rewrite Hs. cbn [andb].
  cbn [dt_alloc_sse_ps alloc_results live_buffers control_log option_map].
  destruct (run_fast piece), recover; try reflexivity.
  cbn [dt_alloc_sse_ps alloc_results live_buffers control_log buf].
  match goal with
  | |- context [reconstruct_highlights ?i ?m ?r ?v ?c ?d ?p (mk_env (true :: true :: true :: true :: true :: ?l') ?lv ?lg)] =>
      destruct (reconstruct_highlights_alloc_success i m r v c d p l' lv lg) as [r1 ->]
  end.
  apply Nat.ltb_lt in Hhq. rewrite Hhq. cbn [andb dt_free_align dt_alloc_sse_ps alloc_results live_buffers control_log].
  destruct (Data.high_quality_reconstruction data) as [|n] eqn:Ehq; [discriminate|].
  match goal with
  | |- context [reconstruct_ratios_passes ?lum (S n) ?m ?d ?p ?c true ?r ?nb ?rb ?e'] =>
      pose proof (reconstruct_ratios_passes_first_failure lum n m d p c r nb rb e' Hfail) as H2;
      destruct (reconstruct_ratios_passes lum (S n) m d p c true r nb rb e') as [[[[s2 r2] n2] ra2] e2]
  end.
  cbv beta iota zeta in H2. subst s2. reflexivity.
Qed.

(** C4: if any of the five scratch allocations of [reconstruct_highlights]
    fails, it logs a diagnostic, frees every buffer it did allocate (the
    count of live buffers is back to its value at the call), leaves the
    reconstructed buffer unwritten and returns failure; and [process] (on
    RGB input, outside the mask-display mode) then tone-maps the original
    input buffer, whether the failure happens in the first reconstruction
    pass (on RGB) or in the second one (on ratios). *)
Theorem reconstruct_highlights_alloc_failure_fallback :
  (forall (input mask reconstructed : list R) (variant : dt_iop_filmicrgb_reconstruction_type_t) (ch : nat)
     (data : Data.dt_iop_filmicrgb_data_t) (piece : dt_pipe_t) (e : env),
     (exists i, (i < 5)%nat /\ nth i (alloc_results e) true = false) ->
     let '(success, reconstructed', e') := reconstruct_highlights input mask reconstructed variant ch data piece e in
     success = false /\ reconstructed' = reconstructed /\ live_buffers e' = live_buffers e /\
     control_log e' = control_log e ++ [Msg.reconstruct_highlights_failed]) /\
  (forall (rgb_luminance : R -> R -> R -> R) (rng_state : Type) (xoshiro256_init : rng_state)
     (dt_noise_generator : nat -> R -> R -> bool -> rng_state -> R * rng_state)
     (dt_iop_alpha_copy : list R -> list R -> nat -> nat -> list R)
     (data : Data.dt_iop_filmicrgb_data_t) (piece : dt_pipe_t) (ivoid ovoid : list R)
     (l : list bool) (live : nat) (log : list String.string),
     colors piece = 4%nat -> show_mask piece = false ->
     (exists i, (i < 5)%nat /\ nth i l true = false) ->
     fst (process rgb_luminance rng_state xoshiro256_init dt_noise_generator dt_iop_alpha_copy data piece
                  ivoid ovoid (mk_env (true :: true :: true :: l) live log))
     = process_output rgb_luminance dt_iop_alpha_copy data piece ivoid ivoid ovoid) /\
  (forall (rgb_luminance : R -> R -> R -> R) (rng_state : Type) (xoshiro256_init : rng_state)
     (dt_noise_generator : nat -> R -> R -> bool -> rng_state -> R * rng_state)
     (dt_iop_alpha_copy : list R -> list R -> nat -> nat -> list R)
     (data : Data.dt_iop_filmicrgb_data_t) (piece : dt_pipe_t) (ivoid ovoid : list R)
     (l : list bool) (live : nat) (log : list String.string),
     colors piece = 4%nat -> show_mask piece = false -> (0 < Data.high_quality_reconstruction data)%nat ->
     (exists i, (i < 5)%nat /\ nth i l true = false) ->
     fst (process rgb_luminance rng_state xoshiro256_init dt_noise_generator dt_iop_alpha_copy data piece
                  ivoid ovoid (mk_env (repeat true 10 ++ l) live log))
     = process_output rgb_luminance dt_iop_alpha_copy data piece ivoid ivoid ovoid).
Proof.
  split; [|split].
  - intros input mask reconstructed variant ch data piece e Hfail.
    rewrite reconstruct_highlights_alloc_failure by exact Hfail. cbn. auto.
  - intros. apply process_pass1_failure; assumption.
  - intros. apply process_pass2_failure; assumption.
Qed.

Lemma reconstruct_highlights_alloc_failure_fallback_witness :
  (exists i, (i < 5)%nat /\ nth i (alloc_results (mk_env [true; false] 0 [])) true = false) /\
  let '(success, reconstructed', e') :=
    reconstruct_highlights [1; 1; 1; 1] [1] [0; 0; 0; 0] DT_FILMIC_RECONSTRUCT_RGB 4 zero_data pipe_rgb
                           (mk_env [true; false] 0 []) in
  success = false /\ reconstructed' = [0; 0; 0; 0] /\ live_buffers e' = live_buffers (mk_env [true; false] 0 []) /\
  control_log e' = control_log (mk_env [true; false] 0 []) ++ [Msg.reconstruct_highlights_failed].
Proof.
  assert (Hfail : exists i, (i < 5)%nat /\ nth i (alloc_results (mk_env [true; false] 0 [])) true = false)
    by (exists 1%nat; split; [lia | reflexivity]).
  split; [exact Hfail|].
  exact (proj1 reconstruct_highlights_alloc_failure_fallback [1; 1; 1; 1] [1] [0; 0; 0; 0]
           DT_FILMIC_RECONSTRUCT_RGB 4%nat zero_data pipe_rgb (mk_env [true; false] 0 []) Hfail).
Defined.

(** ** Reconstruction with an empty mask *)

Lemma pixel_of_index (k width height : nat) :
  (k < height * width * 4)%nat -> (k / 4 < width * height)%nat.
Proof. intros Hk. apply Nat.Div0.div_lt_upper_bound. lia. Qed.

Lemma init_reconstruct_zero_mask (input mask reconstructed : list R) (width height : nat) :
  length input = (width * height * 4)%nat -> length reconstructed = (width * height * 4)%nat ->
  (forall p, (p < width * height)%nat -> get mask p = 0) ->
  init_reconstruct input mask reconstructed width height 4 = input.
Proof.
  intros Hin Hrec Hmask. unfold init_reconstruct.
  loop_invariant (fun k (r : list R) => length r = length reconstructed /\
                    forall j, (j < k)%nat -> get r j = get input j).
  - split; [reflexivity | intros; lia].
  - intros k r Hk (Hl & IH). split; [rewrite length_upd; exact Hl|].
    intros j Hj. destruct (Nat.eq_dec j k) as [->|Hne].
    + rewrite get_upd_eq by lia. rewrite Hmask by (apply (pixel_of_index k width height); lia). ring.
    + rewrite get_upd_neq by lia. apply IH. lia.
  - destruct Hloop as (Hl & H). apply nth_ext with (d := 0) (d' := 0); [lia|].
    intros j Hj. apply H. lia.
Qed.

Lemma wavelets_reconstruct_zero_mask (grey_of : R -> R -> R) (texture_weight : R)
  (HF LF texture mask reconstructed : list R) (width height : nat)
  (gamma gamma_comp beta beta_comp delta : R) (s scales : nat) :
  (forall p, (p < width * height)%nat -> get mask p = 0) ->
  wavelets_reconstruct grey_of texture_weight HF LF texture mask reconstructed width height 4
                       gamma gamma_comp beta beta_comp delta s scales = reconstructed.
Proof.
  intros Hmask. unfold wavelets_reconstruct.
  loop_invariant (fun (_ : nat) (r : list R) => r = reconstructed).
  - reflexivity.
  - intros i r Hi ->. cbv zeta. rewrite div_mul_4, Hmask by lia.
    loop_invariant (fun (_ : nat) (r : list R) => r = reconstructed).
    + reflexivity.
    + intros c r Hc ->. apply upd_same_value. ring.
    + exact Hloop.
  - exact Hloop.
Qed.

Lemma reconstruct_scale_zero_mask (input mask : list R) (variant : dt_iop_filmicrgb_reconstruction_type_t)
  (width height : nat) (gamma gamma_comp beta beta_comp delta : R) (scales s : nat) (st : scale_state) :
  (forall p, (p < width * height)%nat -> get mask p = 0) ->
  st_reconstructed (reconstruct_scale input mask variant width height 4 gamma gamma_comp beta beta_comp delta
                                      scales s st) = st_reconstructed st.
Proof.
  intros Hmask. unfold reconstruct_scale. cbv zeta.
  destruct variant.
  - destruct (wavelets_detail_level_RGB _ _ _ _ _ _ _) as [hf hg]. cbn [st_reconstructed].
    apply wavelets_reconstruct_zero_mask. exact Hmask.
  - destruct (wavelets_detail_level_ratios _ _ _ _ _ _ _) as [hf hg]. cbn [st_reconstructed].
    apply wavelets_reconstruct_zero_mask. exact Hmask.
Qed.

(** C6: with a mask that is zero at every pixel, [reconstruct_highlights]
    (its scratch allocations succeeding) leaves the reconstructed buffer
    equal to the input buffer: [init_reconstruct] writes
    [in * (1 - 0) = in], and every scale adds increments multiplied by
    [alpha = 0], which change no element. *)
Theorem reconstruct_highlights_zero_mask (input mask reconstructed : list R)
  (variant : dt_iop_filmicrgb_reconstruction_type_t) (data : Data.dt_iop_filmicrgb_data_t) (piece : dt_pipe_t)
  (l : list bool) (live : nat) (log : list String.string)
  (Hin : length input = (roi_out_width piece * roi_out_height piece * 4)%nat)
  (Hrec : length reconstructed = (roi_out_width piece * roi_out_height piece * 4)%nat)
  (Hmask : forall p, (p < roi_out_width piece * roi_out_height piece)%nat -> get mask p = 0) :
  init_reconstruct input mask reconstructed (roi_out_width piece) (roi_out_height piece) 4 = input /\
  (forall (grey_of : R -> R -> R) (texture_weight : R) (HF LF texture r : list R)
          (gamma gamma_comp beta beta_comp delta : R) (s scales : nat),
     wavelets_reconstruct grey_of texture_weight HF LF texture mask r (roi_out_width piece) (roi_out_height piece) 4
                          gamma gamma_comp beta beta_comp delta s scales = r) /\
  let '(success, reconstructed', _) :=
    reconstruct_highlights input mask reconstructed variant 4 data piece
                           (mk_env (true :: true :: true :: true :: true :: l) live log) in
  success = true /\ reconstructed' = input.
Proof.
  split; [apply init_reconstruct_zero_mask; assumption|].
  split; [intros; apply wavelets_reconstruct_zero_mask; exact Hmask|].
  unfold reconstruct_highlights. cbn [dt_alloc_sse_ps alloc_results live_buffers control_log].
  cbv zeta. split; [reflexivity|].
  loop_invariant (fun (_ : nat) st => st_reconstructed st = input).
  - cbn [st_reconstructed]. apply init_reconstruct_zero_mask; assumption.
  - intros s st _ Hst. rewrite reconstruct_scale_zero_mask by exact Hmask. exact Hst.
  - exact Hloop.
Qed.

Lemma reconstruct_highlights_zero_mask_witness :
  length [0.5; 2; 0.25; 1] = (roi_out_width pipe_rgb * roi_out_height pipe_rgb * 4)%nat /\
  length [0; 0; 0; 0] = (roi_out_width pipe_rgb * roi_out_height pipe_rgb * 4)%nat /\
  (forall p, (p < roi_out_width pipe_rgb * roi_out_height pipe_rgb)%nat -> get [0] p = 0) /\
  init_reconstruct [0.5; 2; 0.25; 1] [0] [0; 0; 0; 0] (roi_out_width pipe_rgb) (roi_out_height pipe_rgb) 4
    = [0.5; 2; 0.25; 1] /\
  (forall (grey_of : R -> R -> R) (texture_weight : R) (HF LF texture r : list R)
          (gamma gamma_comp beta beta_comp delta : R) (s scales : nat),
     wavelets_reconstruct grey_of texture_weight HF LF texture [0] r (roi_out_width pipe_rgb) (roi_out_height pipe_rgb) 4
                          gamma gamma_comp beta beta_comp delta s scales = r) /\
  let '(success, reconstructed', _) :=
    reconstruct_highlights [0.5; 2; 0.25; 1] [0] [0; 0; 0; 0] DT_FILMIC_RECONSTRUCT_RGB 4 zero_data pipe_rgb
                           (mk_env [true; true; true; true; true] 0 []) in
  success = true /\ reconstructed' = [0.5; 2; 0.25; 1].
Proof.
  assert (Hm : forall p, (p < roi_out_width pipe_rgb * roi_out_height pipe_rgb)%nat -> get [0] p = 0).
  { intros p Hp. simpl in Hp. assert (p = 0%nat) by lia. subst p. reflexivity. }
  split; [reflexivity|]. split; [reflexivity|]. split; [exact Hm|].
  exact (reconstruct_highlights_zero_mask [0.5; 2; 0.25; 1] [0] [0; 0; 0; 0] DT_FILMIC_RECONSTRUCT_RGB
           zero_data pipe_rgb [] 0 [] eq_refl eq_refl Hm).
Defined.

(** ** Parameters of older versions *)

(** [legacy_params] converts only from version 1 or 2 to version 3: any
    other pair of versions returns [1] and leaves [*new_params] untouched. *)
Theorem legacy_params_unsupported (d : dt_iop_filmicrgb_params_t) (o1 : V1.dt_iop_filmicrgb_params_v1_t)
  (o2 : V2.dt_iop_filmicrgb_params_v2_t) (old_version new_version : Z) (n : dt_iop_filmicrgb_params_t)
  (H1 : ~ (old_version = 1 /\ new_version = 3)%Z) (H2 : ~ (old_version = 2 /\ new_version = 3)%Z) :
  legacy_params d o1 o2 old_version new_version n = (1%Z, n).
Proof.
  unfold legacy_params.
  destruct (Z.eqb_spec old_version 1), (Z.eqb_spec old_version 2), (Z.eqb_spec new_version 3);
    cbn [andb]; try reflexivity; exfalso; lia.
Qed.

Lemma legacy_params_unsupported_witness :
  ~ (3 = 1 /\ 4 = 3)%Z /\ ~ (3 = 2 /\ 4 = 3)%Z /\
  legacy_params default_params (params_v1_fields default_params) (params_v2_fields default_params) 3 4 default_params
  = (1%Z, default_params).
Proof.
  assert (H1 : ~ (3 = 1 /\ 4 = 3)%Z) by lia. assert (H2 : ~ (3 = 2 /\ 4 = 3)%Z) by lia.
  split; [exact H1|]. split; [exact H2|].
  exact (legacy_params_unsupported default_params (params_v1_fields default_params) (params_v2_fields default_params)
           3 4 default_params H1 H2).
Defined.

(** Converting version-2 parameters returns [0] and carries every field of
    the old record over unchanged; of the two fields added in version 3,
    [noise_level] is set to [0] and [noise_distribution] is the default's. *)
Theorem legacy_params_v2_roundtrip (d : dt_iop_filmicrgb_params_t) (o1 : V1.dt_iop_filmicrgb_params_v1_t)
  (o2 : V2.dt_iop_filmicrgb_params_v2_t) (n : dt_iop_filmicrgb_params_t) :
  let '(r, n') := legacy_params d o1 o2 2 3 n in
  r = 0%Z /\ params_v2_fields n' = o2 /\ noise_level n' = 0 /\ noise_distribution n' = noise_distribution d.
Proof. destruct o2. cbn. repeat split. Qed.

(** Converting version-1 parameters returns [0], carries every field of the
    old record over, and sets the version-2 fields so that old edits render
    as before: color science v1 ("v3 (2019)"), reconstruction threshold
    [+6] EV and feather [3], no high-quality reconstruction, no noise, custom
    grey and auto hardness on, a hard toe and a soft shoulder; the three
    reconstruction balances and the noise distribution are the default's. *)
Theorem legacy_params_v1_upgrade (d : dt_iop_filmicrgb_params_t) (o1 : V1.dt_iop_filmicrgb_params_v1_t)
  (o2 : V2.dt_iop_filmicrgb_params_v2_t) (n : dt_iop_filmicrgb_params_t) :
  let '(r, n') := legacy_params d o1 o2 1 3 n in
  r = 0%Z /\ params_v1_fields n' = o1 /\
  reconstruct_threshold n' = 6 /\ reconstruct_feather n' = 3 /\ version n' = DT_FILMIC_COLORSCIENCE_V1 /\
  high_quality_reconstruction n' = 0%nat /\ noise_level n' = 0 /\ custom_grey n' = true /\
  auto_hardness n' = true /\ shadows n' = DT_FILMIC_CURVE_POLY_4 /\ highlights n' = DT_FILMIC_CURVE_POLY_3 /\
  reconstruct_bloom_vs_details n' = reconstruct_bloom_vs_details d /\
  reconstruct_grey_vs_color n' = reconstruct_grey_vs_color d /\
  reconstruct_structure_vs_texture n' = reconstruct_structure_vs_texture d /\
  noise_distribution n' = noise_distribution d.
Proof. destruct o1. cbn. repeat split. Qed.

Lemma Rpower_2_6 : Rpower 2 6 = 64.
Proof. replace 6 with (INR 6) by (simpl; lra). rewrite Rpower_pow by lra. simpl. lra. Qed.

Lemma exp2f_4 : exp2f (12 / 3) = 16.
Proof. unfold exp2f. replace (12 / 3) with (INR 4) by (simpl; lra). rewrite Rpower_pow by lra. simpl. lra. Qed.

Lemma powf_2 (y : R) : powf 2 y = Rpower 2 y.
Proof.
  unfold powf. destruct (Req_EM_T 2 0) as [H|_]; [lra|]. rewrite Rabs_right by lra. reflexivity.
Qed.

(** After an upgrade from version 1, the committed clipping threshold is
    [2^6 = 64] times the white level [2^white * grey]: [mask_clipped_pixels]
    then flags no pixel whose Euclidean norm [sqrt(R^2 + G^2 + B^2)] stays
    within [48] times the white level (for a positive grey),
    so the highlights reconstruction is skipped on such images. *)
Theorem legacy_params_v1_reconstruction_off (d : dt_iop_filmicrgb_params_t) (o1 : V1.dt_iop_filmicrgb_params_v1_t)
  (o2 : V2.dt_iop_filmicrgb_params_v2_t) (n : dt_iop_filmicrgb_params_t) (data : Data.dt_iop_filmicrgb_data_t)
  (input mask : list R) (width height : nat)
  (Hgrey : 0 < V1.grey_point_source o1)
  (Himg : forall p, (p < height * width)%nat ->
          spec_pix_max input p <= 48 * Rpower 2 (V1.white_point_source o1) * (V1.grey_point_source o1 / 100)) :
  let data' := commit_params (snd (legacy_params d o1 o2 1 3 n)) data in
  fst (mask_clipped_pixels input mask (Data.reconstruct_feather data' / Data.reconstruct_threshold data')
                           (Data.reconstruct_feather data') width height 4) = false.
Proof.
  cbv zeta. rewrite mask_clipped_pixels_flag, spec_clipped_count_zero; [reflexivity|].
  intros p Hp. specialize (Himg p Hp).
  destruct o1 as [g b w sf gt bt wt op lat con sat bal pc]. cbn in Hgrey, Himg |- *.
  rewrite exp2f_4, powf_2, Rpower_plus, Rpower_2_6.
  pose proof (exp_pos (w * ln 2)) as Hw. fold (Rpower 2 w) in Hw.
  unfold spec_argument. set (pm := spec_pix_max input p) in *.
  assert (Hpm : 0 <= pm) by apply sqrt_pos.
  assert (HT : 0 < Rpower 2 w * 64 * (g / 100)) by (apply Rmult_lt_0_compat; lra).
  assert (Hq : pm * (16 / (Rpower 2 w * 64 * (g / 100))) <= 12).
  { unfold Rdiv at 1. rewrite <- Rmult_assoc.
    apply Rmult_le_reg_r with (Rpower 2 w * 64 * (g / 100)); [exact HT|].
    rewrite Rmult_assoc, Rinv_l by lra. lra. }
  lra.
Qed.

Lemma legacy_params_v1_reconstruction_off_witness :
  0 < V1.grey_point_source (params_v1_fields default_params) /\
  (forall p, (p < 1 * 1)%nat ->
     spec_pix_max [0; 0; 0; 1] p <= 48 * Rpower 2 (V1.white_point_source (params_v1_fields default_params))
                                     * (V1.grey_point_source (params_v1_fields default_params) / 100)) /\
  let data' := commit_params (snd (legacy_params default_params (params_v1_fields default_params)
                                    (params_v2_fields default_params) 1 3 default_params)) zero_data in
  fst (mask_clipped_pixels [0; 0; 0; 1] [0] (Data.reconstruct_feather data' / Data.reconstruct_threshold data')
                           (Data.reconstruct_feather data') 1 1 4) = false.
Proof.
  assert (Hg : 0 < V1.grey_point_source (params_v1_fields default_params)) by (cbn; lra).
  assert (Himg : forall p, (p < 1 * 1)%nat ->
     spec_pix_max [0; 0; 0; 1] p <= 48 * Rpower 2 (V1.white_point_source (params_v1_fields default_params))
                                     * (V1.grey_point_source (params_v1_fields default_params) / 100)).
  { intros p Hp. assert (p = 0%nat) by lia. subst p. cbn.
    change (spec_pix_max [0; 0; 0; 1] 0) with (sqrt (0 ^ 2 + 0 ^ 2 + 0 ^ 2)).
    replace (0 ^ 2 + 0 ^ 2 + 0 ^ 2) with 0 by ring. rewrite sqrt_0.
    pose proof (exp_pos (4 * ln 2)). unfold Rpower. nra. }
  split; [exact Hg|]. split; [exact Himg|].
  exact (legacy_params_v1_reconstruction_off default_params (params_v1_fields default_params)
           (params_v2_fields default_params) default_params zero_data [0; 0; 0; 1] [0] 1 1 Hg Himg).
Defined.

(** ** The color pickers and the default parameters *)

Lemma CLAMP_range (a lo hi : R) : lo <= hi -> lo <= CLAMP a lo hi <= hi.
Proof. intros H. unfold CLAMP. repeat destruct Rlt_dec; lra. Qed.

(** With a target grey [t] in [(0, 100)] and [black < 0 < white], the
    hardness [log(t / 100) / log(-black / (white - black))] makes the display
    grey [powf(t / 100, 1 / hardness)] the log-encoded grey. *)
Lemma auto_power_grey (t b w : R) :
  0 < t < 100 -> b < 0 < w ->
  powf (t / 100) (1 / (logf (t / 100) / logf (- b / (w - b)))) = fabsf b / (w - b).
Proof.
  intros Ht Hbw. unfold logf, fabsf. rewrite Rabs_left by lra.
  set (r := - b / (w - b)).
  assert (Hr0 : 0 < r) by (unfold r; apply Rdiv_lt_0_compat; lra).
  assert (Hr1 : r < 1).
  { unfold r. apply Rmult_lt_reg_r with (w - b); [lra|]. unfold Rdiv. rewrite Rmult_assoc, Rinv_l by lra. lra. }
  assert (Hlr : ln r < 0) by (rewrite <- ln_1; apply ln_increasing; lra).
  assert (Hlt : ln (t / 100) < 0) by (rewrite <- ln_1; apply ln_increasing; lra).
  unfold powf. destruct (Req_EM_T (t / 100) 0) as [H0|_]; [lra|].
  rewrite Rabs_right by lra. unfold Rpower.
  replace (1 / (ln (t / 100) / ln r) * ln (t / 100)) with (ln r) by (field; lra).
  rewrite exp_ln by exact Hr0. reflexivity.
Qed.

(** The committed display grey of parameters whose hardness was set as by
    the pickers. *)
Lemma commit_greys_auto (p : dt_iop_filmicrgb_params_t) :
  (custom_grey p = true \/ grey_point_target p = 18.45) -> 0 < grey_point_target p < 100 ->
  black_point_source p < 0 < white_point_source p ->
  output_power p = logf (grey_point_target p / 100)
                   / logf (- black_point_source p / (white_point_source p - black_point_source p)) ->
  snd (commit_greys p) = fabsf (black_point_source p) / (white_point_source p - black_point_source p).
Proof.
  intros Hc Ht Hbw Hop. unfold commit_greys. rewrite Hop.
  destruct (custom_grey p); cbn [snd].
  - apply auto_power_grey; assumption.
  - destruct Hc as [Hc|Hc]; [discriminate|].
    replace 0.1845 with (grey_point_target p / 100) by (rewrite Hc; lra).
    apply auto_power_grey; assumption.
Qed.



Lemma black_from_EVmin (x sf : R) :
  -100 < sf -> -16 <= fmaxf (CLAMP x (-16) (-1) * (1 + sf / 100)) (-16) < 0.
Proof.
  intros Hsf. pose proof (CLAMP_range x (-16) (-1) ltac:(lra)).
  unfold fmaxf, Rmax. destruct (Rle_dec _ _); nra.
Qed.




(** The black-point picker: while the GUI is being reset it changes
    nothing; otherwise, for a safety factor above [-100] %, it sets the
    black exposure in [[-16, 0)] EV whatever the picked color, keeps the
    white exposure and the grey, and sets the hardness; with a positive
    white exposure, a target grey in [(0, 100)] % and either the custom grey
    on or the target grey at its default [18.45] %, the committed display
    grey then equals the log-encoded grey. *)
Theorem apply_auto_black_grey (rgb_luminance : R -> R -> R -> R) (picked_color_min : R * R * R)
  (p : dt_iop_filmicrgb_params_t)
  (Hsf : -100 < security_factor p) (Hw : 0 < white_point_source p) (Ht : 0 < grey_point_target p < 100)
  (Hc : custom_grey p = true \/ grey_point_target p = 18.45) :
  apply_auto_black rgb_luminance true picked_color_min p = p /\
  let p' := apply_auto_black rgb_luminance false picked_color_min p in
  -16 <= black_point_source p' < 0 /\ white_point_source p' = white_point_source p /\
  grey_point_source p' = grey_point_source p /\
  snd (commit_greys p') = fabsf (black_point_source p') / (white_point_source p' - black_point_source p').
Proof.
  split; [reflexivity|]. cbv zeta. unfold apply_auto_black.
  set (black := fmaxf _ (-16)).
  assert (Hb : -16 <= black < 0) by (apply black_from_EVmin; exact Hsf).
  clearbody black.
  split; [exact Hb|]. split; [reflexivity|]. split; [reflexivity|].
  apply commit_greys_auto; cbn; [exact Hc | exact Ht | lra | reflexivity].
Qed.

Lemma apply_auto_black_grey_witness :
  -100 < security_factor default_params /\ 0 < white_point_source default_params /\
  0 < grey_point_target default_params < 100 /\
  (custom_grey default_params = true \/ grey_point_target default_params = 18.45) /\
  apply_auto_black (fun r _ _ => r) true (0.001, 0.002, 0.003) default_params = default_params /\
  let p' := apply_auto_black (fun r _ _ => r) false (0.001, 0.002, 0.003) default_params in
  -16 <= black_point_source p' < 0 /\ white_point_source p' = white_point_source default_params /\
  grey_point_source p' = grey_point_source default_params /\
  snd (commit_greys p') = fabsf (black_point_source p') / (white_point_source p' - black_point_source p').
Proof.
  assert (Hsf : -100 < security_factor default_params) by (cbn; lra).
  assert (Hw : 0 < white_point_source default_params) by (cbn; lra).
  assert (Ht : 0 < grey_point_target default_params < 100) by (cbn; lra).
  assert (Hc : custom_grey default_params = true \/ grey_point_target default_params = 18.45) by (right; reflexivity).
  split; [exact Hsf|]. split; [exact Hw|]. split; [exact Ht|]. split; [exact Hc|].
  exact (apply_auto_black_grey (fun r _ _ => r) (0.001, 0.002, 0.003) default_params Hsf Hw Ht Hc).
Defined.




(** [reload_defaults] copies the default parameters into the module's
    parameters.  Without an image, or outside the scene-referred workflow,
    the black and white exposures and the hardness are their defaults
    [-8], [4] and [4] EV; in the scene-referred workflow on an image, they
    follow the exposure bias, and for a bias in [(-15.5, 5.5)] EV (and a
    target grey in [(0, 100)] %) the hardness makes the committed display
    grey equal the log-encoded grey. *)
Theorem reload_defaults_grey (d : dt_iop_filmicrgb_params_t) (has_image scene_referred : bool) (exposure_bias : R)
  (Hbias : -15.5 < exposure_bias < 5.5) (Ht : 0 < grey_point_target d < 100)
  (Hc : custom_grey d = true \/ grey_point_target d = 18.45) :
  let '(d', p') := reload_defaults d has_image scene_referred exposure_bias in
  p' = d' /\ grey_point_target d' = grey_point_target d /\ custom_grey d' = custom_grey d /\
  (andb has_image scene_referred = false ->
     black_point_source d' = -8 /\ white_point_source d' = 4 /\ output_power d' = 4) /\
  (andb has_image scene_referred = true ->
     black_point_source d' = -8 + 0.5 * (0.5 - exposure_bias) /\
     white_point_source d' = 4 + 0.8 * (0.5 - exposure_bias) /\
     snd (commit_greys d') = fabsf (black_point_source d') / (white_point_source d' - black_point_source d')).
Proof.
  unfold reload_defaults. destruct (andb has_image scene_referred) eqn:E.
  - split; [reflexivity|]. split; [reflexivity|]. split; [reflexivity|].
    split; [discriminate|]. intros _. cbn.
    split; [ring|]. split; [ring|].
    apply commit_greys_auto; cbn; [exact Hc | exact Ht | lra | reflexivity].
  - split; [reflexivity|]. split; [reflexivity|]. split; [reflexivity|].
    split; [intros _; cbn; repeat split | discriminate].
Qed.

Lemma reload_defaults_grey_witness :
  -15.5 < 0 < 5.5 /\ 0 < grey_point_target default_params < 100 /\
  (custom_grey default_params = true \/ grey_point_target default_params = 18.45) /\
  let '(d', p') := reload_defaults default_params true true 0 in
  p' = d' /\ grey_point_target d' = grey_point_target default_params /\ custom_grey d' = custom_grey default_params /\
  (andb true true = false ->
     black_point_source d' = -8 /\ white_point_source d' = 4 /\ output_power d' = 4) /\
  (andb true true = true ->
     black_point_source d' = -8 + 0.5 * (0.5 - 0) /\
     white_point_source d' = 4 + 0.8 * (0.5 - 0) /\
     snd (commit_greys d') = fabsf (black_point_source d') / (white_point_source d' - black_point_source d')).
Proof.
  assert (Hb : -15.5 < 0 < 5.5) by lra.
  assert (Ht : 0 < grey_point_target default_params < 100) by (cbn; lra).
  assert (Hc : custom_grey default_params = true \/ grey_point_target default_params = 18.45) by (right; reflexivity).
  split; [exact Hb|]. split; [exact Ht|]. split; [exact Hc|].
  exact (reload_defaults_grey default_params true true 0 Hb Ht Hc).
Defined.

(** ** Buffers written element by element *)

Lemma for_loop_upd_pointwise (n : nat) (f : nat -> R) (b : list R) :
  length (for_loop n (fun k b => upd b k (f k)) b) = length b /\
  forall j, get (for_loop n (fun k b => upd b k (f k)) b) j =
            if (j <? n)%nat then (if (j <? length b)%nat then f j else 0) else get b j.
Proof.
  loop_invariant (fun i (r : list R) => length r = length b /\
    forall j, get r j = if (j <? i)%nat then (if (j <? length b)%nat then f j else 0) else get b j).
  - split; [reflexivity|]. intros j. reflexivity.
  - intros i r Hi (Hl & IH). split; [rewrite length_upd; exact Hl|]. intros j.
    destruct (Nat.eq_dec j i) as [->|Hne].
    + replace (i <? S i)%nat with true by (symmetry; apply Nat.ltb_lt; lia).
      destruct (Nat.ltb_spec i (length b)).
      * apply get_upd_eq; lia.
      * unfold get. rewrite nth_overflow; [reflexivity|]. rewrite length_upd; lia.
    + rewrite get_upd_neq by lia. rewrite IH.
      destruct (Nat.ltb_spec j i), (Nat.ltb_spec j (S i)); try reflexivity; lia.
  - exact Hloop.
Qed.

(** [init_reconstruct] starts the reconstruction from the part of the
    input that is not clipped: every element [j] of the first
    [height * width * ch] becomes [in[j] * (1 - mask[j / ch])], the rest of
    the buffer is left as it was. *)
Theorem init_reconstruct_unclipped_part (input mask reconstructed : list R) (width height ch : nat) :
  let r := init_reconstruct input mask reconstructed width height ch in
  length r = length reconstructed /\
  forall j, (j < length reconstructed)%nat ->
    get r j = if (j <? height * width * ch)%nat then get input j * (1 - get mask (j / ch))
              else get reconstructed j.
Proof.
  cbv zeta. unfold init_reconstruct.
  destruct (for_loop_upd_pointwise (height * width * ch) (fun k => get input k * (1 - get mask (k / ch)))
              reconstructed) as [Hl Hg].
  split; [exact Hl|]. intros j Hj. rewrite Hg.
  destruct (Nat.ltb_spec j (length reconstructed)); [reflexivity | lia].
Qed.

(** ** The mask display of [process] *)

(** When the mask display is on ([show_mask]) and the mask is allocated,
    [process] on an RGBA buffer writes, in the four channels of every
    output pixel, the clipping weight [1 / (1 + 2^(feather - |RGB| *
    feather / threshold))] of the input pixel; it neither tone-maps nor
    reconstructs, and it frees the mask before it returns. *)
Theorem process_show_mask (rgb_luminance : R -> R -> R -> R) (rng_state : Type) (xoshiro256_init : rng_state)
  (dt_noise_generator : nat -> R -> R -> bool -> rng_state -> R * rng_state)
  (dt_iop_alpha_copy : list R -> list R -> nat -> nat -> list R)
  (data : Data.dt_iop_filmicrgb_data_t) (piece : dt_pipe_t) (ivoid ovoid : list R) (e : env)
  (Hc : colors piece = 4%nat) (Hs : show_mask piece = true)
  (Ha : nth 0 (alloc_results e) true = true)
  (Hlen : length ovoid = (roi_out_width piece * roi_out_height piece * 4)%nat) :
  let '(out, e') := process rgb_luminance rng_state xoshiro256_init dt_noise_generator dt_iop_alpha_copy
                            data piece ivoid ovoid e in
  length out = length ovoid /\
  (forall j, (j < length ovoid)%nat ->
     get out j = spec_weight ivoid (Data.reconstruct_feather data) (Data.reconstruct_threshold data) (j / 4)) /\
  alloc_results e' = tl (alloc_results e) /\ live_buffers e' = live_buffers e /\ control_log e' = control_log e.
Proof.
  destruct e as [l live log]. cbn [alloc_results] in Ha.
  set (w := roi_out_width piece) in *. set (h := roi_out_height piece) in *.
  assert (Halloc : dt_alloc_sse_ps (w * h) (mk_env l live log) = (Some (repeat 0 (w * h)), mk_env (tl l) (S live) log))
    by (destruct l as [|[] l]; [reflexivity | reflexivity | discriminate]).
  unfold process. rewrite Hc. cbn [Nat.eqb negb]. fold w h. rewrite Halloc. cbn [buf].
  pose proof (mask_clipped_pixels_weights ivoid (repeat 0 (w * h)) (Data.reconstruct_feather data)
                (Data.reconstruct_threshold data) w h (repeat_length _ _)) as Hw.
  destruct (mask_clipped_pixels _ _ _ _ _ _ _) as [recover mask_buf].
  cbn [snd option_map] in Hw |- *. rewrite Hs. cbn [andb dt_free_align alloc_results live_buffers control_log pred].
  unfold display_mask.
  destruct (for_loop_upd_pointwise (h * w * 4) (fun k => get mask_buf (k / 4)) ovoid) as [Hl Hg].
  split; [exact Hl|]. split; [|repeat split].
  intros j Hj. rewrite Hg. replace (j <? h * w * 4)%nat with true by (symmetry; apply Nat.ltb_lt; lia).
  replace (j <? length ovoid)%nat with true by (symmetry; apply Nat.ltb_lt; lia).
  apply Hw. apply Nat.Div0.div_lt_upper_bound. lia.
Qed.

Lemma process_show_mask_witness :
  colors (mk_pipe 4 1 1 1 1 1 1 1 true false false) = 4%nat /\ show_mask (mk_pipe 4 1 1 1 1 1 1 1 true false false) = true /\
  nth 0 (alloc_results (mk_env [] 0 [])) true = true /\
  length [0; 0; 0; 0] = (roi_out_width (mk_pipe 4 1 1 1 1 1 1 1 true false false)
                         * roi_out_height (mk_pipe 4 1 1 1 1 1 1 1 true false false) * 4)%nat /\
  let '(out, e') := process (fun r _ _ => r) unit tt (fun _ x _ _ s => (x, s)) (fun _ o _ _ => o)
                            zero_data (mk_pipe 4 1 1 1 1 1 1 1 true false false) [1; 1; 1; 1] [0; 0; 0; 0]
                            (mk_env [] 0 []) in
  length out = length [0; 0; 0; 0] /\
  (forall j, (j < length [0; 0; 0; 0])%nat ->
     get out j = spec_weight [1; 1; 1; 1] (Data.reconstruct_feather zero_data)
                             (Data.reconstruct_threshold zero_data) (j / 4)) /\
  alloc_results e' = tl (alloc_results (mk_env [] 0 [])) /\ live_buffers e' = live_buffers (mk_env [] 0 []) /\
  control_log e' = control_log (mk_env [] 0 []).
Proof.
  split; [reflexivity|]. split; [reflexivity|]. split; [reflexivity|]. split; [reflexivity|].
  exact (process_show_mask (fun r _ _ => r) unit tt (fun _ x _ _ s => (x, s)) (fun _ o _ _ => o)
           zero_data (mk_pipe 4 1 1 1 1 1 1 1 true false false) [1; 1; 1; 1] [0; 0; 0; 0]
           (mk_env [] 0 []) eq_refl eq_refl eq_refl eq_refl).
Defined.

(** ** Buffers allocated and freed *)

Lemma alloc_live (n : nat) (e : env) :
  live_buffers (snd (dt_alloc_sse_ps n e)) =
    (live_buffers e + match fst (dt_alloc_sse_ps n e) with Some _ => 1 | None => 0 end)%nat /\
  control_log (snd (dt_alloc_sse_ps n e)) = control_log e.
Proof. destruct e as [[|[] l] live log]; cbn; split; lia || reflexivity. Qed.

(** Names the result of the first allocation of the goal and records its
    effect on the environment. *)
Ltac alloc_step :=
  match goal with
  | |- context [dt_alloc_sse_ps ?n ?e] =>
      let H := fresh "Halloc" in
      pose proof (alloc_live n e) as H;
      let b := fresh "b" in let e' := fresh "e" in
      destruct (dt_alloc_sse_ps n e) as [b e']; cbn [fst snd] in H;
      let Hl := fresh "Hlive" in let Hc := fresh "Hlog" in destruct H as [Hl Hc]
  end.

Lemma reconstruct_highlights_env (input mask reconstructed : list R)
  (variant : dt_iop_filmicrgb_reconstruction_type_t) (ch : nat)
  (data : Data.dt_iop_filmicrgb_data_t) (piece : dt_pipe_t) (e : env) :
  let '(success, _, e') := reconstruct_highlights input mask reconstructed variant ch data piece e in
  live_buffers e' = live_buffers e /\
  control_log e' = if success then control_log e else control_log e ++ [Msg.reconstruct_highlights_failed].
Proof.
  unfold reconstruct_highlights.
  do 5 alloc_step.
  repeat match goal with b : option (list R) |- _ => destruct b end;
  cbn [dt_free_align dt_control_log live_buffers control_log alloc_results] in *;
  rewrite <- ?Nat.sub_1_r; (split; [lia | congruence]).
Qed.

Lemma reconstruct_ratios_passes_live (rgb_luminance : R -> R -> R -> R) (n : nat) (mask : list R)
  (data : Data.dt_iop_filmicrgb_data_t) (piece : dt_pipe_t) (ch : nat) (success_2 : bool)
  (reconstructed norms ratios : list R) (e : env) :
  let '(_, _, _, _, e') := reconstruct_ratios_passes rgb_luminance n mask data piece ch success_2
                             reconstructed norms ratios e in
  live_buffers e' = live_buffers e.
Proof.
  unfold reconstruct_ratios_passes.
  loop_invariant (fun (_ : nat) (s : bool * list R * list R * list R * env) =>
                    let '(_, _, _, _, e') := s in live_buffers e' = live_buffers e).
  - reflexivity.
  - intros i [[[[s2 rc] nm] rt] e1] _ IH. cbv beta iota in IH |- *.
    destruct (compute_ratios _ _ _ _ _ _ _ _) as [nm' rt'].
    destruct s2.
    + pose proof (reconstruct_highlights_env rt' mask rc DT_FILMIC_RECONSTRUCT_RATIOS ch data piece e1) as H.
      destruct (reconstruct_highlights _ _ _ _ _ _ _ _) as [[s2' rc'] e2].
      destruct H as [H _]. congruence.
    + exact IH.
  - destruct r as [[[[? ?] ?] ?] ?]. exact Hloop.
Qed.

(** [process] frees every buffer it allocates.  [process] writes through
    two buffers without checking their allocation: the mask (first
    allocation, written by [mask_clipped_pixels]) and the inpainting buffer
    (third allocation, reached only on the reconstruction path, written by
    [inpaint_noise]).  When these two allocations succeed, then whatever
    other allocations fail and whatever path [process] takes (wrong number
    of channels, mask display, no reconstruction, one or two reconstruction
    passes), the number of live buffers is the same after the call as
    before. *)
Theorem process_no_leak (rgb_luminance : R -> R -> R -> R) (rng_state : Type) (xoshiro256_init : rng_state)
  (dt_noise_generator : nat -> R -> R -> bool -> rng_state -> R * rng_state)
  (dt_iop_alpha_copy : list R -> list R -> nat -> nat -> list R)
  (data : Data.dt_iop_filmicrgb_data_t) (piece : dt_pipe_t) (ivoid ovoid : list R) (e : env)
  (Hmask : nth 0 (alloc_results e) true = true) (Hinpainted : nth 2 (alloc_results e) true = true) :
  live_buffers (snd (process rgb_luminance rng_state xoshiro256_init dt_noise_generator dt_iop_alpha_copy
                             data piece ivoid ovoid e)) = live_buffers e.
Proof.
  unfold process.
  destruct (negb (colors piece =? 4)%nat); [reflexivity|].
  alloc_step.
  destruct (mask_clipped_pixels _ _ _ _ _ _ _) as [recover mask_buf].
  destruct b as [mb|]; cbn [option_map].
  - destruct (show_mask piece); cbn [andb].
    + cbn [snd dt_free_align live_buffers]. lia.
    + alloc_step. destruct (run_fast piece), recover, b as [rb|];
        cbn [snd dt_free_align live_buffers]; try lia.
      alloc_step.
      match goal with |- context [reconstruct_highlights ?i ?m ?r ?v ?c ?d ?p ?e] =>
        pose proof (reconstruct_highlights_env i m r v c d p e) as Hrh;
        destruct (reconstruct_highlights i m r v c d p e) as [[s1 rb1] e3] end.
      destruct Hrh as [Hrh _].
      set (e4 := dt_free_align b e3).
      assert (He4 : live_buffers e4 = live_buffers e1) by (unfold e4; destruct b; cbn; lia).
      clearbody e4.
      destruct (andb _ s1).
      * alloc_step. alloc_step.
        destruct b0 as [nb|], b1 as [tb|].
        -- match goal with |- context [reconstruct_ratios_passes ?l ?n ?m ?d ?p ?c ?s ?r ?nm ?rt ?e] =>
             pose proof (reconstruct_ratios_passes_live l n m d p c s r nm rt e) as Hp;
             destruct (reconstruct_ratios_passes l n m d p c s r nm rt e) as [[[[s2 rb2] ?] ?] e7] end.
           cbn [snd dt_free_align live_buffers]. lia.
        -- cbn [snd dt_free_align live_buffers]. lia.
        -- cbn [snd dt_free_align live_buffers]. lia.
        -- cbn [snd dt_free_align live_buffers]. lia.
      * cbn [snd dt_free_align live_buffers]. lia.
  - destruct (show_mask piece); cbn [andb].
    + alloc_step. destruct (run_fast piece), recover, b as [rb|];
        cbn [snd dt_free_align live_buffers]; lia.
    + alloc_step. destruct (run_fast piece), recover, b as [rb|];
        cbn [snd dt_free_align live_buffers]; lia.
Qed.

(** [reconstruct_highlights] frees the five scratch buffers it allocates,
    whichever allocations fail: the number of live buffers is the same after
    the call as before, and the control log gets the out-of-memory message
    exactly when the function reports a failure. *)
Theorem reconstruct_highlights_no_leak (input mask reconstructed : list R)
  (variant : dt_iop_filmicrgb_reconstruction_type_t) (ch : nat)
  (data : Data.dt_iop_filmicrgb_data_t) (piece : dt_pipe_t) (e : env) :
  let '(success, _, e') := reconstruct_highlights input mask reconstructed variant ch data piece e in
  live_buffers e' = live_buffers e /\
  control_log e' = if success then control_log e else control_log e ++ [Msg.reconstruct_highlights_failed].
Proof. exact (reconstruct_highlights_env input mask reconstructed variant ch data piece e). Qed.

(** ** Number of wavelet scales *)

(** Whatever the size of the image and the zoom level, [get_scales]
    returns between [1] and [MAX_NUM_SCALES = 12] scales. *)
Theorem get_scales_range (piece : dt_pipe_t) : (1 <= get_scales piece <= 12)%nat.
Proof.
  unfold get_scales, MAX_NUM_SCALES.
  set (s := Int_part _).
  destruct (Z.ltb_spec 12 s); [cbn; lia|].
  destruct (Z.ltb_spec s 1); [cbn; lia|].
  split.
  - change 1%nat with (Z.to_nat 1). apply Z2Nat.inj_le; lia.
  - change 12%nat with (Z.to_nat 12). apply Z2Nat.inj_le; lia.
Qed.

(** ** The power norm *)

(** The power norm [(|R|^3 + |G|^3 + |B|^3) / max(R^2 + G^2 + B^2, 1e-12)]
    is never negative and never exceeds the largest channel magnitude. *)
Theorem pixel_rgb_norm_power_range (r g b : R) :
  0 <= pixel_rgb_norm_power r g b <= Rmax (Rabs r) (Rmax (Rabs g) (Rabs b)).
Proof.
  unfold pixel_rgb_norm_power. cbn [fold_left]. unfold fmaxf, fabsf.
  set (x := Rabs r). set (y := Rabs g). set (z := Rabs b).
  set (M := Rmax x (Rmax y z)).
  assert (Hx : 0 <= x) by apply Rabs_pos. assert (Hy : 0 <= y) by apply Rabs_pos.
  assert (Hz : 0 <= z) by apply Rabs_pos.
  assert (HxM : x <= M) by (unfold M; apply Rmax_l).
  assert (HyM : y <= M) by (unfold M; eapply Rle_trans; [apply Rmax_l | apply Rmax_r]).
  assert (HzM : z <= M) by (unfold M; eapply Rle_trans; [apply Rmax_r | apply Rmax_r]).
  set (ds := 0 + x * x + y * y + z * z).
  set (D := Rmax ds 1e-12).
  assert (HD : ds <= D) by apply Rmax_l.
  assert (HD0 : 1e-12 <= D) by apply Rmax_r.
  set (num := 0 + x * x * x + y * y * y + z * z * z).
  assert (Hn0 : 0 <= num) by (unfold num; assert (0 <= x * x * x) by (apply Rmult_le_pos; nra);
                               assert (0 <= y * y * y) by (apply Rmult_le_pos; nra);
                               assert (0 <= z * z * z) by (apply Rmult_le_pos; nra); lra).
  assert (HnM : num <= M * ds).
  { unfold num, ds.
    assert (x * x * x <= M * (x * x)) by (apply Rmult_le_compat_r with (r := x * x) in HxM; nra).
    assert (y * y * y <= M * (y * y)) by (apply Rmult_le_compat_r with (r := y * y) in HyM; nra).
    assert (z * z * z <= M * (z * z)) by (apply Rmult_le_compat_r with (r := z * z) in HzM; nra).
    lra. }
  split.
  - unfold Rdiv. apply Rmult_le_pos; [exact Hn0 | left; apply Rinv_0_lt_compat; lra].
  - apply Rmult_le_reg_r with D; [lra|]. unfold Rdiv. rewrite Rmult_assoc, Rinv_l, Rmult_1_r by lra.
    assert (0 <= M) by lra. nra.
Qed.

(** ** The grey node of the spline *)

Lemma filmic_spline_latitude (x : R) (M1 M2 M3 M4 M5 : list R) (lmin lmax : R) :
  lmin <= x <= lmax ->
  filmic_spline x M1 M2 M3 M4 M5 lmin lmax
  = get M1 2 + x * (get M2 2 + x * (get M3 2 + x * (get M4 2 + x * get M5 2))).
Proof.
  intros H. unfold filmic_spline.
  destruct (Rlt_dec x lmin); [lra|]. destruct (Rlt_dec lmax x); [lra|]. reflexivity.
Qed.

(** With no balance and a positive dynamic range, the spline built by
    [dt_iop_filmic_rgb_compute_spline] maps the scene grey, at the log
    position [x[2] = |black| / (white - black)], to the display grey
    [y[2]]: [powf(CLAMP(grey_point_target, black_point_target,
    white_point_target) / 100, 1 / output_power)] with a custom grey
    (glib's [CLAMP], which tests the upper bound first),
    [powf(0.1845, 1 / output_power)] otherwise. *)
Theorem compute_spline_grey_node (p : dt_iop_filmicrgb_params_t)
  (Hdr : black_point_source p < white_point_source p) (Hbal : balance p = 0) :
  let sp := dt_iop_filmic_rgb_compute_spline p in
  get (sp_x sp) 2 = fabsf (black_point_source p) / (white_point_source p - black_point_source p) /\
  get (sp_y sp) 2 = (if custom_grey p
                     then powf (CLAMP (grey_point_target p) (black_point_target p) (white_point_target p) / 100)
                               (1 / output_power p)
                     else powf 0.1845 (1 / output_power p)) /\
  filmic_spline (get (sp_x sp) 2) (M1 sp) (M2 sp) (M3 sp) (M4 sp) (M5 sp) (latitude_min sp) (latitude_max sp)
  = get (sp_y sp) 2.
Proof.
  cbv zeta. unfold dt_iop_filmic_rgb_compute_spline. rewrite Hbal.
  rewrite (CLAMP_id 0 (-50) 50) by lra.
  set (gd := if custom_grey p then _ else _).
  set (dr := white_point_source p - black_point_source p).
  assert (Hdr' : 0 < dr) by (unfold dr; lra).
  set (gl := fabsf (black_point_source p) / dr).
  set (lat := CLAMP (latitude p) 0 100 / 100 * dr).
  assert (Hlat : 0 <= lat).
  { unfold lat. pose proof (CLAMP_range (latitude p) 0 100 ltac:(lra)). apply Rmult_le_pos; [lra | lra]. }
  set (c := CLAMP (contrast p) 0.1 2).
  set (nrm := sqrtf (c * c + 1)).
  destruct (spline_toe _ _ _ _ _) as [[[[t5 t4] t3] t2] t1].
  destruct (spline_shoulder _ _ _ _ _) as [[[[s5 s4] s3] s2] s1].
  cbn [sp_x sp_y M1 M2 M3 M4 M5 latitude_min latitude_max get nth].
  split; [reflexivity|]. split; [reflexivity|].
  assert (Hb : 0 <= fabsf (black_point_source p / dr)) by apply Rabs_pos.
  assert (Hw : 0 <= fabsf (white_point_source p / dr)) by apply Rabs_pos.
  assert (Hld : 0 <= lat / dr) by (unfold Rdiv; apply Rmult_le_pos; [lra | left; apply Rinv_0_lt_compat; lra]).
  replace (0 / 100) with 0 by field.
  assert (E : - (2 * lat / dr) * 0 / nrm = 0) by (unfold Rdiv; ring).
  assert (E' : - (2 * lat / dr) * 0 * c / nrm = 0) by (unfold Rdiv; ring).
  rewrite E, E', !Rplus_0_r.
  rewrite filmic_spline_latitude.
  - cbn [get nth]. ring.
  - pose proof (Rmult_le_pos _ _ Hld Hb). pose proof (Rmult_le_pos _ _ Hld Hw). lra.
Qed.

Lemma compute_spline_grey_node_witness :
  black_point_source default_params < white_point_source default_params /\ balance default_params = 0 /\
  let sp := dt_iop_filmic_rgb_compute_spline default_params in
  get (sp_x sp) 2 = fabsf (black_point_source default_params)
                    / (white_point_source default_params - black_point_source default_params) /\
  get (sp_y sp) 2 = (if custom_grey default_params
                     then powf (CLAMP (grey_point_target default_params) (black_point_target default_params)
                                      (white_point_target default_params) / 100)
                               (1 / output_power default_params)
                     else powf 0.1845 (1 / output_power default_params)) /\
  filmic_spline (get (sp_x sp) 2) (M1 sp) (M2 sp) (M3 sp) (M4 sp) (M5 sp) (latitude_min sp) (latitude_max sp)
  = get (sp_y sp) 2.
Proof.
  assert (Hdr : black_point_source default_params < white_point_source default_params) by (cbn; lra).
  assert (Hbal : balance default_params = 0) by reflexivity.
  split; [exact Hdr|]. split; [exact Hbal|].
  exact (compute_spline_grey_node default_params Hdr Hbal).
Defined.

(** ** Ranges of the chrominance-preserving tone mapper, v2 *)

Lemma pixel_index_neq (p i c c' ch : nat) :
  p <> i -> (c < ch)%nat -> (c' < ch)%nat -> (p * ch + c <> i * ch + c')%nat.
Proof.
  intros Hne Hc Hc' Heq. destruct (Nat.lt_total p i) as [Hlt|[Hlt|Hlt]]; [|lia|].
  - assert (p * ch + ch <= i * ch)%nat by nia. lia.
  - assert (i * ch + ch <= p * ch)%nat by nia. lia.
Qed.

(** The writes of one pixel of [filmic_chroma_v2]: three non-negative
    values, clamped to [[0, 1]] when the largest of them exceeds [1]. *)
Lemma chroma_v2_pixel (b : list R) (k : nat) (v0 v1 v2 a0 a1 a2 : R) :
  0 <= v0 -> 0 <= v1 -> 0 <= v2 -> (k + 2 < length b)%nat ->
  let out := upd3 b k v0 v1 v2 in
  let res := if Rlt_dec 1 (fmaxf (fmaxf (get out k) (get out (k + 1))) (get out (k + 2)))
             then upd3 out k (clamp_simd a0) (clamp_simd a1) (clamp_simd a2) else out in
  length res = length b /\
  (forall c, (c < 3)%nat -> 0 <= get res (k + c) <= 1) /\
  (forall j, j <> k -> j <> (k + 1)%nat -> j <> (k + 2)%nat -> get res j = get b j).
Proof.
  intros H0 H1 H2 Hk. cbv zeta.
  rewrite get_upd3_0, get_upd3_1, get_upd3_2 by lia.
  destruct (Rlt_dec 1 (fmaxf (fmaxf v0 v1) v2)) as [Hgt|Hle].
  - split; [rewrite !length_upd3; reflexivity|]. split.
    + intros c Hc. destruct c as [|[|[|c]]]; try lia.
      * rewrite Nat.add_0_r, get_upd3_0 by (rewrite length_upd3; lia). apply clamp_simd_range.
      * rewrite get_upd3_1 by (rewrite length_upd3; lia). apply clamp_simd_range.
      * rewrite get_upd3_2 by (rewrite length_upd3; lia). apply clamp_simd_range.
    + intros j Hj0 Hj1 Hj2. rewrite !get_upd3_miss by assumption. reflexivity.
  - assert (Hm : v0 <= 1 /\ v1 <= 1 /\ v2 <= 1).
    { unfold fmaxf in Hle. pose proof (Rmax_l v0 v1). pose proof (Rmax_r v0 v1).
      pose proof (Rmax_l (Rmax v0 v1) v2). pose proof (Rmax_r (Rmax v0 v1) v2). lra. }
    split; [rewrite length_upd3; reflexivity|]. split.
    + intros c Hc. destruct c as [|[|[|c]]]; try lia.
      * rewrite Nat.add_0_r, get_upd3_0 by lia. lra.
      * rewrite get_upd3_1 by lia. lra.
      * rewrite get_upd3_2 by lia. lra.
    + intros j Hj0 Hj1 Hj2. rewrite get_upd3_miss by assumption. reflexivity.
Qed.

(** Whatever the input pixels (negative or arbitrarily large channels) and
    whatever the output power, [filmic_chroma_v2] writes every color channel
    of every pixel of an image of [ch >= 3] channels in [[0, 1]], and leaves
    the other channels (alpha) as they were. *)
Theorem filmic_chroma_v2_output_range (rgb_luminance : R -> R -> R -> R) (input out : list R)
  (data : Data.dt_iop_filmicrgb_data_t) (spline : dt_iop_filmic_rgb_spline_t)
  (variant : dt_iop_filmicrgb_methods_type_t) (width height ch : nat)
  (Hch : (3 <= ch)%nat) (Hlen : length out = (width * height * ch)%nat) :
  let r := filmic_chroma_v2 rgb_luminance input out data spline variant width height ch in
  length r = length out /\
  forall p c, (p < width * height)%nat -> (c < ch)%nat ->
    ((c < 3)%nat -> 0 <= get r (p * ch + c) <= 1) /\
    ((3 <= c)%nat -> get r (p * ch + c) = get out (p * ch + c)).
Proof.
  cbv zeta. unfold filmic_chroma_v2.
  loop_invariant (fun i (r : list R) => length r = length out /\
    (forall p c, (p < i)%nat -> (c < 3)%nat -> 0 <= get r (p * ch + c) <= 1) /\
    (forall p c, (c < ch)%nat -> (i <= p \/ 3 <= c)%nat -> get r (p * ch + c) = get out (p * ch + c))).
  - split; [reflexivity|]. split; [intros; lia | reflexivity].
  - intros i r Hi (Hl & Hin & Hout). cbv beta zeta.
    match goal with |- context [if Rlt_dec ?m 0 then ?a else ?b] =>
      destruct (if Rlt_dec m 0 then a else b) as [[r0 r1] r2] end.
    match goal with
    | |- context [if Rlt_dec 1 _ then upd3 (upd3 r ?k ?v0 ?v1 ?v2) _ (clamp_simd ?a0) (clamp_simd ?a1) (clamp_simd ?a2) else _] =>
        assert (Hpix := chroma_v2_pixel r k v0 v1 v2 a0 a1 a2)
    end.
    cbv zeta in Hpix.
    match goal with |- context [powf (clamp_simd ?x) ?y] => assert (Hn := powf_nonneg (clamp_simd x) y) end.
    destruct Hpix as (Hl' & Hnew & Hold);
      [apply Rmult_le_pos; [apply Rmax_r | exact Hn] .. | nia |].
    split; [lia|]. split.
    + intros p c Hp Hc. destruct (Nat.eq_dec p i) as [->|Hne]; [apply Hnew; exact Hc|].
      rewrite Hold; [apply Hin; lia | ..];
        intros E; [apply (pixel_index_neq p i c 0 ch) | apply (pixel_index_neq p i c 1 ch)
                  | apply (pixel_index_neq p i c 2 ch)]; lia.
    + intros p c Hc Hpc. rewrite Hold.
      * apply Hout; [exact Hc | lia].
      * intros E. destruct (Nat.eq_dec p i) as [->|Hne]; [lia|]. apply (pixel_index_neq p i c 0 ch); lia.
      * intros E. destruct (Nat.eq_dec p i) as [->|Hne]; [lia|]. apply (pixel_index_neq p i c 1 ch); lia.
      * intros E. destruct (Nat.eq_dec p i) as [->|Hne]; [lia|]. apply (pixel_index_neq p i c 2 ch); lia.
  - destruct Hloop as (Hl & Hin & Hout). split; [exact Hl|].
    intros p c Hp Hc. split.
    + intros Hc3. apply Hin; lia.
    + intros Hc3. apply Hout; lia.
Qed.

(** ** Noise inpainting *)

Lemma pixel_visited (p c n ch : nat) :
  (0 < ch)%nat -> (p * ch + c < n)%nat -> (p < (n + ch - 1) / ch)%nat.
Proof.
  intros Hch Hp. apply Nat.lt_le_trans with (S p); [lia|].
  apply Nat.div_le_lower_bound; [lia|]. nia.
Qed.

(** [inpaint_noise] on an image of [ch >= 3] channels: every color channel
    [c] of every pixel [p] becomes the blend [in * (1 - mask[p]) + mask[p] *
    noise] of the input and of a noise drawn by [dt_noise_generator] around
    the input value (standard deviation [in * noise_level / threshold]), so
    that a pixel with a zero mask keeps its input colors; the other channels
    (alpha) are left as they were. *)
Theorem inpaint_noise_blend (rng_state : Type) (xoshiro256_init : rng_state)
  (dt_noise_generator : nat -> R -> R -> bool -> rng_state -> R * rng_state)
  (input mask inpainted : list R) (noise_level threshold : R) (noise_distribution num_elem ch : nat)
  (Hch : (3 <= ch)%nat) (Hlen : length inpainted = num_elem) :
  let r := inpaint_noise rng_state xoshiro256_init dt_noise_generator input mask inpainted
             noise_level threshold noise_distribution num_elem ch in
  length r = num_elem /\
  forall p c, (p * ch + c < num_elem)%nat -> (c < ch)%nat ->
    ((c < 3)%nat -> exists state,
        get r (p * ch + c) = get input (p * ch + c) * (1 - get mask p)
          + get mask p * fst (dt_noise_generator noise_distribution (get input (p * ch + c))
                                (get input (p * ch + c) * noise_level / threshold) (Nat.eqb (c mod 2) 0) state)) /\
    ((c < 3)%nat -> get mask p = 0 -> get r (p * ch + c) = get input (p * ch + c)) /\
    ((3 <= c)%nat -> get r (p * ch + c) = get inpainted (p * ch + c)).
Proof.
  cbv zeta. unfold inpaint_noise.
  set (blend := fun (b : list R) (p c : nat) => exists state,
        get b (p * ch + c) = get input (p * ch + c) * (1 - get mask p)
          + get mask p * fst (dt_noise_generator noise_distribution (get input (p * ch + c))
                                (get input (p * ch + c) * noise_level / threshold) (Nat.eqb (c mod 2) 0) state)).
  loop_invariant (fun q (s : list R * rng_state) => length (fst s) = num_elem /\
    (forall p c, (p < q)%nat -> (c < 3)%nat -> (p * ch + c < num_elem)%nat -> blend (fst s) p c) /\
    (forall p c, (c < ch)%nat -> (q <= p \/ 3 <= c)%nat -> get (fst s) (p * ch + c) = get inpainted (p * ch + c))).
  - cbn [fst]. split; [exact Hlen|]. split; [intros; lia | reflexivity].
  - intros q [b st] Hq (Hl & Hb & Hu). cbn [fst] in Hl, Hb, Hu. cbv beta iota.
    rewrite Nat.div_mul by lia.
    loop_invariant (fun c' (s : list R * rng_state) => length (fst s) = num_elem /\
      (forall p c, (p < q \/ (p = q /\ c < c'))%nat -> (c < 3)%nat -> (p * ch + c < num_elem)%nat -> blend (fst s) p c) /\
      (forall p c, (c < ch)%nat -> (q < p \/ (p = q /\ c' <= c) \/ 3 <= c)%nat ->
                   get (fst s) (p * ch + c) = get inpainted (p * ch + c))).
    + cbn [fst]. split; [exact Hl|]. split.
      * intros p c Hp Hc Hn. apply Hb; lia.
      * intros p c Hc Hpc. apply Hu; lia.
    + intros c' [b' st'] Hc' (Hl' & Hb' & Hu'). cbn [fst] in Hl', Hb', Hu'. cbv beta iota.
      destruct (dt_noise_generator _ _ _ _ st') as [noise st''] eqn:Eg. cbn [fst].
      split; [rewrite length_upd; exact Hl'|]. split.
      * intros p c Hp Hc Hn. unfold blend.
        destruct (Nat.eq_dec (p * ch + c) (q * ch + c')) as [E|E].
        -- assert (p = q /\ c = c') as [-> ->].
           { destruct (Nat.eq_dec p q) as [->|Hne]; [lia|].
             exfalso. apply (pixel_index_neq p q c c' ch Hne); lia. }
           rewrite get_upd_eq by lia. exists st'. rewrite Eg. reflexivity.
        -- rewrite get_upd_neq by lia. apply Hb'; [|exact Hc|exact Hn].
           destruct Hp as [Hp|[-> Hp]]; [left; exact Hp|].
           right. split; [reflexivity|]. destruct (Nat.eq_dec c c') as [->|]; [lia|lia].
      * intros p c Hc Hpc. rewrite get_upd_neq.
        -- apply Hu'; [exact Hc|]. destruct Hpc as [H|[[-> H]|H]]; [left; exact H| |right; right; exact H].
           destruct (Nat.eq_dec c c') as [->|]; [|right; left; split; [reflexivity | lia]].
           exfalso. destruct (Nat.eq_dec (q * ch + c') (q * ch + c')) as [_|]; [|congruence].
           lia.
        -- intros E. destruct (Nat.eq_dec p q) as [->|Hne].
           ++ assert (c = c') by lia. subst c. destruct Hpc as [H|[[_ H]|H]]; lia.
           ++ apply (pixel_index_neq p q c c' ch Hne); lia.
    + destruct r as [b'' st'']. destruct Hloop as (Hl' & Hb' & Hu'). cbn [fst] in Hl', Hb', Hu' |- *.
      split; [exact Hl'|]. split.
      * intros p c Hp Hc Hn. apply Hb'; [|exact Hc|exact Hn].
        destruct (Nat.eq_dec p q) as [->|]; [right; split; [reflexivity | exact Hc] | left; lia].
      * intros p c Hc Hpc. apply Hu'; [exact Hc|]. lia.
  - destruct r as [b st]. destruct Hloop as (Hl & Hb & Hu). cbn [fst] in Hl, Hb, Hu.
    split; [exact Hl|]. intros p c Hn Hc.
    assert (Hp : (p < (num_elem + ch - 1) / ch)%nat) by (apply (pixel_visited p c); lia).
    split; [|split].
    + intros Hc3. exact (Hb p c Hp Hc3 Hn).
    + intros Hc3 Hm. destruct (Hb p c Hp Hc3 Hn) as [state Hs]. rewrite Hs, Hm. ring.
    + intros Hc3. apply Hu; [exact Hc | right; exact Hc3].
Qed.

(** ** Wavelet detail levels *)

Lemma detail_level_spec (sel : R -> R -> R) (detail LF HF texture : list R) (width height ch : nat)
  (Hch : (3 <= ch)%nat) (HlHF : length HF = (width * height * ch)%nat) (Hlt : length texture = (width * height)%nat) :
  let r := for_loop (height * width) (fun p '(HF, texture) =>
    let k := (p * ch)%nat in
    let HF := upd3 HF k (get detail k - get LF k) (get detail (k + 1) - get LF (k + 1))
                        (get detail (k + 2) - get LF (k + 2)) in
    (HF, upd texture (k / ch) (sel (sel (get HF k) (get HF (k + 1))) (get HF (k + 2)))))
    (HF, texture) in
  length (fst r) = length HF /\ length (snd r) = length texture /\
  forall p, (p < width * height)%nat ->
    (forall c, (c < 3)%nat -> get (fst r) (p * ch + c) = get detail (p * ch + c) - get LF (p * ch + c)) /\
    get (snd r) p = sel (sel (get (fst r) (p * ch)) (get (fst r) (p * ch + 1))) (get (fst r) (p * ch + 2)).
Proof.
  cbv zeta.
  loop_invariant (fun i (s : list R * list R) => length (fst s) = length HF /\ length (snd s) = length texture /\
    forall p, (p < i)%nat ->
      (forall c, (c < 3)%nat -> get (fst s) (p * ch + c) = get detail (p * ch + c) - get LF (p * ch + c)) /\
      get (snd s) p = sel (sel (get (fst s) (p * ch)) (get (fst s) (p * ch + 1))) (get (fst s) (p * ch + 2))).
  - split; [reflexivity|]. split; [reflexivity | intros; lia].
  - intros i [hf tx] Hi (Hl1 & Hl2 & IH). cbn [fst snd] in Hl1, Hl2, IH |- *.
    rewrite Nat.div_mul by lia.
    assert (Hk : (i * ch + 2 < length hf)%nat) by nia.
    assert (Hmiss : forall p c, p <> i -> (c < 3)%nat ->
              get (upd3 hf (i * ch) (get detail (i * ch) - get LF (i * ch))
                     (get detail (i * ch + 1) - get LF (i * ch + 1))
                     (get detail (i * ch + 2) - get LF (i * ch + 2))) (p * ch + c) = get hf (p * ch + c)).
    { intros p c Hne Hc. apply get_upd3_miss; intros E;
        [apply (pixel_index_neq p i c 0 ch) | apply (pixel_index_neq p i c 1 ch)
        | apply (pixel_index_neq p i c 2 ch)]; lia. }
    split; [rewrite length_upd3; exact Hl1|]. split; [rewrite length_upd; exact Hl2|].
    intros p Hp. destruct (Nat.eq_dec p i) as [->|Hne].
    + split.
      * intros c Hc. destruct c as [|[|[|c]]]; try lia.
        -- rewrite Nat.add_0_r, get_upd3_0 by lia. reflexivity.
        -- rewrite get_upd3_1 by lia. reflexivity.
        -- rewrite get_upd3_2 by lia. reflexivity.
      * apply get_upd_eq. lia.
    + destruct (IH p ltac:(lia)) as [Hd Ht]. split.
      * intros c Hc. rewrite Hmiss by assumption. apply Hd, Hc.
      * rewrite get_upd_neq by lia. rewrite Ht.
        rewrite <- (Nat.add_0_r (p * ch)) at 4. rewrite !Hmiss by lia. rewrite Nat.add_0_r. reflexivity.
  - destruct r as [hf tx]. destruct Hloop as (H1 & H2 & H3). split; [exact H1|]. split; [exact H2|].
    intros p Hp. apply H3. lia.
Qed.

Lemma fmaxabsf_spec (a b : R) :
  Rabs a <= Rabs (fmaxabsf a b) /\ Rabs b <= Rabs (fmaxabsf a b) /\ (fmaxabsf a b = a \/ fmaxabsf a b = b).
Proof. unfold fmaxabsf, fabsf. destruct (Rlt_dec (Rabs b) (Rabs a)); [split; [|split]; lra | split; [|split]; lra]. Qed.

Lemma fminabsf_spec (a b : R) :
  Rabs (fminabsf a b) <= Rabs a /\ Rabs (fminabsf a b) <= Rabs b /\ (fminabsf a b = a \/ fminabsf a b = b).
Proof. unfold fminabsf, fabsf. destruct (Rlt_dec (Rabs a) (Rabs b)); [split; [|split]; lra | split; [|split]; lra]. Qed.

(** [wavelets_detail_level_RGB] splits the detail into low and high
    frequencies, [HF = detail - LF] on the three color channels of every
    pixel (so [HF + LF] gives the detail back), and stores as the pixel's
    texture the one of its three high frequencies with the largest
    magnitude. *)
Theorem wavelets_detail_level_RGB_split (detail LF HF texture : list R) (width height ch : nat)
  (Hch : (3 <= ch)%nat) (HlHF : length HF = (width * height * ch)%nat) (Hlt : length texture = (width * height)%nat) :
  let '(HF', texture') := wavelets_detail_level_RGB detail LF HF texture width height ch in
  length HF' = length HF /\ length texture' = length texture /\
  forall p, (p < width * height)%nat ->
    (forall c, (c < 3)%nat -> get HF' (p * ch + c) + get LF (p * ch + c) = get detail (p * ch + c)) /\
    (forall c, (c < 3)%nat -> Rabs (get HF' (p * ch + c)) <= Rabs (get texture' p)) /\
    (exists c, (c < 3)%nat /\ get texture' p = get HF' (p * ch + c)).
Proof.
  unfold wavelets_detail_level_RGB.
  destruct (detail_level_spec fmaxabsf detail LF HF texture width height ch Hch HlHF Hlt) as (Hl1 & Hl2 & H).
  destruct (for_loop _ _ _) as [hf tx]. cbn [fst snd] in Hl1, Hl2, H.
  split; [exact Hl1|]. split; [exact Hl2|]. intros p Hp. destruct (H p Hp) as [Hd Ht].
  split; [intros c Hc; rewrite Hd by exact Hc; ring|].
  rewrite Ht.
  destruct (fmaxabsf_spec (get hf (p * ch)) (get hf (p * ch + 1))) as (A1 & A2 & A3).
  destruct (fmaxabsf_spec (fmaxabsf (get hf (p * ch)) (get hf (p * ch + 1))) (get hf (p * ch + 2))) as (B1 & B2 & B3).
  split.
  - intros c Hc. destruct c as [|[|[|c]]]; try lia; rewrite ?Nat.add_0_r; lra.
  - destruct B3 as [B3|B3]; [destruct A3 as [A3|A3]|].
    + exists 0%nat. split; [lia|]. rewrite Nat.add_0_r. congruence.
    + exists 1%nat. split; [lia|]. congruence.
    + exists 2%nat. split; [lia|]. exact B3.
Qed.

(** [wavelets_detail_level_ratios] splits the detail the same way,
    [HF = detail - LF] on the three color channels, and stores as the
    pixel's texture the one of its three high frequencies with the smallest
    magnitude. *)
Theorem wavelets_detail_level_ratios_split (detail LF HF texture : list R) (width height ch : nat)
  (Hch : (3 <= ch)%nat) (HlHF : length HF = (width * height * ch)%nat) (Hlt : length texture = (width * height)%nat) :
  let '(HF', texture') := wavelets_detail_level_ratios detail LF HF texture width height ch in
  length HF' = length HF /\ length texture' = length texture /\
  forall p, (p < width * height)%nat ->
    (forall c, (c < 3)%nat -> get HF' (p * ch + c) + get LF (p * ch + c) = get detail (p * ch + c)) /\
    (forall c, (c < 3)%nat -> Rabs (get texture' p) <= Rabs (get HF' (p * ch + c))) /\
    (exists c, (c < 3)%nat /\ get texture' p = get HF' (p * ch + c)).
Proof.
  unfold wavelets_detail_level_ratios.
  destruct (detail_level_spec fminabsf detail LF HF texture width height ch Hch HlHF Hlt) as (Hl1 & Hl2 & H).
  destruct (for_loop _ _ _) as [hf tx]. cbn [fst snd] in Hl1, Hl2, H.
  split; [exact Hl1|]. split; [exact Hl2|]. intros p Hp. destruct (H p Hp) as [Hd Ht].
  split; [intros c Hc; rewrite Hd by exact Hc; ring|].
  rewrite Ht.
  destruct (fminabsf_spec (get hf (p * ch)) (get hf (p * ch + 1))) as (A1 & A2 & A3).
  destruct (fminabsf_spec (fminabsf (get hf (p * ch)) (get hf (p * ch + 1))) (get hf (p * ch + 2))) as (B1 & B2 & B3).
  split.
  - intros c Hc. destruct c as [|[|[|c]]]; try lia; rewrite ?Nat.add_0_r; lra.
  - destruct B3 as [B3|B3]; [destruct A3 as [A3|A3]|].
    + exists 0%nat. split; [lia|]. rewrite Nat.add_0_r. congruence.
    + exists 1%nat. split; [lia|]. congruence.
    + exists 2%nat. split; [lia|]. exact B3.
Qed.

(** ** The B-spline blurs *)

(** The nested pixel loops of the blurs: when each step writes the
    channels of its own pixel with a function of the pixel, the channel and
    the previous value, and leaves the other pixels alone, the loops write
    every pixel of the image that way. *)
Lemma pixel_loops_spec (width height ch : nat) (body : nat -> nat -> list R -> list R)
  (F : nat -> nat -> R -> R) (out : list R) :
  length out = (width * height * ch)%nat ->
  (forall i j r, (i < height)%nat -> (j < width)%nat -> length r = length out ->
     length (body i j r) = length r /\
     (forall c, (c < ch)%nat -> get (body i j r) ((i * width + j) * ch + c)
                                 = F (i * width + j)%nat c (get r ((i * width + j) * ch + c))) /\
     (forall q c, q <> (i * width + j)%nat -> (c < ch)%nat -> get (body i j r) (q * ch + c) = get r (q * ch + c))) ->
  let r := for_loop height (fun i out => for_loop width (fun j out => body i j out) out) out in
  length r = length out /\
  forall q c, (q < width * height)%nat -> (c < ch)%nat -> get r (q * ch + c) = F q c (get out (q * ch + c)).
Proof.
  intros Hlen Hbody. cbv zeta.
  loop_invariant (fun i (r : list R) => length r = length out /\
    (forall q c, (q < i * width)%nat -> (c < ch)%nat -> get r (q * ch + c) = F q c (get out (q * ch + c))) /\
    (forall q c, (i * width <= q)%nat -> (c < ch)%nat -> get r (q * ch + c) = get out (q * ch + c))).
  - split; [reflexivity|]. split; [intros; lia | reflexivity].
  - intros i r Hi (Hl & Hd & Hu).
    loop_invariant (fun j (r' : list R) => length r' = length out /\
      (forall q c, (q < i * width + j)%nat -> (c < ch)%nat -> get r' (q * ch + c) = F q c (get out (q * ch + c))) /\
      (forall q c, (i * width + j <= q)%nat -> (c < ch)%nat -> get r' (q * ch + c) = get out (q * ch + c))).
    + split; [exact Hl|]. rewrite Nat.add_0_r. split; [exact Hd | exact Hu].
    + intros j r' Hj (Hl' & Hd' & Hu').
      destruct (Hbody i j r' Hi Hj Hl') as (Hb1 & Hb2 & Hb3).
      split; [lia|]. split.
      * intros q c Hq Hc. destruct (Nat.eq_dec q (i * width + j)) as [->|Hne].
        -- rewrite Hb2 by exact Hc. rewrite Hu' by lia. reflexivity.
        -- rewrite Hb3 by assumption. apply Hd'; [lia | exact Hc].
      * intros q c Hq Hc. rewrite Hb3 by (lia || exact Hc). apply Hu'; [lia | exact Hc].
    + destruct Hloop as (Hl' & Hd' & Hu'). split; [exact Hl'|].
      replace (S i * width)%nat with (i * width + width)%nat by lia. split; [exact Hd' | exact Hu'].
  - destruct Hloop as (Hl & Hd & _). split; [exact Hl|].
    intros q c Hq Hc. apply Hd; [lia | exact Hc].
Qed.

(** The taps of the filter stay inside the line (or the column) of the
    image when the bounds are. *)
Lemma bspline_index_bound (mult jj j n : nat) (lo hi : Z) :
  (jj < 5)%nat -> (j < n)%nat -> (0 <= lo /\ lo <= hi < Z.of_nat n)%Z ->
  (bspline_index (negb (Nat.ltb (2 * mult) j && Nat.ltb j (n - 2 * mult))) mult jj j lo hi < n)%nat.
Proof.
  intros Hjj Hj Hb. unfold bspline_index.
  set (idx := (Z.of_nat mult * (Z.of_nat jj - 2) + Z.of_nat j)%Z).
  destruct (Nat.ltb_spec (2 * mult) j), (Nat.ltb_spec j (n - 2 * mult)); cbn [andb negb];
    [nia | ..];
    (apply Nat2Z.inj_lt; rewrite Z2Nat.id;
     [ | destruct (Z.ltb_spec idx lo); [lia|]; destruct (Z.ltb_spec hi idx); lia ];
     destruct (Z.ltb_spec idx lo); [lia|]; destruct (Z.ltb_spec hi idx); lia).
Qed.

Lemma bspline_sum (g : nat -> R) (v : R) :
  (forall jj, (jj < 5)%nat -> g jj = v) ->
  fold_left (fun a jj => a + bspline_filter jj * g jj) (seq 0 5) 0 = v.
Proof.
  intros H. cbn [seq fold_left]. rewrite !H by lia. cbn [bspline_filter]. field.
Qed.

(** The blur along the lines ([blur_2D_Bspline_vertical]) keeps a flat
    image flat: when the three color channels of every input pixel hold
    [v], and the bound checks keep the taps inside the lines, every output
    pixel gets [v] in its color channels (the filter weights sum to [1]);
    the other channels of the output are left as they were. *)
Theorem blur_2D_Bspline_vertical_flat (input out : list R) (width height ch mult : nat)
  (bound_left bound_right : Z) (v : R)
  (Hch : (3 <= ch)%nat) (Hb : (0 <= bound_left /\ bound_left <= bound_right < Z.of_nat width)%Z)
  (Hin : forall q c, (q < width * height)%nat -> (c < 3)%nat -> get input (q * ch + c) = v)
  (Hlen : length out = (width * height * ch)%nat) :
  let r := blur_2D_Bspline_vertical input out width height ch mult bound_left bound_right in
  length r = length out /\
  forall q c, (q < width * height)%nat -> (c < ch)%nat ->
    get r (q * ch + c) = if (c <? 3)%nat then v else get out (q * ch + c).
Proof.
  cbv zeta. unfold blur_2D_Bspline_vertical.
  apply (pixel_loops_spec width height ch _ (fun _ c old => if (c <? 3)%nat then v else old) out Hlen).
  intros i j r Hi Hj Hl. cbv beta zeta.
  assert (Hacc : forall c, (c < 3)%nat ->
    fold_left (fun a jj => a + bspline_filter jj *
       get input ((i * width + bspline_index (negb (Nat.ltb (2 * mult) j && Nat.ltb j (width - 2 * mult)))
                                  mult jj j bound_left bound_right) * ch + c)) (seq 0 5) 0 = v).
  { intros c Hc. apply bspline_sum. intros jj Hjj. apply Hin; [|exact Hc].
    pose proof (bspline_index_bound mult jj j width bound_left bound_right Hjj Hj Hb). nia. }
  rewrite !Hacc by lia.
  assert (Hpx : (i * width + j + 1 <= width * height)%nat) by nia.
  assert (Hpx' : ((i * width + j + 1) * ch <= width * height * ch)%nat) by (apply Nat.mul_le_mono_r; exact Hpx).
  assert (Hk : ((i * width + j) * ch + 2 < length r)%nat) by lia.
  split; [apply length_upd3|]. split.
  - intros c Hc. destruct c as [|[|[|c]]]; cbn [Nat.ltb Nat.leb].
    + rewrite Nat.add_0_r. apply get_upd3_0; exact Hk.
    + apply get_upd3_1; exact Hk.
    + apply get_upd3_2; exact Hk.
    + apply get_upd3_miss; lia.
  - intros q c Hq Hc. apply get_upd3_miss; intros E;
      [apply (pixel_index_neq q (i * width + j) c 0 ch) | apply (pixel_index_neq q (i * width + j) c 1 ch)
      | apply (pixel_index_neq q (i * width + j) c 2 ch)]; lia.
Qed.

Lemma channel_loop_spec (k ch : nat) (f : nat -> R) (r : list R) :
  (k + ch <= length r)%nat ->
  let r' := for_loop ch (fun c out => upd out (k + c) (f c)) r in
  length r' = length r /\
  (forall c, (c < ch)%nat -> get r' (k + c) = f c) /\
  (forall j, (j < k \/ k + ch <= j)%nat -> get r' j = get r j).
Proof.
  intros Hk. cbv zeta.
  loop_invariant (fun n (r' : list R) => length r' = length r /\
    (forall c, (c < n)%nat -> get r' (k + c) = f c) /\
    (forall j, (j < k \/ k + n <= j)%nat -> get r' j = get r j)).
  - split; [reflexivity|]. split; [intros; lia | reflexivity].
  - intros n r' Hn (Hl & Hw & Hu). split; [rewrite length_upd; exact Hl|]. split.
    + intros c Hc. destruct (Nat.eq_dec c n) as [->|Hne].
      * apply get_upd_eq. lia.
      * rewrite get_upd_neq by lia. apply Hw. lia.
    + intros j Hj. rewrite get_upd_neq by lia. apply Hu. lia.
  - destruct Hloop as (Hl & Hw & Hu). split; [exact Hl|]. split; [exact Hw|]. exact Hu.
Qed.

(** The blur along the columns ([blur_2D_Bspline_horizontal]) keeps a flat
    image flat in the same way: every output pixel gets [v] in its three
    color channels; it writes all [ch] channels of the output, the ones
    past the third with [0]. *)
Theorem blur_2D_Bspline_horizontal_flat (input out : list R) (width height ch mult : nat)
  (bound_top bound_bot : Z) (v : R)
  (Hch : (3 <= ch)%nat) (Hb : (0 <= bound_top /\ bound_top <= bound_bot < Z.of_nat height)%Z)
  (Hin : forall q c, (q < width * height)%nat -> (c < 3)%nat -> get input (q * ch + c) = v)
  (Hlen : length out = (width * height * ch)%nat) :
  let r := blur_2D_Bspline_horizontal input out width height ch mult bound_top bound_bot in
  length r = length out /\
  forall q c, (q < width * height)%nat -> (c < ch)%nat ->
    get r (q * ch + c) = if (c <? 3)%nat then v else 0.
Proof.
  cbv zeta. unfold blur_2D_Bspline_horizontal.
  apply (pixel_loops_spec width height ch _ (fun _ c _ => if (c <? 3)%nat then v else 0) out Hlen).
  intros i j r Hi Hj Hl. cbv beta zeta.
  assert (Hpx : (i * width + j + 1 <= width * height)%nat) by nia.
  assert (Hpx' : ((i * width + j + 1) * ch <= width * height * ch)%nat) by (apply Nat.mul_le_mono_r; exact Hpx).
  assert (Hk : ((i * width + j) * ch + ch <= length r)%nat) by lia.
  match goal with |- context [for_loop ch (fun c out => upd out (?k + c) (@?f c)) r] =>
    destruct (channel_loop_spec k ch f r Hk) as (Hl' & Hw & Hu) end.
  cbv beta in Hl', Hw, Hu.
  split; [exact Hl'|]. split.
  - intros c Hc. rewrite Hw by exact Hc.
    destruct (Nat.ltb_spec c 3); [|reflexivity].
    apply bspline_sum. intros ii Hii. apply Hin; [|lia].
    pose proof (bspline_index_bound mult ii i height bound_top bound_bot Hii Hi Hb). nia.
  - intros q c Hq Hc. apply Hu.
    destruct (Nat.lt_total q (i * width + j)) as [Hlt|[Heq|Hlt]]; [left; nia | lia | right; nia].
Qed.

Lemma filmic_chroma_v2_output_range_witness :
  (3 <= 4)%nat /\ length [0; 0; 0; 0] = (1 * 1 * 4)%nat /\
  let r := filmic_chroma_v2 (fun r _ _ => r) [-1; 2; 300; 1] [0; 0; 0; 0] zero_data (Data.spline zero_data)
             DT_FILMIC_METHOD_MAX_RGB 1 1 4 in
  length r = length [0; 0; 0; 0] /\
  forall p c, (p < 1 * 1)%nat -> (c < 4)%nat ->
    ((c < 3)%nat -> 0 <= get r (p * 4 + c) <= 1) /\
    ((3 <= c)%nat -> get r (p * 4 + c) = get [0; 0; 0; 0] (p * 4 + c)).
Proof.
  assert (Hch : (3 <= 4)%nat) by lia.
  assert (Hlen : length [0; 0; 0; 0] = (1 * 1 * 4)%nat) by reflexivity.
  split; [exact Hch|]. split; [exact Hlen|].
  exact (filmic_chroma_v2_output_range (fun r _ _ => r) [-1; 2; 300; 1] [0; 0; 0; 0] zero_data
           (Data.spline zero_data) DT_FILMIC_METHOD_MAX_RGB 1 1 4 Hch Hlen).
Defined.

Lemma inpaint_noise_blend_witness :
  (3 <= 4)%nat /\ length [0; 0; 0; 0] = 4%nat /\
  let r := inpaint_noise unit tt (fun _ x _ _ s => (x, s)) [1; 1; 1; 1] [0.5] [0; 0; 0; 0] 1 1 0 4 4 in
  length r = 4%nat /\
  forall p c, (p * 4 + c < 4)%nat -> (c < 4)%nat ->
    ((c < 3)%nat -> exists state,
        get r (p * 4 + c) = get [1; 1; 1; 1] (p * 4 + c) * (1 - get [0.5] p)
          + get [0.5] p * fst ((fun (_ : nat) (x _ : R) (_ : bool) (s : unit) => (x, s)) 0%nat (get [1; 1; 1; 1] (p * 4 + c))
                                (get [1; 1; 1; 1] (p * 4 + c) * 1 / 1) (Nat.eqb (c mod 2) 0) state)) /\
    ((c < 3)%nat -> get [0.5] p = 0 -> get r (p * 4 + c) = get [1; 1; 1; 1] (p * 4 + c)) /\
    ((3 <= c)%nat -> get r (p * 4 + c) = get [0; 0; 0; 0] (p * 4 + c)).
Proof.
  assert (Hch : (3 <= 4)%nat) by lia.
  assert (Hlen : length [0; 0; 0; 0] = 4%nat) by reflexivity.
  split; [exact Hch|]. split; [exact Hlen|].
  exact (inpaint_noise_blend unit tt (fun _ x _ _ s => (x, s)) [1; 1; 1; 1] [0.5] [0; 0; 0; 0] 1 1 0 4 4 Hch Hlen).
Defined.

Lemma wavelets_detail_level_RGB_split_witness :
  (3 <= 4)%nat /\ length [0; 0; 0; 0] = (1 * 1 * 4)%nat /\ length [0] = (1 * 1)%nat /\
  let '(HF', texture') := wavelets_detail_level_RGB [1; -5; 3; 4] [0.5; 0.5; 0.5; 0.5] [0; 0; 0; 0] [0] 1 1 4 in
  length HF' = length [0; 0; 0; 0] /\ length texture' = length [0] /\
  forall p, (p < 1 * 1)%nat ->
    (forall c, (c < 3)%nat -> get HF' (p * 4 + c) + get [0.5; 0.5; 0.5; 0.5] (p * 4 + c) = get [1; -5; 3; 4] (p * 4 + c)) /\
    (forall c, (c < 3)%nat -> Rabs (get HF' (p * 4 + c)) <= Rabs (get texture' p)) /\
    (exists c, (c < 3)%nat /\ get texture' p = get HF' (p * 4 + c)).
Proof.
  assert (Hch : (3 <= 4)%nat) by lia.
  assert (H1 : length [0; 0; 0; 0] = (1 * 1 * 4)%nat) by reflexivity.
  assert (H2 : length [0] = (1 * 1)%nat) by reflexivity.
  split; [exact Hch|]. split; [exact H1|]. split; [exact H2|].
  exact (wavelets_detail_level_RGB_split [1; -5; 3; 4] [0.5; 0.5; 0.5; 0.5] [0; 0; 0; 0] [0] 1 1 4 Hch H1 H2).
Defined.

Lemma wavelets_detail_level_ratios_split_witness :
  (3 <= 4)%nat /\ length [0; 0; 0; 0] = (1 * 1 * 4)%nat /\ length [0] = (1 * 1)%nat /\
  let '(HF', texture') := wavelets_detail_level_ratios [1; -5; 3; 4] [0.5; 0.5; 0.5; 0.5] [0; 0; 0; 0] [0] 1 1 4 in
  length HF' = length [0; 0; 0; 0] /\ length texture' = length [0] /\
  forall p, (p < 1 * 1)%nat ->
    (forall c, (c < 3)%nat -> get HF' (p * 4 + c) + get [0.5; 0.5; 0.5; 0.5] (p * 4 + c) = get [1; -5; 3; 4] (p * 4 + c)) /\
    (forall c, (c < 3)%nat -> Rabs (get texture' p) <= Rabs (get HF' (p * 4 + c))) /\
    (exists c, (c < 3)%nat /\ get texture' p = get HF' (p * 4 + c)).
Proof.
  assert (Hch : (3 <= 4)%nat) by lia.
  assert (H1 : length [0; 0; 0; 0] = (1 * 1 * 4)%nat) by reflexivity.
  assert (H2 : length [0] = (1 * 1)%nat) by reflexivity.
  split; [exact Hch|]. split; [exact H1|]. split; [exact H2|].
  exact (wavelets_detail_level_ratios_split [1; -5; 3; 4] [0.5; 0.5; 0.5; 0.5] [0; 0; 0; 0] [0] 1 1 4 Hch H1 H2).
Defined.

Lemma flat_pixel_half :
  forall q c, (q < 1 * 1)%nat -> (c < 3)%nat -> get [0.5; 0.5; 0.5; 1] (q * 4 + c) = 0.5.
Proof.
  intros q c Hq Hc. assert (q = 0%nat) by lia. subst q.
  destruct c as [|[|[|c]]]; try lia; reflexivity.
Qed.

Lemma blur_2D_Bspline_vertical_flat_witness :
  (3 <= 4)%nat /\ (0 <= 0 /\ 0 <= 0 < Z.of_nat 1)%Z /\
  (forall q c, (q < 1 * 1)%nat -> (c < 3)%nat -> get [0.5; 0.5; 0.5; 1] (q * 4 + c) = 0.5) /\
  length [0; 0; 0; 0] = (1 * 1 * 4)%nat /\
  let r := blur_2D_Bspline_vertical [0.5; 0.5; 0.5; 1] [0; 0; 0; 0] 1 1 4 1 0 0 in
  length r = length [0; 0; 0; 0] /\
  forall q c, (q < 1 * 1)%nat -> (c < 4)%nat ->
    get r (q * 4 + c) = if (c <? 3)%nat then 0.5 else get [0; 0; 0; 0] (q * 4 + c).
Proof.
  assert (Hch : (3 <= 4)%nat) by lia.
  assert (Hb : (0 <= 0 /\ 0 <= 0 < Z.of_nat 1)%Z) by lia.
  assert (Hlen : length [0; 0; 0; 0] = (1 * 1 * 4)%nat) by reflexivity.
  split; [exact Hch|]. split; [exact Hb|]. split; [exact flat_pixel_half|]. split; [exact Hlen|].
  exact (blur_2D_Bspline_vertical_flat [0.5; 0.5; 0.5; 1] [0; 0; 0; 0] 1 1 4 1 0 0 0.5 Hch Hb
           flat_pixel_half Hlen).
Defined.

Lemma blur_2D_Bspline_horizontal_flat_witness :
  (3 <= 4)%nat /\ (0 <= 0 /\ 0 <= 0 < Z.of_nat 1)%Z /\
  (forall q c, (q < 1 * 1)%nat -> (c < 3)%nat -> get [0.5; 0.5; 0.5; 1] (q * 4 + c) = 0.5) /\
  length [0; 0; 0; 0] = (1 * 1 * 4)%nat /\
  let r := blur_2D_Bspline_horizontal [0.5; 0.5; 0.5; 1] [0; 0; 0; 0] 1 1 4 1 0 0 in
  length r = length [0; 0; 0; 0] /\
  forall q c, (q < 1 * 1)%nat -> (c < 4)%nat ->
    get r (q * 4 + c) = if (c <? 3)%nat then 0.5 else 0.
Proof.
  assert (Hch : (3 <= 4)%nat) by lia.
  assert (Hb : (0 <= 0 /\ 0 <= 0 < Z.of_nat 1)%Z) by lia.
  assert (Hlen : length [0; 0; 0; 0] = (1 * 1 * 4)%nat) by reflexivity.
  split; [exact Hch|]. split; [exact Hb|]. split; [exact flat_pixel_half|]. split; [exact Hlen|].
  exact (blur_2D_Bspline_horizontal_flat [0.5; 0.5; 0.5; 1] [0; 0; 0; 0] 1 1 4 1 0 0 0.5 Hch Hb
           flat_pixel_half Hlen).
Defined.

Lemma process_no_leak_witness :
  nth 0 (alloc_results (mk_env [true; false; true] 0 [])) true = true /\
  nth 2 (alloc_results (mk_env [true; false; true] 0 [])) true = true /\
  live_buffers (snd (process (fun r _ _ => r) unit tt (fun _ x _ _ s => (x, s)) (fun _ o _ _ => o)
                             zero_data (mk_pipe 4 1 1 1 1 1 1 1 false false false) [1; 1; 1; 1] [0; 0; 0; 0]
                             (mk_env [true; false; true] 0 [])))
  = live_buffers (mk_env [true; false; true] 0 []).
Proof.
  split; [reflexivity|]. split; [reflexivity|].
  exact (process_no_leak (fun r _ _ => r) unit tt (fun _ x _ _ s => (x, s)) (fun _ o _ _ => o)
           zero_data (mk_pipe 4 1 1 1 1 1 1 1 false false false) [1; 1; 1; 1] [0; 0; 0; 0]
           (mk_env [true; false; true] 0 []) eq_refl eq_refl).
Defined.
